(** * few_shot_bc: the trajectory-chunk data pipeline and the ACT policy loss

    A shallow embedding of [act/rl_bench/torch_data.py] and [act/policy.py].

    - [Py]: the fragments of the Python runtime the two files rely on
      (exceptions, truthiness, slices with negative indices, [str] methods,
      [int()] of a float).
    - [Re]: the subset of [re] that [load_data]'s patterns use.
    - [Np]: broadcasting of numpy arrays and torch tensors kept as lists.
    - [TorchData]: the classes [ConfigMinMaxNormalization] and
      [ReverseTrajDataset], each a record with a module of its methods, and
      [load_data].  Floats are idealised as rationals ([Q]).
    - [Policy]: [kl_divergence], [ACTPolicy.__call__] and
      [CNNMLPPolicy.__call__].  Floats are idealised as reals ([R])
      because the KL term needs [exp]; a [nan] is kept as a separate
      value.
    - [Fixtures], [PolicyFixtures]: sample inputs.

    Randomness is an explicit input: the sampler's draw, the permutation
    [random.shuffle] applies, the backbone's noise.  The properties follow
    the definitions, one module per function. *)

From Stdlib Require Import Reals Lra.
From Stdlib Require Import ZArith QArith Qround Qminmax Qabs Lia.
From Stdlib Require Lqa.
From Stdlib Require Import List String Ascii Permutation.
From stdpp Require Import gmap strings list fin_maps.

Set Default Proof Using "Type".

(* ===================================================================== *)
(** * Python runtime *)
(* ===================================================================== *)

Module Py.

(** The exceptions the two source files can raise.  [ShapeError] stands
    for the [ValueError] of numpy and the [RuntimeError] of torch on shapes
    that do not fit. *)
Inductive exn : Type :=
| AssertionError
| KeyError
| IndexError
| UnboundLocalError
| AttributeError
| TypeError
| ShapeError
| FileNotFoundError.

(** A Python expression either returns or raises. *)
Inductive result (A : Type) : Type :=
| Ok (a : A)
| Raise (e : exn).
Arguments Ok {A} a.
Arguments Raise {A} e.

Definition bind {A B} (m : result A) (f : A -> result B) : result B :=
  match m with
  | Ok a => f a
  | Raise e => Raise e
  end.

Notation "'do' x <- m ; k" := (bind m (fun x => k))
  (at level 10, x name, m at level 100, k at level 200,
   format "'[v' 'do'  x  <-  m ; '/' k ']'").
Notation "'do' ' p <- m ; k" := (bind m (fun x => match x with p => k end))
  (at level 10, p pattern, m at level 100, k at level 200,
   format "'[v' 'do'  ' p  <-  m ; '/' k ']'").

(** [assert c] *)
Definition assert (c : bool) : result unit :=
  if c then Ok tt else Raise AssertionError.

(** A [for] loop whose body may raise, threading the loop state. *)
Fixpoint for_each {A S : Type} (body : S -> A -> result S) (xs : list A) (s : S)
  : result S :=
  match xs with
  | [] => Ok s
  | x :: xs' => do s' <- body s x; for_each body xs' s'
  end.

(** [[f(x) for x in xs]] where [f] may raise. *)
Fixpoint map_m {A B : Type} (f : A -> result B) (xs : list A) : result (list B) :=
  match xs with
  | [] => Ok []
  | x :: xs' => do y <- f x; do ys <- map_m f xs'; Ok (y :: ys)
  end.

(** ** Sequences: [l[i]], [l[lo:hi]] *)

(** Where a slice bound lands in a sequence of length [len]. *)
Definition slice_bound (len i : Z) : Z :=
  if (i <? 0)%Z then Z.max 0 (i + len) else Z.min i len.

(** [l[lo:hi]]; [None] is an omitted bound. *)
Definition slice {A} (l : list A) (lo hi : option Z) : list A :=
  let len := Z.of_nat (length l) in
  let a := from_option (slice_bound len) 0%Z lo in
  let b := from_option (slice_bound len) len hi in
  take (Z.to_nat (b - a)) (drop (Z.to_nat a) l).

(** [l[i]]: negative indices count from the end, out of range raises. *)
Definition index {A} (l : list A) (i : Z) : result A :=
  let len := Z.of_nat (length l) in
  let j := if (i <? 0)%Z then (i + len)%Z else i in
  if (j <? 0)%Z then Raise IndexError
  else match l !! Z.to_nat j with
       | Some x => Ok x
       | None => Raise IndexError
       end.

(** Truthiness of an optional integer: [None] and [0] are false. *)
Definition truthy (few_shot : option Z) : bool :=
  match few_shot with
  | Some k => negb (k =? 0)%Z
  | None => false
  end.

(** [int(x)] of a float: truncation towards zero. *)
Definition int (x : Q) : Z := Z.quot (Qnum x) (Zpos (Qden x)).

(** ** [str] *)

(** [pat in s] *)
Fixpoint contains (pat s : string) : bool :=
  String.prefix pat s ||
  match s with
  | EmptyString => false
  | String _ s' => contains pat s'
  end.

(** The scan of [s.replace(old, new)] for a non-empty [old]: [skip] counts
    the characters of the occurrence just replaced that are still to be
    dropped, so occurrences do not overlap. *)
Fixpoint replace_scan (old new s : string) (skip : nat) : string :=
  match s with
  | EmptyString => EmptyString
  | String c s' =>
      match skip with
      | S k => replace_scan old new s' k
      | O =>
          if String.prefix old s
          then new +:+ replace_scan old new s' (String.length old - 1)
          else String c (replace_scan old new s' 0)
      end
  end.

(** With an empty [old], Python puts [new] before every character and at
    the end. *)
Fixpoint replace_empty (new s : string) : string :=
  match s with
  | EmptyString => new
  | String c s' => new +:+ String c (replace_empty new s')
  end.

(** [s.replace(old, new)] *)
Definition replace (old new s : string) : string :=
  match old with
  | EmptyString => replace_empty new s
  | _ => replace_scan old new s 0
  end.

(** [s[-1]] *)
Fixpoint last_char (s : string) : result ascii :=
  match s with
  | EmptyString => Raise IndexError
  | String c EmptyString => Ok c
  | String _ s' => last_char s'
  end.

End Py.

(* ===================================================================== *)
(** * Regular expressions *)
(* ===================================================================== *)

Module Re.

(** The constructs [load_data]'s patterns are built from.  A class is a
    list of inclusive character ranges. *)
Inductive regex : Type :=
| Void
| Eps
| Lit (c : ascii)
| Dot
| Class (ranges : list (ascii * ascii))
| Seq (r1 r2 : regex)
| Alt (r1 r2 : regex)
| Star (r : regex).

Definition in_range (c : ascii) (rg : ascii * ascii) : bool :=
  (nat_of_ascii (fst rg) <=? nat_of_ascii c)%nat
  && (nat_of_ascii c <=? nat_of_ascii (snd rg))%nat.

Definition newline : ascii := ascii_of_nat 10.

Fixpoint nullable (r : regex) : bool :=
  match r with
  | Void | Lit _ | Dot | Class _ => false
  | Eps | Star _ => true
  | Seq r1 r2 => nullable r1 && nullable r2
  | Alt r1 r2 => nullable r1 || nullable r2
  end.

(** Brzozowski derivative: what is left of [r] after reading [c]. *)
Fixpoint deriv (c : ascii) (r : regex) : regex :=
  match r with
  | Void | Eps => Void
  | Lit c' => if Ascii.eqb c c' then Eps else Void
  | Dot => if Ascii.eqb c newline then Void else Eps
  | Class rs => if existsb (in_range c) rs then Eps else Void
  | Seq r1 r2 =>
      if nullable r1
      then Alt (Seq (deriv c r1) r2) (deriv c r2)
      else Seq (deriv c r1) r2
  | Alt r1 r2 => Alt (deriv c r1) (deriv c r2)
  | Star r1 => Seq (deriv c r1) (Star r1)
  end.

(** [r.match(s)] is not [None]: some prefix of [s] is in the language. *)
Fixpoint matches_at (r : regex) (s : string) : bool :=
  nullable r ||
  match s with
  | EmptyString => false
  | String c s' => matches_at (deriv c r) s'
  end.

(** [r.search(s)] is not [None]: a match starts somewhere in [s]. *)
Fixpoint search (r : regex) (s : string) : bool :=
  matches_at r s ||
  match s with
  | EmptyString => false
  | String _ s' => search r s'
  end.

(** A literal string. *)
Fixpoint str (s : string) : regex :=
  match s with
  | EmptyString => Eps
  | String c s' => Seq (Lit c) (str s')
  end.

(** [[\d]], [[a-zA-Z_]] and a one-character class such as [[3]]. *)
Definition digit : regex := Class [("0"%char, "9"%char)].
Definition word : regex :=
  Class [("a"%char, "z"%char); ("A"%char, "Z"%char); ("_"%char, "_"%char)].
Definition one (c : ascii) : regex := Class [(c, c)].

(** The language of a pattern: the strings that a match of it can cover. *)
Inductive lang : regex -> string -> Prop :=
| lang_eps : lang Eps ""
| lang_lit c : lang (Lit c) (String c "")
| lang_dot c : Ascii.eqb c newline = false -> lang Dot (String c "")
| lang_class c rs :
    existsb (in_range c) rs = true -> lang (Class rs) (String c "")
| lang_seq r1 r2 s1 s2 :
    lang r1 s1 -> lang r2 s2 -> lang (Seq r1 r2) (s1 +:+ s2)
| lang_alt_l r1 r2 s : lang r1 s -> lang (Alt r1 r2) s
| lang_alt_r r1 r2 s : lang r2 s -> lang (Alt r1 r2) s
| lang_star_nil r : lang (Star r) ""
| lang_star_cons r s1 s2 :
    lang r s1 -> lang (Star r) s2 -> lang (Star r) (s1 +:+ s2).

End Re.

(* ===================================================================== *)
(** * numpy and torch broadcasting *)
(* ===================================================================== *)

Module Np.
Import Py.

(** Broadcasting of a binary operation along one axis: equal lengths pair
    up, a length of one is repeated. *)
Definition broadcast {A B C} (f : A -> B -> C) (x : list A) (y : list B)
  : result (list C) :=
  if decide (length x = length y) then Ok (zip_with f x y)
  else match x, y with
       | [a], _ => Ok (f a <$> y)
       | _, [b] => Ok ((fun a => f a b) <$> x)
       | _, _ => Raise ShapeError
       end.

(** The same along an outer axis, [f] broadcasting the inner ones. *)
Definition broadcast_m {A B C} (f : A -> B -> result C) (x : list A) (y : list B)
  : result (list C) :=
  do pairs <- broadcast pair x y;
  map_m (fun p => f p.1 p.2) pairs.

(** Expansion of the value of a slice assignment to the [n] slots it is
    assigned to. *)
Definition expand {A} (n : nat) (l : list A) : result (list A) :=
  if decide (length l = n) then Ok l
  else match l with
       | [x] => Ok (replicate n x)
       | _ => Raise ShapeError
       end.

(** Tensors given as nested lists have one shape. *)
Definition shape2_eq {A B} (x : list (list A)) (y : list (list B)) : Prop :=
  Forall2 (fun r s => length r = length s) x y.
Definition shape3_eq {A B} (x : list (list (list A))) (y : list (list (list B)))
  : Prop :=
  Forall2 shape2_eq x y.

End Np.

(* ===================================================================== *)
(** * act/rl_bench/torch_data.py *)
(* ===================================================================== *)

Module TorchData.
Import Py Np.
Local Open Scope Q_scope.

Definition CONFIG_DIM : nat := 7.

(** ** Arrays *)

(** The arrays and tensors the data pipeline handles, by rank.  An image
    keeps its shape and a pixel function. *)
Inductive tensor : Type :=
| T0 (x : Q)
| T1 (v : list Q)
| T2 (cols : nat) (rows : list (list Q))
| T3 (h w c : nat) (px : nat -> nat -> nat -> Q)
| T4 (k c h w : nat) (px : nat -> nat -> nat -> nat -> Q)
| TBool (m : list bool).

Definition shape (t : tensor) : list nat :=
  match t with
  | T0 _ => []
  | T1 v => [length v]
  | T2 cols rows => [length rows; cols]
  | T3 h w c _ => [h; w; c]
  | T4 k c h w _ => [k; c; h; w]
  | TBool m => [length m]
  end.

Definition Qlt_bool (a b : Q) : bool := negb (Qle_bool b a).

(** ** ConfigMinMaxNormalization *)

Record ConfigMinMaxNormalization : Type := {
  _min : list Q;
  _max : list Q
}.

Module ConfigMinMaxNormalization.

(** [bounds] has one [(min, max)] row per dimension, so that the assertion
    [bounds.shape[1] == 2] holds by typing. *)
Definition __init__ (bounds : list (Q * Q)) : ConfigMinMaxNormalization :=
  {| _min := bounds.*1; _max := bounds.*2 |}.

Definition validate_bounds (self : ConfigMinMaxNormalization) (js : list Q)
  : result bool :=
  do above <- broadcast (fun x lo => Qlt_bool lo x) js (_min self);
  if forallb (fun b : bool => b) above
  then do below <- broadcast (fun x hi => Qlt_bool x hi) js (_max self);
       Ok (forallb (fun b : bool => b) below)
  else Ok false.

(** The division is [Q]'s, which gives [0] for a zero divisor where numpy
    gives [inf] or [nan]; the statements about [transform] are for
    [min < max]. *)
Definition transform (self : ConfigMinMaxNormalization) (X : list Q)
  : result (list Q) :=
  do num <- broadcast Qminus X (_min self);
  do den <- broadcast Qminus (_max self) (_min self);
  do X1 <- broadcast (fun a d => 1 * a / d) num den;
  Ok ((fun x => x * 2 - 1) <$> X1).

Definition inverse_transform (self : ConfigMinMaxNormalization) (X : list Q)
  : result (list Q) :=
  let X1 := (fun x => (x + 1) / 2) <$> X in
  do span <- broadcast Qminus (_max self) (_min self);
  do X2 <- broadcast (fun x d => 1 * x * d) X1 span;
  broadcast Qplus X2 (_min self).

Definition clamp (self : ConfigMinMaxNormalization) (js : list Q)
  : result (list Q) :=
  let ones := (fun _ => 1) <$> js in
  do min_ <- broadcast Qmult ones (_min self);
  do max_ <- broadcast Qmult ones (_max self);
  do lo <- broadcast Qmax js min_;
  broadcast Qmin lo max_.

End ConfigMinMaxNormalization.
Export ConfigMinMaxNormalization.

(** The two maps on one coordinate with bounds [b = (min, max)]. *)
Definition scale (b : Q * Q) (x : Q) : Q := 1 * (x - b.1) / (b.2 - b.1) * 2 - 1.
Definition unscale (b : Q * Q) (y : Q) : Q :=
  1 * ((y + 1) / 2) * (b.2 - b.1) + b.1.

(** The three operations on a vector with one coordinate per bound, as
    plain functions. *)
Definition in_bounds (bounds : list (Q * Q)) (js : list Q) : bool :=
  forallb (fun b : bool => b) (zip_with (fun x lo => Qlt_bool lo x) js bounds.*1)
  && forallb (fun b : bool => b) (zip_with (fun x hi => Qlt_bool x hi) js bounds.*2).
Definition scale_row (bounds : list (Q * Q)) (js : list Q) : list Q :=
  zip_with (fun x b => scale b x) js bounds.
Definition clamp_row (bounds : list (Q * Q)) (js : list Q) : list Q :=
  zip_with (fun x b => Qmin (Qmax x (1 * b.1)) (1 * b.2)) js bounds.

(** ** Demonstrations *)

(** How a stream keeps its timesteps: a Python list holds references to
    one array per timestep; a 2-D ndarray hands out row views, and an
    assignment to a row writes through to every view of it. *)
Inductive container : Type := PyList | NdArray.

Record stream : Type := {
  kind : container;
  items : list tensor
}.

(** A demonstration is a [dict]; the order of its keys matters to
    [__getitem__], which reads the episode length off the first valid
    key. *)
Abbreviation demonstration := (list (string * stream)).

(** [d[key]] *)
Fixpoint dict_get {V} (d : list (string * V)) (key : string) : result V :=
  match d with
  | [] => Raise KeyError
  | (k, v) :: d' => if String.eqb k key then Ok v else dict_get d' key
  end.

(** [m[key]] of a [dict] kept as a finite map. *)
Definition map_get {V} (m : gmap string V) (key : string) : result V :=
  match m !! key with
  | Some v => Ok v
  | None => Raise KeyError
  end.

(** ** ReverseTrajDataset *)

Record ReverseTrajDataset : Type := {
  file_list : list string;
  required_data_keys : list string;
  chunk_size : nat;
  normalizer : option ConfigMinMaxNormalization;
  add_task_ind : bool;
  task_name : string
}.

Module ReverseTrajDataset.

Definition camera_names : list string :=
  ["front_rgb"; "left_shoulder_rgb"; "right_shoulder_rgb"; "wrist_rgb"]%string.

(** [self.len] is [__len__] and [self.sampler] the [draw] that
    [__getitem__] takes. *)
Definition __init__ (file_list required_data_keys : list string)
    (chunk_size : nat) (norm_bound : option (list (Q * Q)))
    (add_task_ind : bool) (task_name : string) : ReverseTrajDataset :=
  {| file_list := file_list;
     required_data_keys := required_data_keys;
     chunk_size := chunk_size;
     normalizer := ConfigMinMaxNormalization.__init__ <$> norm_bound;
     add_task_ind := add_task_ind;
     task_name := task_name |}.

Definition __len__ (self : ReverseTrajDataset) : nat := length (file_list self).

(** *** The steps of [__getitem__] *)

(** The keys of [demo] whose stream is not empty, in the order of the
    [dict]. *)
Definition valid_keys (demo : demonstration) : list string :=
  (List.filter (fun kv => 0 <? length (items kv.2))%nat demo).*1.

(** The timesteps of a position stream as rows.  A timestep that is not a
    1-D array is reported as [TypeError]: such streams are outside the
    episode format, and numpy would raise or broadcast depending on the
    shapes. *)
Definition rows_of (its : list tensor) : result (list (list Q)) :=
  map_m (fun t => match t with T1 v => Ok v | _ => Raise TypeError end) its.

Definition row_of (t : tensor) : list Q :=
  match t with T1 v => v | _ => [] end.

(** The same for the scalar timesteps of a gripper stream. *)
Definition scalars_of (its : list tensor) : result (list Q) :=
  map_m (fun t => match t with T0 x => Ok x | _ => Raise TypeError end) its.

Definition scalar_of (t : tensor) : Q :=
  match t with T0 x => x | _ => 0 end.

(** [chunk_data[i] = value]: a list rebinds its slot; an ndarray copies
    [value] into row [i], which must have its width (or width one). *)
Definition store_row (c : container) (chunk : list (list Q)) (i : nat)
    (value : list Q) : result (list (list Q)) :=
  match c with
  | PyList => Ok (<[i := value]> chunk)
  | NdArray =>
      match chunk !! i with
      | Some row =>
          match expand (length row) value with
          | Ok v => Ok (<[i := v]> chunk)
          | Raise _ => Raise ShapeError
          end
      | None => Raise IndexError
      end
  end.

(** What the loop variable [js] denotes after [chunk_data[i]] has been
    assigned: for a list, still the array it was bound to; for an ndarray,
    the row view, hence the row as it is now. *)
Definition reread (c : container) (chunk : list (list Q)) (i : nat)
    (js : list Q) : list Q :=
  match c with
  | PyList => js
  | NdArray => default js (chunk !! i)
  end.

(** One iteration of [for i, js in enumerate(chunk_data)]. *)
Definition normalize_step (c : container) (nz : ConfigMinMaxNormalization)
    (chunk : list (list Q)) (i : nat) : result (list (list Q)) :=
  match chunk !! i with
  | None => Ok chunk
  | Some js =>
      do inside <- validate_bounds nz js;
      do chunk1 <- (if inside : bool
                    then do t <- transform nz js; store_row c chunk i t
                    else Ok chunk);
      do cl <- clamp nz (reread c chunk1 i js);
      store_row c chunk1 i cl
  end.

(** What the loop leaves in the slot of a timestep [js]: the clamp of
    what [js] denotes when [clamp] is called. *)
Definition stored_row (c : container) (bounds : list (Q * Q)) (js : list Q)
  : list Q :=
  clamp_row bounds
    match c with
    | PyList => js
    | NdArray => if in_bounds bounds js then scale_row bounds js else js
    end.

Definition normalize_chunk (c : container) (nz : ConfigMinMaxNormalization)
    (chunk_data : list (list Q)) : result (list (list Q)) :=
  for_each (normalize_step c nz) (seq 0 (length chunk_data)) chunk_data.

(** [np.array(rows)] of 1-D rows: the common width, or [ValueError] when
    the rows are ragged; [None] for the empty list, whose array has shape
    [(0,)]. *)
Definition np_array (rows : list (list Q)) : result (option nat) :=
  match rows with
  | [] => Ok None
  | r :: _ =>
      if forallb (fun r' => length r' =? length r)%nat rows
      then Ok (Some (length r))
      else Raise ShapeError
  end.

(** [data[:n, :] = torch.as_tensor(np.array(chunk_data))] on a
    [(len(data), CONFIG_DIM)] tensor. *)
Definition set_rows (data : list (list Q)) (n : Z) (chunk_data : list (list Q))
  : result (list (list Q)) :=
  let m := Z.to_nat (slice_bound (Z.of_nat (length data)) n) in
  do width <- np_array chunk_data;
  match width with
  | None => Raise ShapeError
  | Some _ =>
      do rows <- map_m (expand CONFIG_DIM) chunk_data;
      do rows' <- expand m rows;
      Ok (rows' ++ drop m data)
  end.

(** [data[:n] = torch.as_tensor(np.array(chunk_data))] on a 1-D tensor. *)
Definition set_prefix (data : list Q) (n : Z) (chunk_data : list Q)
  : result (list Q) :=
  let m := Z.to_nat (slice_bound (Z.of_nat (length data)) n) in
  do xs <- expand m chunk_data;
  Ok (xs ++ drop m data).

(** [is_pad = np.ones(chunk_size); is_pad[:n] = 0;
    torch.from_numpy(is_pad).bool()] *)
Definition pad_mask (chunk_size : nat) (n : Z) : list bool :=
  let ones := replicate chunk_size 1 in
  let m := Z.to_nat (slice_bound (Z.of_nat (length ones)) n) in
  let is_pad := replicate m 0 ++ drop m ones in
  (fun x => negb (Qeq_bool x 0)) <$> is_pad.

(** [np.stack(all_cam_images, axis=0)], the [einsum] that moves the channel
    axis before the spatial ones, and the division by 255.  Frames must be
    images of one shape. *)
Definition same_shape (a b : tensor) : bool :=
  bool_decide (shape a = shape b).

Definition stack_images (frames : list tensor) : result tensor :=
  match frames with
  | T3 h w c _ :: _ =>
      if forallb (same_shape (T3 h w c (fun _ _ _ => 0))) frames
      then Ok (T4 (length frames) c h w
                 (fun k ch y x =>
                    match frames !! k with
                    | Some (T3 _ _ _ px) => px y x ch / 255
                    | _ => 0
                    end))
      else Raise ShapeError
  | _ => Raise ShapeError
  end.

(** The local [skill_ind] after the [if self.add_task_ind:] block: it is
    bound only if one of the two names occurs in the path. *)
Definition skill_from_name (add_task_ind : bool) (path : string)
  : option (list Q) :=
  if add_task_ind then
    if contains "backward" path then Some [0; 1]
    else if contains "forward" path then Some [1; 0]
    else None
  else None.

(** The indicator block, lines 147 to 164: the pair
    [(skill_ind, env_ind)] stored in the batch. *)
Definition indicators (add_task_ind : bool) (path : string)
  : result (list Q * list Q) :=
  let skill := skill_from_name add_task_ind path in
  do c <- last_char (replace ".pickle" "" path);
  let '(skill_ind, env_ind) :=
    if Ascii.eqb c "1" then (skill, [1; 0; 0])
    else if Ascii.eqb c "3" then (skill, [0; 1; 0])
    else if Ascii.eqb c "5" then (skill, [0; 0; 1])
    else (Some [0; 0], [0; 0; 0]) in
  match skill_ind with
  | Some s => Ok (s, env_ind)
  | None => Raise UnboundLocalError
  end.

(** The indicators as the specification words them: the skill one-hot
    from the name alone when indicators are enabled, the environment
    one-hot from the trailing digit, all-zero when nothing matches. *)
Definition skill_by_name (add_task_ind : bool) (path : string) : list Q :=
  match skill_from_name add_task_ind path with
  | Some s => s
  | None => [0; 0]
  end.

Definition env_by_digit (c : ascii) : list Q :=
  if Ascii.eqb c "1" then [1; 0; 0]
  else if Ascii.eqb c "3" then [0; 1; 0]
  else if Ascii.eqb c "5" then [0; 0; 1]
  else [0; 0; 0].

(** The trailing characters that select an environment class. *)
Definition env_digit (c : ascii) : bool :=
  Ascii.eqb c "1" || Ascii.eqb c "3" || Ascii.eqb c "5".

(** The body of [for key in self.required_data_keys], on the pair
    [(image_dict, data_batch)]. *)
Definition collect (self : ReverseTrajDataset) (demo : demonstration)
    (start_ts end_ts : Z)
    (acc : gmap string tensor * gmap string tensor) (key : string)
  : result (gmap string tensor * gmap string tensor) :=
  let '(image_dict, data_batch) := acc in
  if contains "position" key then
    do st <- dict_get demo key;
    do chunk_data <- rows_of (slice (items st) (Some start_ts) (Some end_ts));
    do chunk_data <- match normalizer self with
                     | Some nz => normalize_chunk (kind st) nz chunk_data
                     | None => Ok chunk_data
                     end;
    let zeros := replicate (chunk_size self) (replicate CONFIG_DIM 0) in
    do data <- set_rows zeros (end_ts - start_ts) chunk_data;
    Ok (image_dict, <["joint_action"%string := T2 CONFIG_DIM data]> data_batch)
  else if contains "gripper" key then
    do st <- dict_get demo key;
    do chunk_data <- scalars_of (slice (items st) (Some start_ts) (Some end_ts));
    let zeros := replicate (chunk_size self) 0 in
    do data <- set_prefix zeros (end_ts - start_ts) chunk_data;
    Ok (image_dict, <["gripper_action"%string := T1 data]> data_batch)
  else if contains "rgb" key then
    do st <- dict_get demo key;
    do frame <- index (items st) start_ts;
    Ok (<[key := frame]> image_dict, data_batch)
  else
    do st <- dict_get demo key;
    do data <- index (items st) start_ts;
    Ok (image_dict, <[key := data]> data_batch).

(** The six shape assertions that close [__getitem__]. *)
Definition assert_shape (data_batch : gmap string tensor) (key : string)
    (expected : list nat) : result unit :=
  do t <- map_get data_batch key;
  assert (bool_decide (shape t = expected)).

Definition check_shapes (chunk_size : nat) (data_batch : gmap string tensor)
  : result unit :=
  do _ <- assert_shape data_batch "images" [4; 3; 128; 128]%nat;
  do _ <- assert_shape data_batch "is_pad" [chunk_size];
  do _ <- assert_shape data_batch "joint_action" [chunk_size; 7%nat];
  do _ <- assert_shape data_batch "gripper_action" [chunk_size];
  do _ <- assert_shape data_batch "skill_ind" [2%nat];
  assert_shape data_batch "env_ind" [3%nat].

(** [episode_len = len(demo[valid_keys[0]])] *)
Definition episode_length (demo : demonstration) : result Z :=
  do key0 <- index (valid_keys demo) 0;
  do st0 <- dict_get demo key0;
  Ok (Z.of_nat (length (items st0))).

(** [start_ts = int(self.sampler() * episode_len)] *)
Definition sample_start (draw : Q) (episode_len : Z) : Z :=
  int (draw * inject_Z episode_len).

(** [fs] is the content of the episode files ([pickle.load]) and [draw]
    the value [self.sampler()] returns. *)
Definition __getitem__ (self : ReverseTrajDataset)
    (fs : string -> option demonstration) (draw : Q) (idx : Z)
  : result (gmap string tensor) :=
  do path <- index (file_list self) idx;
  do demo <- match fs path with
             | Some d => Ok d
             | None => Raise FileNotFoundError
             end;
  let valid := valid_keys demo in
  do _ <- assert (0 <? length valid)%nat;
  do _ <- assert (forallb (fun req_key => bool_decide (req_key ∈ valid))
                    (required_data_keys self));
  do episode_len <- episode_length demo;
  let start_ts := sample_start draw episode_len in
  let end_ts := Z.min episode_len (start_ts + Z.of_nat (chunk_size self)) in
  do '(image_dict, data_batch) <-
     for_each (collect self demo start_ts end_ts)
       (required_data_keys self) (∅, ∅);
  do all_cam_images <- map_m (map_get image_dict) camera_names;
  do image_data <- stack_images all_cam_images;
  let data_batch := <["images"%string := image_data]> data_batch in
  let is_pad := pad_mask (chunk_size self) (end_ts - start_ts) in
  let data_batch := <["is_pad"%string := TBool is_pad]> data_batch in
  do '(skill_ind, env_ind) <- indicators (add_task_ind self) path;
  let data_batch := <["skill_ind"%string := T1 skill_ind]> data_batch in
  let data_batch := <["env_ind"%string := T1 env_ind]> data_batch in
  do _ <- check_shapes (chunk_size self) data_batch;
  Ok data_batch.

End ReverseTrajDataset.
Export ReverseTrajDataset.

(** *** The episode format

    What the specification's data model asks of a demonstration, as a
    check: keys are unique, the streams that are not empty have one
    length, every required key has such a stream, position streams hold
    [CONFIG_DIM]-vectors, gripper streams scalars and the four cameras
    128 x 128 RGB frames; the required keys name the four cameras, a
    position stream and a gripper stream, and none of them is the batch
    key ["joint_action"]; the bounds of a normaliser have [CONFIG_DIM]
    rows. *)
Definition is_row (t : tensor) : bool :=
  match t with
  | T1 v => bool_decide (length v = CONFIG_DIM)
  | _ => false
  end.

Definition is_scalar (t : tensor) : bool :=
  match t with
  | T0 _ => true
  | _ => false
  end.

Definition is_frame (t : tensor) : bool :=
  match t with
  | T3 h w c _ => bool_decide (h = 128 /\ w = 128 /\ c = 3)%nat
  | _ => false
  end.

Definition stream_fits (key : string) (st : stream) : bool :=
  if contains "position" key then forallb is_row (items st)
  else if contains "gripper" key then forallb is_scalar (items st)
  else if contains "rgb" key then
    (if bool_decide (key ∈ camera_names) then forallb is_frame (items st)
     else true)
  else negb (String.eqb key "joint_action").

Definition required_fits (demo : demonstration) (key : string) : bool :=
  match dict_get demo key with
  | Ok st => (0 <? length (items st))%nat && stream_fits key st
  | Raise _ => false
  end.

Definition normalizer_fits (nz : option ConfigMinMaxNormalization) : bool :=
  match nz with
  | Some nz => bool_decide (length (_min nz) = CONFIG_DIM)
               && bool_decide (length (_max nz) = CONFIG_DIM)
  | None => true
  end.

Definition episode_fits (self : ReverseTrajDataset) (demo : demonstration)
    (L : nat) : bool :=
  bool_decide (NoDup demo.*1)
  && forallb (fun kv => bool_decide (length (items kv.2) = 0%nat
                                     \/ length (items kv.2) = L)) demo
  && forallb (required_fits demo) (required_data_keys self)
  && forallb (fun cam => bool_decide (cam ∈ required_data_keys self)) camera_names
  && existsb (contains "position") (required_data_keys self)
  && existsb (fun key => negb (contains "position" key) && contains "gripper" key)
       (required_data_keys self)
  && normalizer_fits (normalizer self).

(** *** Padding

    [valid_length] is the number of real timesteps of a chunk; a padded
    tensor has the full length and is zero from there on.  [chunk_inv] is
    the invariant of the loop over the required keys on
    [(image_dict, data_batch)]: a camera entry is a frame and the two
    action entries are padded. *)
Definition valid_length (episode_len start_ts : Z) (chunk_size : nat) : nat :=
  Z.to_nat (Z.min episode_len (start_ts + Z.of_nat chunk_size) - start_ts).

Definition padded {A} (chunk_size n : nat) (zero : A) (data : list A) : Prop :=
  length data = chunk_size /\
  forall i, (n <= i < chunk_size)%nat -> data !! i = Some zero.

Definition good_joint (chunk_size n : nat) (t : tensor) : Prop :=
  exists data,
    t = T2 CONFIG_DIM data /\ padded chunk_size n (replicate CONFIG_DIM 0) data.

Definition good_gripper (chunk_size n : nat) (t : tensor) : Prop :=
  exists data, t = T1 data /\ padded chunk_size n 0 data.

Definition chunk_inv (chunk_size n : nat)
    (acc : gmap string tensor * gmap string tensor) : Prop :=
  (forall cam fr,
     cam ∈ camera_names -> acc.1 !! cam = Some fr -> is_frame fr = true) /\
  (forall t, acc.2 !! "joint_action"%string = Some t -> good_joint chunk_size n t) /\
  (forall t, acc.2 !! "gripper_action"%string = Some t ->
             good_gripper chunk_size n t).

(** The entry a key has contributed, and entries never disappearing. *)
Definition added (key : string) (acc : gmap string tensor * gmap string tensor)
  : Prop :=
  if contains "position" key then is_Some (acc.2 !! "joint_action"%string)
  else if contains "gripper" key then is_Some (acc.2 !! "gripper_action"%string)
  else if contains "rgb" key then is_Some (acc.1 !! key)
  else True.

Definition grows (acc acc' : gmap string tensor * gmap string tensor) : Prop :=
  (forall k, is_Some (acc.1 !! k) -> is_Some (acc'.1 !! k)) /\
  (forall k, is_Some (acc.2 !! k) -> is_Some (acc'.2 !! k)).

(** *** Contents of a sample

    The rows a position chunk holds after the normalisation loop, the two
    action tensors built from a stream ([n] real timesteps from [s] on,
    then zeros), the entry a stream has at a timestep [s >= 0], and the
    kinds of key the loop over the required keys tells apart.  When several keys
    are of one kind the loop keeps what the last one wrote. *)
Definition after_normalizer (nz : option ConfigMinMaxNormalization)
    (c : container) (rows : list (list Q)) : list (list Q) :=
  match nz with
  | Some nz => stored_row c (zip (_min nz) (_max nz)) <$> rows
  | None => rows
  end.

Definition joint_chunk (self : ReverseTrajDataset) (st : stream) (s : Z)
    (n : nat) : list (list Q) :=
  after_normalizer (normalizer self) (kind st)
    (row_of <$> take n (drop (Z.to_nat s) (items st)))
  ++ replicate (chunk_size self - n) (replicate CONFIG_DIM 0).

Definition gripper_chunk (self : ReverseTrajDataset) (st : stream) (s : Z)
    (n : nat) : list Q :=
  (scalar_of <$> take n (drop (Z.to_nat s) (items st)))
  ++ replicate (chunk_size self - n) 0.

Definition timestep (demo : demonstration) (s : Z) (key : string)
  : option tensor :=
  match dict_get demo key with
  | Ok st => items st !! Z.to_nat s
  | Raise _ => None
  end.

Definition joint_entry (self : ReverseTrajDataset) (demo : demonstration)
    (s : Z) (n : nat) (key : string) : option tensor :=
  match dict_get demo key with
  | Ok st => Some (T2 CONFIG_DIM (joint_chunk self st s n))
  | Raise _ => None
  end.

Definition gripper_entry (self : ReverseTrajDataset) (demo : demonstration)
    (s : Z) (n : nat) (key : string) : option tensor :=
  match dict_get demo key with
  | Ok st => Some (T1 (gripper_chunk self st s n))
  | Raise _ => None
  end.

Definition position_key (key : string) : bool := contains "position" key.

Definition gripper_key (key : string) : bool :=
  negb (contains "position" key) && contains "gripper" key.

Definition image_key (key : string) : bool :=
  negb (contains "position" key) && negb (contains "gripper" key)
  && contains "rgb" key.

Definition other_key (key : string) : bool :=
  negb (contains "position" key) && negb (contains "gripper" key)
  && negb (contains "rgb" key).

Definition last_key (f : string -> bool) (keys : list string) : option string :=
  last (List.filter f keys).

(** ** load_data *)

Section patterns.
Import Re.

Definition seqs (rs : list regex) : regex := foldr Seq Eps rs.

(** [forward_[\d]*1.pickle], [backward_[\d]*1.pickle] and
    [[a-zA-Z_]*[\d]*1.pickle] for an environment digit. *)
Definition skill_pattern (prefix : string) (env : ascii) : regex :=
  seqs [str prefix; Star digit; Lit env; Dot; str "pickle"].
Definition env_pattern (env : ascii) : regex :=
  seqs [Star word; Star digit; Lit env; Dot; str "pickle"].

(** [demo_forward_[\d]*[3].pickle] and [[a-zA-Z_]*[\d]*[1].pickle], with
    the digit in a class. *)
Definition demo_pattern (prefix : string) (env : ascii) : regex :=
  seqs [str prefix; Star digit; one env; Dot; str "pickle"].
Definition env_class_pattern (env : ascii) : regex :=
  seqs [Star word; Star digit; one env; Dot; str "pickle"].

Definition base_filter_map : gmap string regex :=
  list_to_map
    [("box_open", skill_pattern "forward_" "1");
     ("box_close", skill_pattern "backward_" "1");
     ("box", env_pattern "1");
     ("door_open", skill_pattern "forward_" "2");
     ("door_close", skill_pattern "backward_" "2");
     ("door", env_pattern "2");
     ("toilet_seat_up", skill_pattern "forward_" "3");
     ("toilet_seat_down", skill_pattern "backward_" "3");
     ("toilet_seat", env_pattern "3");
     ("grill_open", skill_pattern "forward_" "5");
     ("grill_close", skill_pattern "backward_" "5");
     ("grill", env_pattern "5")]%string.

Definition task_filter_map (few_shot : option Z) : gmap string regex :=
  if truthy few_shot then
    <["go_gc_to_tc_bo"%string := demo_pattern "demo_backward_" "1"]>
    (<["go_gc_to_tc_bc"%string := demo_pattern "demo_forward_" "1"]>
    (<["bo_bc_go_gc_tc"%string := demo_pattern "demo_forward_" "3"]>
    (<["bo_bc_tc"%string := demo_pattern "demo_forward_" "3"]>
       base_filter_map)))
  else
    <["go_gc_to_tc_bo"%string :=
        Alt (env_class_pattern "5")
          (Alt (env_class_pattern "3") (demo_pattern "demo_forward_" "1"))]>
    (<["go_gc_to_tc_bc"%string :=
        Alt (env_class_pattern "5")
          (Alt (env_class_pattern "3") (demo_pattern "demo_backward_" "1"))]>
    (<["bo_bc_go_gc_tc"%string :=
        Alt (env_class_pattern "1")
          (Alt (env_class_pattern "5") (demo_pattern "demo_backward_" "3"))]>
    (<["bo_bc_tc"%string :=
        Alt (env_class_pattern "1") (demo_pattern "demo_backward_" "3")]>
       base_filter_map))).

End patterns.

(** The files kept by the loop over [glob.glob(...)], lines 279 to 284. *)
Definition filter_files (task_filter_key : option Re.regex)
    (listing : list string) : list string :=
  List.filter (fun file => match task_filter_key with
                      | None => true
                      | Some r => Re.search r file
                      end) listing.

(** Lines 286 to 292: the split of the shuffled list. *)
Definition split_files (few_shot : option Z) (train_split : Q)
    (file_list : list string) : list string * list string :=
  if truthy few_shot then
    (slice file_list None few_shot,
     slice file_list few_shot ((fun k => k + 10)%Z <$> few_shot))
  else
    let split_idx := int (inject_Z (Z.of_nat (length file_list)) * train_split) in
    (slice file_list None (Some split_idx),
     slice file_list (Some split_idx) None).

Record load_args : Type := {
  arg_task_name : string;
  arg_required_data_keys : list string;
  arg_chunk_size : nat;
  arg_norm_bound : option (list (Q * Q));
  arg_train_split : Q;
  arg_add_task_ind : bool;
  arg_few_shot : option Z
}.

Definition default_required_data_keys : list string :=
  ["front_rgb"; "left_shoulder_rgb"; "right_shoulder_rgb"; "wrist_rgb";
   "joint_positions"; "gripper_open"]%string.

(** The defaults of [load_data]'s signature ([batch_size] only reaches the
    [DataLoader]). *)
Definition default_args : load_args :=
  {| arg_task_name := "box_open";
     arg_required_data_keys := default_required_data_keys;
     arg_chunk_size := 100;
     arg_norm_bound := None;
     arg_train_split := 0.8;
     arg_add_task_ind := false;
     arg_few_shot := None |}.

(** Lines 276 and 277: a task name loses every ["sim_"]. *)
Definition strip_sim (task_name : string) : string :=
  if contains "sim_" task_name then replace "sim_" "" task_name else task_name.

(** [load_data], up to the two datasets it wraps in [DataLoader]s.
    [listing] is what [glob.glob(os.path.join(dataset_dir, "*.pickle"))]
    returns and [shuffle] the rearrangement [random.shuffle] performs. *)
Definition load_data (shuffle : list string -> list string)
    (listing : list string) (a : load_args)
  : result (ReverseTrajDataset * ReverseTrajDataset) :=
  let task_name := strip_sim (arg_task_name a) in
  do task_filter_key <- map_get (task_filter_map (arg_few_shot a)) task_name;
  let file_list := shuffle (filter_files (Some task_filter_key) listing) in
  let '(train_file_list, test_file_list) :=
    split_files (arg_few_shot a) (arg_train_split a) file_list in
  let dataset files :=
    ReverseTrajDataset.__init__ files (arg_required_data_keys a) (arg_chunk_size a)
      (arg_norm_bound a) (arg_add_task_ind a) task_name in
  Ok (dataset train_file_list, dataset test_file_list).

(** The keys of [task_filter_map]: the twelve of the literal and the four
    that either branch of [if few_shot] adds. *)
Definition task_names : list string :=
  ["box_open"; "box_close"; "box"; "door_open"; "door_close"; "door";
   "toilet_seat_up"; "toilet_seat_down"; "toilet_seat";
   "grill_open"; "grill_close"; "grill";
   "bo_bc_tc"; "bo_bc_go_gc_tc"; "go_gc_to_tc_bc"; "go_gc_to_tc_bo"]%string.

(** [load_data]'s arguments with another task name. *)
Definition with_task_name (a : load_args) (task_name : string) : load_args :=
  {| arg_task_name := task_name;
     arg_required_data_keys := arg_required_data_keys a;
     arg_chunk_size := arg_chunk_size a;
     arg_norm_bound := arg_norm_bound a;
     arg_train_split := arg_train_split a;
     arg_add_task_ind := arg_add_task_ind a;
     arg_few_shot := arg_few_shot a |}.

(** The registry groups its tasks by environment: each skill task with
    the task of its environment; each multi-task name with the skill whose
    demonstrations it stands for under few-shot; and each environment with
    the multi-task names that list its initials ([bo_bc] is the box,
    [go_gc] the grill, [to_tc] the toilet seat). *)
Definition task_families : list (string * string) :=
  [("box_open", "box"); ("box_close", "box");
   ("door_open", "door"); ("door_close", "door");
   ("toilet_seat_up", "toilet_seat"); ("toilet_seat_down", "toilet_seat");
   ("grill_open", "grill"); ("grill_close", "grill")]%string.

Definition few_shot_targets : list (string * string) :=
  [("bo_bc_tc", "toilet_seat_up"); ("bo_bc_go_gc_tc", "toilet_seat_up");
   ("go_gc_to_tc_bc", "box_open"); ("go_gc_to_tc_bo", "box_close")]%string.

Definition multi_task_members : list (string * string) :=
  [("box", "bo_bc_tc"); ("box", "bo_bc_go_gc_tc"); ("grill", "bo_bc_go_gc_tc");
   ("grill", "go_gc_to_tc_bc"); ("toilet_seat", "go_gc_to_tc_bc");
   ("grill", "go_gc_to_tc_bo"); ("toilet_seat", "go_gc_to_tc_bo")]%string.

End TorchData.

(* ===================================================================== *)
(** * act/policy.py *)
(* ===================================================================== *)

Module Policy.
Import Py Np.
Local Open Scope R_scope.

(** ** Tensors *)

(** A float is a real number or [nan]; [nan] only arises here as the mean
    of an empty tensor. *)
Inductive float : Type :=
| num (r : R)
| nan.

Definition fadd (a b : float) : float :=
  match a, b with
  | num x, num y => num (x + y)
  | _, _ => nan
  end.

Definition fmul (a b : float) : float :=
  match a, b with
  | num x, num y => num (x * y)
  | _, _ => nan
  end.

Abbreviation tensor2 := (list (list R)).
Abbreviation tensor3 := (list (list (list R))).
Abbreviation tensor4 := (list (list (list (list R)))).
Abbreviation mask := (list (list bool)).

Definition sum (l : list R) : R := foldr Rplus 0 l.

(** [t.mean()] of the elements [l] of [t]. *)
Definition mean (l : list R) : float :=
  match l with
  | [] => nan
  | _ => num (sum l / INR (length l))
  end.

(** The mean of values that may already be [nan]. *)
Definition fmean (l : list float) : float :=
  match l with
  | [] => nan
  | _ => fmul (foldr fadd (num 0) l) (num (/ INR (length l)))
  end.

(** The columns of a matrix with at least one row. *)
Definition columns (m : tensor2) : tensor2 :=
  match m with
  | [] => []
  | r :: _ => (fun j => (fun row => nth j row 0) <$> m) <$> seq 0 (length r)
  end.

Definition broadcast2 {A B C} (f : A -> B -> C)
  : list (list A) -> list (list B) -> result (list (list C)) :=
  broadcast_m (broadcast f).

Definition broadcast3 {A B C} (f : A -> B -> C)
  : list (list (list A)) -> list (list (list B)) -> result (list (list (list C))) :=
  broadcast_m (broadcast2 f).

(** ** kl_divergence *)

(** The latent parameters the encoder returns: [(B, D)], or [(B, D, 1, 1)]
    from a convolutional encoder. *)
Inductive latent : Type :=
| Lat2 (t : tensor2)
| Lat4 (t : tensor4).

(** [t.size(0)] *)
Definition size0 (t : latent) : nat :=
  match t with
  | Lat2 t => length t
  | Lat4 t => length t
  end.

(** [t.view(t.size(0), t.size(1))] when [t] has four dimensions. *)
Definition view2 (t : latent) : result tensor2 :=
  match t with
  | Lat2 t => Ok t
  | Lat4 t =>
      map_m (map_m (fun block => match block with
                                 | [[x]] => Ok x
                                 | _ => Raise ShapeError
                                 end)) t
  end.


(** The textbook closed form of the KL divergence of the normal
    distribution of mean [mu] and variance [var] from the standard normal
    one; the reference [kl_divergence] is compared with. *)
Definition kl_normal (mu var : R) : R := (var + mu ^ 2 - 1 - ln var) / 2.

(** One entry of [klds]. *)
Definition kld (mu logvar : R) : R :=
  -0.5 * (1 + logvar - mu ^ 2 - exp logvar).

(** [klds.sum(1).sum(0)] on tensors of one shape. *)
Definition kl_sum (mu logvar : tensor2) : R :=
  sum (sum <$> zip_with (zip_with kld) mu logvar).

(** [kl_divergence(mu, logvar)]; an argument that is [None] has no
    [size]. *)
Definition kl_divergence (mu logvar : option latent)
  : result (list float * list float * list float) :=
  do mu <- match mu with Some t => Ok t | None => Raise AttributeError end;
  let batch_size := size0 mu in
  do _ <- assert (negb (batch_size =? 0)%nat);
  do mu <- view2 mu;
  do logvar <- match logvar with Some t => Ok t | None => Raise AttributeError end;
  do logvar <- view2 logvar;
  do klds <- broadcast2 kld mu logvar;
  let total_kld := [mean (sum <$> klds)] in
  let dimension_wise_kld := mean <$> columns klds in
  let mean_kld := [fmean (mean <$> klds)] in
  Ok (total_kld, dimension_wise_kld, mean_kld).

(** ** ACTPolicy *)

(** Images are [(B, K, C, H, W)]. *)
Abbreviation images := (list (list (list (list (list R))))).

Definition imagenet_mean : list R := [0.485; 0.456; 0.406].
Definition imagenet_std : list R := [0.229; 0.224; 0.225].

(** [transforms.Normalize(mean, std)(image)]: channel [c] becomes
    [(x - mean[c]) / std[c]]; there must be three channels. *)
Definition normalize (image : images) : result images :=
  map_m (map_m (fun channels : tensor3 =>
    if decide (length channels = 3%nat)
    then Ok (zip_with (fun (ms : R * R) (plane : tensor2) =>
               (fun row : list R => (fun x => (x - ms.1) / ms.2) <$> row) <$> plane)
             (zip imagenet_mean imagenet_std) channels)
    else Raise ShapeError)) image.

(** [F.l1_loss(input, target, reduction="none")] *)
Definition l1_loss (input target : tensor3) : result tensor3 :=
  broadcast3 (fun a b => Rabs (a - b)) input target.

(** [~is_pad.unsqueeze(-1)] *)
Definition not_pad (is_pad : mask) : list (list (list bool)) :=
  (fun row : list bool => (fun p => [negb p]) <$> row) <$> is_pad.

(** [(all_l1 * ~is_pad.unsqueeze(-1)).mean()] *)
Definition masked_mean (all_l1 : tensor3) (is_pad : mask) : result float :=
  do masked <- broadcast3 (fun l (keep : bool) => l * (if keep then 1 else 0))
                 all_l1 (not_pad is_pad);
  Ok (mean (concat (concat masked))).

(** *** The masked L1 loss in closed form

    On tensors of one shape: the absolute error of every element, each with
    the pad flag of its timestep; the errors of the timesteps that are not
    padded; their sum over the number of all elements, and, as the
    specification words the loss, their mean. *)
Definition abs_errors (actions a_hat : tensor3) : tensor3 :=
  zip_with (zip_with (zip_with (fun a b => Rabs (a - b)))) actions a_hat.

Definition tag_row (row : list R) (p : bool) : list (R * bool) :=
  (fun x => (x, p)) <$> row.

Definition entries (actions a_hat : tensor3) (is_pad : mask) : list (R * bool) :=
  concat (concat (zip_with (zip_with tag_row) (abs_errors actions a_hat) is_pad)).

(** The factor [~is_pad] contributes to an element. *)
Definition keep (p : bool) : R := if negb p then 1 else 0.

Definition unmasked (es : list (R * bool)) : list R :=
  fst <$> List.filter (fun e => negb e.2) es.

Definition l1_over_all (es : list (R * bool)) : float :=
  match es with
  | [] => nan
  | _ => num (sum (unmasked es) / INR (length es))
  end.

Definition l1_over_unmasked (es : list (R * bool)) : float :=
  mean (unmasked es).

(** [self.ent_weight if self.ent_weight else 0.01] *)
Definition ent_scale (ent_weight : option R) : R :=
  match ent_weight with
  | Some w => if Req_EM_T w 0 then 0.01 else w
  | None => 0.01
  end.

Record ACTPolicy : Type := {
  kl_weight : R;
  few_shot : option Z;
  ent_weight : option R
}.

Record loss_dict : Type := {
  l1 : float;
  l1_uninf : float;
  kl : float;
  loss : float
}.

(** What [__call__] returns: the losses in training, [a_hat] otherwise. *)
Inductive output : Type :=
| Losses (d : loss_dict)
| Actions (a_hat : tensor3).

Module ACTPolicy.

Section backbone.

(** The backbone [self.model] is an external collaborator: given its
    noise, the joint state, the normalised images, the optional
    [(actions, is_pad)] and the keyword arguments it returns
    [(a_hat, is_pad_hat, (mu, logvar))], or raises. *)
Variables (noise qpos : Type).
Variable model :
  noise -> qpos -> images -> option (tensor3 * mask) ->
  gmap string (option tensor2) ->
  result (tensor3 * tensor2 * (option latent * option latent)).
Variable num_queries : nat.

(** [eps 0] is the noise of the first run of the backbone and [eps 1]
    that of the second. *)
Definition __call__ (self : ACTPolicy) (eps : nat -> noise) (q : qpos)
    (image : images) (actions : option tensor3) (is_pad : option mask)
    (kwargs : gmap string tensor2) : result output :=
  do image <- normalize image;
  match actions with
  | Some actions =>
      let actions := take num_queries <$> actions in
      do is_pad <- match is_pad with
                   | Some p => Ok (take num_queries <$> p)
                   | None => Raise TypeError
                   end;
      do '(a_hat, _, (mu, logvar)) <-
         model (eps 0%nat) q image (Some (actions, is_pad)) (Some <$> kwargs);
      do '(total_kld, _, _) <- kl_divergence mu logvar;
      do all_l1 <- l1_loss actions a_hat;
      do l1 <- masked_mean all_l1 is_pad;
      do l1_uninf <-
         (if negb (truthy (few_shot self)) then
            let env_ind := kwargs !! "env_ind"%string in
            do skill <- match kwargs !! "skill_ind"%string with
                        | Some t => Ok t
                        | None => Raise AttributeError
                        end;
            let skill_ind := (fun row : list R => (fun _ => 0) <$> row) <$> skill in
            do '(a_hat_uninf, _, _) <-
               model (eps 1%nat) q image (Some (actions, is_pad))
                 (<["skill_ind"%string := Some skill_ind]>
                    {["env_ind"%string := env_ind]});
            do all_l1_uninf <- l1_loss actions a_hat_uninf;
            do l1_uninf <- masked_mean all_l1_uninf is_pad;
            Ok (fmul (num (ent_scale (ent_weight self))) l1_uninf)
          else Ok (num 0));
      do kl <- index total_kld 0;
      Ok (Losses {| l1 := l1;
                    l1_uninf := l1_uninf;
                    kl := kl;
                    loss := fadd (fadd l1 l1_uninf)
                                 (fmul kl (num (kl_weight self))) |})
  | None =>
      do '(a_hat, _, _) <- model (eps 0%nat) q image None (Some <$> kwargs);
      Ok (Actions a_hat)
  end.

End backbone.

Arguments __call__ {noise qpos} model num_queries self eps q image actions
  is_pad kwargs.

End ACTPolicy.

(** Two lists of tagged errors that count the same number of elements and
    keep the same unpadded ones; [l1_over_all] cannot tell them apart. *)
Definition same_unmasked (es es' : list (R * bool)) : Prop :=
  length es = length es' /\ unmasked es = unmasked es'.

(** ** CNNMLPPolicy *)

(** [actions[:, 0]]: the first timestep of every chunk. *)
Definition first_step (actions : tensor3) : result tensor2 :=
  map_m (fun rows : tensor2 => index rows 0) actions.

(** [F.mse_loss(input, target)], with the default mean reduction. *)
Definition mse_loss (input target : tensor2) : result float :=
  do squares <- broadcast2 (fun a b => (a - b) ^ 2) input target;
  Ok (mean (concat squares)).

Module CNNMLPPolicy.

Record mse_dict : Type := {
  mse : float;
  loss : float
}.

Inductive mse_output : Type :=
| MseLosses (d : mse_dict)
| Prediction (a_hat : tensor2).

Section backbone.

(** The backbone takes the joint state, the normalised images and, in
    training, the target action. *)
Variables (noise qpos : Type).
Variable model : noise -> qpos -> images -> option tensor2 -> result tensor2.

Definition __call__ (eps : noise) (q : qpos) (image : images)
    (actions : option tensor3) (is_pad : option mask) : result mse_output :=
  do image <- normalize image;
  match actions with
  | Some actions =>
      do actions <- first_step actions;
      do a_hat <- model eps q image (Some actions);
      do mse <- mse_loss actions a_hat;
      Ok (MseLosses {| mse := mse; loss := mse |})
  | None =>
      do a_hat <- model eps q image None;
      Ok (Prediction a_hat)
  end.

End backbone.

Arguments __call__ {noise qpos} model eps q image actions is_pad.

End CNNMLPPolicy.

End Policy.

(* ===================================================================== *)
(** * Sample inputs *)
(* ===================================================================== *)

Module Fixtures.
Import Py TorchData.
Local Open Scope Q_scope.

(** A few-shot run on the box-opening task and a directory for it. *)
Definition few_shot_args : load_args :=
  {| arg_task_name := "sim_box_open";
     arg_required_data_keys := default_required_data_keys;
     arg_chunk_size := 100;
     arg_norm_bound := None;
     arg_train_split := 0.8;
     arg_add_task_ind := true;
     arg_few_shot := Some 2%Z |}.

Definition box_listing : list string :=
  ["d/demo_forward_01.pickle"; "d/demo_backward_01.pickle";
   "d/demo_forward_11.pickle"; "d/demo_forward_21.pickle";
   "d/demo_forward_02.pickle"]%string.

(** A three-step episode as the recorder writes it, with its position
    stream kept as a list or as an array, and a dataset over it. *)
Definition frame : tensor := T3 128 128 3 (fun _ _ _ => 255).

Definition episode (position_kind : container) : demonstration :=
  let cam := {| kind := PyList; items := [frame; frame; frame] |} in
  [("front_rgb", cam);
   ("front_mask", {| kind := PyList; items := [] |});
   ("left_shoulder_rgb", cam);
   ("right_shoulder_rgb", cam);
   ("wrist_rgb", cam);
   ("joint_positions",
    {| kind := position_kind;
       items := [T1 (replicate 7 1); T1 (replicate 7 (3 # 2)); T1 (replicate 7 5)] |});
   ("gripper_open", {| kind := PyList; items := [T0 1; T0 0; T0 1] |})]%string.

Definition sample_bounds : list (Q * Q) := replicate 7 (-2, 2).

Definition sample_dataset (path : string) (add_task_ind : bool)
  : ReverseTrajDataset :=
  ReverseTrajDataset.__init__ [path] default_required_data_keys 4 (Some sample_bounds)
    add_task_ind "box_open".

(** The same episode with its joint velocities recorded, and a dataset
    that asks for them. *)
Definition velocity_episode : demonstration :=
  episode PyList
  ++ [("joint_velocities"%string,
       {| kind := NdArray;
          items := [T1 (replicate 7 0); T1 (replicate 7 (1 # 2));
                    T1 (replicate 7 1)] |})].

Definition velocity_dataset (path : string) : ReverseTrajDataset :=
  ReverseTrajDataset.__init__ [path]
    (default_required_data_keys ++ ["joint_velocities"%string]) 4 None true
    "box_open".

(** A multi-task run on every box file, and a directory whose own name
    fits the pattern of the box-opening task. *)
Definition box_args : load_args :=
  {| arg_task_name := "box";
     arg_required_data_keys := default_required_data_keys;
     arg_chunk_size := 100;
     arg_norm_bound := None;
     arg_train_split := 0.8;
     arg_add_task_ind := true;
     arg_few_shot := None |}.

Definition forward_directory : string := "runs/forward_01_pickle/".

End Fixtures.

Module PolicyFixtures.
Import Py Policy.
Local Open Scope R_scope.

(** A stand-in for the backbone, for a batch of one: its prediction is the
    noise value at every position and its latent parameters are zero. *)
Definition stub_model (n : nat) (q : unit) (image : images)
    (training : option (tensor3 * mask)) (kwargs : gmap string (option tensor2))
  : result (tensor3 * tensor2 * (option latent * option latent)) :=
  match training with
  | Some (actions, _) =>
      Ok ((fun rows : tensor2 =>
             (fun row : list R => (fun _ => INR n) <$> row) <$> rows) <$> actions,
          [], (Some (Lat2 [[0]]), Some (Lat2 [[0]])))
  | None => Ok ([], [], (None, None))
  end.

(** One episode of two timesteps, the second one padded, with a single
    action dimension; one camera with a single pixel. *)
Definition sample_actions : tensor3 := [[[1]; [0]]].
Definition sample_pad : mask := [[false; true]].
Definition sample_image : images := [[[[[0]]; [[0]]; [[0]]]]].
Definition normalized_sample_image : images :=
  [[[[[(0 - 0.485) / 0.229]]; [[(0 - 0.456) / 0.224]]; [[(0 - 0.406) / 0.225]]]]].

Definition few_shot_policy : ACTPolicy :=
  {| kl_weight := 10; few_shot := Some 5%Z; ent_weight := None |}.
Definition multi_task_policy : ACTPolicy :=
  {| kl_weight := 10; few_shot := None; ent_weight := None |}.

(** A stand-in for the CNN-MLP backbone that predicts zeros. *)
Definition zero_model (n : nat) (q : unit) (image : images)
    (actions : option tensor2) : result tensor2 :=
  Ok [[0]].

End PolicyFixtures.

(* ===================================================================== *)
(** * Properties *)
(* ===================================================================== *)

Module NpFacts.
Import Py Np.

(** A successful [bind] had a successful first step. *)
Lemma bind_inv {A B} (m : result A) (f : A -> result B) b :
  bind m f = Ok b -> exists a, m = Ok a /\ f a = Ok b.
Proof. destruct m as [a|e]; simpl; [eauto|done]. Qed.

Lemma broadcast_same_length {A B C} (f : A -> B -> C) x y :
  length x = length y -> broadcast f x y = Ok (zip_with f x y).
Proof. intros H. unfold broadcast. rewrite decide_True; auto. Qed.

Lemma map_m_ok {A B} (f : A -> result B) (g : A -> B) xs :
  Forall (fun x => f x = Ok (g x)) xs -> map_m f xs = Ok (g <$> xs).
Proof.
  induction 1 as [|x xs Hx _ IH]; simpl; [done|].
  by rewrite Hx, IH.
Qed.

Lemma map_m_length {A B} (f : A -> result B) xs ys :
  map_m f xs = Ok ys -> length ys = length xs.
Proof.
  revert ys. induction xs as [|x xs IH]; simpl; intros ys E.
  - by injection E as <-.
  - destruct (f x); [|done]. simpl in E.
    destruct (map_m f xs) as [zs|]; [|done]. simpl in E.
    injection E as <-. simpl. f_equal. by apply IH.
Qed.

Lemma broadcast_m_zip {A B C} (f : A -> B -> result C) (g : A -> B -> C) x y :
  Forall2 (fun a b => f a b = Ok (g a b)) x y ->
  broadcast_m f x y = Ok (zip_with g x y).
Proof.
  intros H. unfold broadcast_m.
  rewrite broadcast_same_length by (eapply Forall2_length; eauto). simpl.
  induction H as [|a b x y Hab _ IH]; simpl; [done|].
  by rewrite Hab, IH.
Qed.

End NpFacts.

Module PyFacts.
Import Py.

Lemma slice_prefix {A} (l : list A) (i : Z) :
  slice l None (Some i) = take (Z.to_nat (slice_bound (Z.of_nat (length l)) i)) l.
Proof.
  unfold slice. simpl. rewrite Z.sub_0_r. by rewrite drop_0.
Qed.

Lemma slice_bound_range len i : (0 <= len -> 0 <= slice_bound len i <= len)%Z.
Proof. unfold slice_bound. destruct (i <? 0)%Z eqn:E; lia. Qed.

Lemma slice_suffix {A} (l : list A) (i : Z) :
  slice l (Some i) None = drop (Z.to_nat (slice_bound (Z.of_nat (length l)) i)) l.
Proof.
  unfold slice. simpl. apply take_ge. rewrite length_drop.
  pose proof (slice_bound_range (Z.of_nat (length l)) i). lia.
Qed.

Lemma slice_from {A} (l : list A) (i j : Z) :
  exists n, slice l (Some i) (Some j)
            = take n (drop (Z.to_nat (slice_bound (Z.of_nat (length l)) i)) l).
Proof. unfold slice. simpl. eauto. Qed.

Lemma slice_prefix_nonneg {A} (l : list A) (k : Z) :
  (0 <= k)%Z -> slice l None (Some k) = take (Z.to_nat k `min` length l) l.
Proof.
  intros Hk. rewrite slice_prefix. unfold slice_bound.
  destruct (k <? 0)%Z eqn:E; [lia|]. f_equal. lia.
Qed.

Lemma slice_window_nonneg {A} (l : list A) (k n : Z) :
  (0 <= k)%Z -> (0 <= n)%Z ->
  slice l (Some k) (Some (k + n)%Z) = take (Z.to_nat n) (drop (Z.to_nat k) l).
Proof.
  intros Hk Hn. unfold slice. simpl. unfold slice_bound.
  destruct (k <? 0)%Z eqn:E; [lia|]. destruct (k + n <? 0)%Z eqn:E'; [lia|].
  destruct (decide (Z.to_nat k <= length l)) as [Hle|Hgt].
  - replace (Z.to_nat (Z.min k (Z.of_nat (length l)))) with (Z.to_nat k) by lia.
    apply list_eq. intros i. rewrite !lookup_take, !lookup_drop.
    repeat case_decide; try done; try lia.
    + symmetry. apply lookup_ge_None. lia.
  - rewrite !drop_ge by lia. by rewrite !take_nil.
Qed.

End PyFacts.

(** ** ConfigMinMaxNormalization *)

Module NormalizerFacts.
Import Py Np TorchData NpFacts.
Local Open Scope Q_scope.

Lemma transform_zip bounds X :
  length X = length bounds ->
  transform (ConfigMinMaxNormalization.__init__ bounds) X
  = Ok (zip_with (fun x b => scale b x) X bounds).
Proof.
  intros HL. unfold transform, ConfigMinMaxNormalization.__init__; simpl.
  rewrite !broadcast_same_length by (rewrite ?length_fmap; auto). simpl.
  rewrite broadcast_same_length.
  2:{ rewrite !length_zip_with, !length_fmap. lia. }
  simpl. f_equal.
  revert bounds HL.
  induction X as [|x X IH]; intros [|[lo hi] bounds] HL; simpl in *; try done.
  f_equal. apply IH. lia.
Qed.

Lemma inverse_transform_zip bounds Y :
  length Y = length bounds ->
  inverse_transform (ConfigMinMaxNormalization.__init__ bounds) Y
  = Ok (zip_with (fun y b => unscale b y) Y bounds).
Proof.
  intros HL. unfold inverse_transform, ConfigMinMaxNormalization.__init__; simpl.
  rewrite broadcast_same_length by (rewrite ?length_fmap; auto). simpl.
  rewrite broadcast_same_length.
  2:{ rewrite !length_zip_with, !length_fmap. lia. }
  simpl. rewrite broadcast_same_length.
  2:{ rewrite !length_zip_with, !length_fmap. lia. }
  f_equal. revert bounds HL.
  induction Y as [|y Y IH]; intros [|[lo hi] bounds] HL; simpl in *; try done.
  f_equal. apply IH. lia.
Qed.

Lemma unscale_scale b x : b.1 < b.2 -> unscale b (scale b x) == x.
Proof.
  intros H. unfold unscale, scale. field. intros E.
  assert (b.2 == b.1) as E' by (rewrite <- (Qplus_0_l b.1), <- E; ring).
  rewrite E' in H. apply (Qlt_irrefl _ H).
Qed.

(** C9. For bounds with [min < max] in every dimension and [x] with every
    coordinate in [[min, max]], [transform] and then [inverse_transform]
    both return, and the result equals [x] coordinate by coordinate (as
    rationals). *)
Theorem inverse_transform_transform (bounds : list (Q * Q)) (x : list Q) :
  Forall (fun b => b.1 < b.2) bounds ->
  Forall2 (fun xi b => b.1 <= xi <= b.2) x bounds ->
  exists y z,
    transform (ConfigMinMaxNormalization.__init__ bounds) x = Ok y /\
    inverse_transform (ConfigMinMaxNormalization.__init__ bounds) y = Ok z /\
    Forall2 Qeq z x.
Proof.
  intros Hb Hx.
  pose proof (Forall2_length _ _ _ Hx) as HL.
  eexists _, _. split; [apply transform_zip, HL|].
  split; [apply inverse_transform_zip; rewrite length_zip_with; lia|].
  clear HL. induction Hx as [|xi b x bounds _ _ IH]; simpl; constructor.
  - apply unscale_scale. by inversion Hb.
  - apply IH. by inversion Hb.
Qed.

Lemma inverse_transform_transform_witness :
  exists y z,
    transform (ConfigMinMaxNormalization.__init__ [(-2, 2); (0, 3)]) [1; 3] = Ok y /\
    inverse_transform (ConfigMinMaxNormalization.__init__ [(-2, 2); (0, 3)]) y = Ok z /\
    Forall2 Qeq z [1; 3].
Proof.
  apply (inverse_transform_transform [(-2, 2); (0, 3)] [1; 3]).
  - repeat constructor.
  - repeat constructor; simpl; unfold Qle; simpl; lia.
Defined.

End NormalizerFacts.

(** ** kl_divergence *)

Module KlFacts.
Import Py Np Policy NpFacts.
Local Open Scope R_scope.
#[local] Arguments INR : simpl never.

Lemma broadcast2_zip {A B C} (f : A -> B -> C) x y :
  shape2_eq x y -> broadcast2 f x y = Ok (zip_with (zip_with f) x y).
Proof.
  intros H. apply broadcast_m_zip.
  eapply Forall2_impl; [exact H|]. intros r s E. by apply broadcast_same_length.
Qed.

Lemma broadcast3_zip {A B C} (f : A -> B -> C) x y :
  shape3_eq x y -> broadcast3 f x y = Ok (zip_with (zip_with (zip_with f)) x y).
Proof.
  intros H. apply broadcast_m_zip.
  eapply Forall2_impl; [exact H|]. intros r s E. by apply broadcast2_zip.
Qed.

Lemma kld_closed_form mu logvar : kld mu logvar = kl_normal mu (exp logvar).
Proof. unfold kld, kl_normal. rewrite ln_exp. lra. Qed.

Lemma kld_lower mu logvar : mu ^ 2 / 2 <= kld mu logvar.
Proof. unfold kld. pose proof (exp_ineq1_le logvar). lra. Qed.

Lemma kld_nonneg mu logvar : 0 <= kld mu logvar.
Proof. pose proof (kld_lower mu logvar). pose proof (pow2_ge_0 mu). lra. Qed.

Lemma view2_length t m : view2 t = Ok m -> length m = size0 t.
Proof.
  destruct t as [t|t]; simpl; intros E.
  - by injection E as <-.
  - by apply map_m_length in E.
Qed.

Lemma mean_cons x l : mean (x :: l) = num (sum (x :: l) / INR (length (x :: l))).
Proof. reflexivity. Qed.

Lemma kl_divergence_views (mu logvar : latent) (m l : tensor2) :
  size0 mu <> 0%nat -> view2 mu = Ok m -> view2 logvar = Ok l -> shape2_eq m l ->
  exists dims avg,
    kl_divergence (Some mu) (Some logvar)
    = Ok ([num (kl_sum m l / INR (size0 mu))], dims, avg).
Proof.
  intros Hne Hm Hl Hs. unfold kl_divergence. cbn [bind].
  destruct (size0 mu =? 0)%nat eqn:E0; [apply Nat.eqb_eq in E0; done|].
  cbn [negb assert bind]. rewrite Hm, Hl. cbn [bind].
  rewrite (broadcast2_zip kld _ _ Hs). cbn [bind].
  pose proof (view2_length _ _ Hm) as HL. rewrite <- HL.
  destruct Hs as [|r s m l Hr Hs]; [simpl in HL; lia|].
  cbn [zip_with fmap list_fmap]. rewrite mean_cons.
  eexists _, _. do 5 f_equal.
  cbn [length]. rewrite length_fmap, length_zip_with.
  apply Forall2_length in Hs. rewrite <- Hs, Nat.min_id. reflexivity.
Qed.

Lemma kl_divergence_total (mu logvar : tensor2) :
  mu <> [] -> shape2_eq mu logvar ->
  exists dims avg,
    kl_divergence (Some (Lat2 mu)) (Some (Lat2 logvar))
    = Ok ([num (kl_sum mu logvar / INR (length mu))], dims, avg).
Proof.
  intros Hne Hs.
  apply (kl_divergence_views (Lat2 mu) (Lat2 logvar) mu logvar); try done.
  simpl. by destruct mu.
Qed.

Lemma sum_cons x l : sum (x :: l) = x + sum l.
Proof. reflexivity. Qed.

Lemma sum_nonneg l : Forall (fun x => 0 <= x) l -> 0 <= sum l.
Proof. induction 1; simpl; lra. Qed.

Lemma sum_row_nonneg (r s : list R) : 0 <= sum (zip_with kld r s).
Proof.
  apply sum_nonneg. revert s.
  induction r as [|a r IH]; intros [|b s]; simpl; constructor; auto.
  apply kld_nonneg.
Qed.

Lemma sum_row_lower (r s : list R) x :
  length r = length s -> x ∈ r -> x ^ 2 / 2 <= sum (zip_with kld r s).
Proof.
  revert s. induction r as [|a r IH]; intros [|b s] HL Hx; try done.
  - by apply elem_of_nil in Hx.
  - cbn [zip_with]. rewrite sum_cons. simpl in HL.
    apply elem_of_cons in Hx as [->|Hx].
    + pose proof (kld_lower a b). pose proof (sum_row_nonneg r s). lra.
    + pose proof (kld_nonneg a b). assert (length r = length s) as HL' by lia.
      pose proof (IH s HL' Hx). lra.
Qed.

Lemma kl_sum_lower (mu logvar : tensor2) row x :
  shape2_eq mu logvar -> row ∈ mu -> x ∈ row -> x ^ 2 / 2 <= kl_sum mu logvar.
Proof.
  intros Hs. unfold kl_sum. induction Hs as [|r s mu logvar Hr _ IH]; intros Hrow Hx.
  - by apply elem_of_nil in Hrow.
  - cbn [zip_with fmap list_fmap]. rewrite sum_cons.
    apply elem_of_cons in Hrow as [->|Hrow].
    + pose proof (sum_row_lower r s x Hr Hx).
      assert (0 <= sum (sum <$> zip_with (zip_with kld) mu logvar)).
      { apply sum_nonneg. apply Forall_fmap. apply Forall_forall. intros l Hl.
        apply elem_of_lookup_zip_with in Hl as (i & a & b & -> & _ & _).
        simpl. apply sum_row_nonneg. }
      lra.
    + pose proof (sum_row_nonneg r s). specialize (IH Hrow Hx). lra.
Qed.

Lemma kl_sum_zeros (mu logvar : tensor2) :
  Forall (Forall (fun x => x = 0)) mu -> Forall (Forall (fun x => x = 0)) logvar ->
  kl_sum mu logvar = 0.
Proof.
  intros Hm. revert logvar. unfold kl_sum.
  induction Hm as [|r mu Hr _ IH]; intros logvar Hl; [done|].
  destruct Hl as [|s logvar Hs Hl]; [done|].
  cbn [zip_with fmap list_fmap]. rewrite sum_cons, (IH _ Hl).
  assert (sum (zip_with kld r s) = 0) as ->; [|lra].
  clear -Hr Hs. revert s Hs. induction Hr as [|a r -> _ IH]; intros s Hs; [done|].
  destruct Hs as [|b s -> Hs]; [done|].
  cbn [zip_with]. rewrite sum_cons, (IH _ Hs).
  unfold kld. rewrite exp_0. lra.
Qed.

(** C6. [kl_divergence] returns as total the closed-form KL divergence
    from the standard normal, summed over the latent dimensions and
    averaged over the batch; the total is [0] for [mu = 0], [logvar = 0];
    and for a fixed [logvar] it exceeds any bound once one coordinate of
    [mu] is far enough from [0]. *)
Theorem kl_divergence_closed_form :
  (forall mu logvar : tensor2,
     mu <> [] -> shape2_eq mu logvar ->
     exists dims avg,
       kl_divergence (Some (Lat2 mu)) (Some (Lat2 logvar))
       = Ok ([num (sum (sum <$> zip_with
                          (zip_with (fun m l => kl_normal m (exp l))) mu logvar)
                   / INR (length mu))], dims, avg)) /\
  (forall mu logvar : tensor2,
     mu <> [] -> shape2_eq mu logvar ->
     Forall (Forall (fun x => x = 0)) mu ->
     Forall (Forall (fun x => x = 0)) logvar ->
     exists dims avg,
       kl_divergence (Some (Lat2 mu)) (Some (Lat2 logvar))
       = Ok ([num 0], dims, avg)) /\
  (forall (logvar : tensor2) (bound : R),
     exists far : R, forall (mu : tensor2) row x,
       shape2_eq mu logvar -> row ∈ mu -> x ∈ row -> far <= Rabs x ->
       exists total dims avg,
         kl_divergence (Some (Lat2 mu)) (Some (Lat2 logvar))
         = Ok ([num total], dims, avg) /\
         bound <= total).
Proof.
  split; [|split].
  - intros mu logvar Hne Hs.
    destruct (kl_divergence_total mu logvar Hne Hs) as (dims & avg & E).
    exists dims, avg. rewrite E. do 5 f_equal. unfold kl_sum. do 2 f_equal.
    clear. revert logvar.
    induction mu as [|r mu IH]; intros [|s logvar]; simpl; try done.
    f_equal; [|apply IH].
    clear. revert s. induction r as [|a r IH]; intros [|b s]; simpl; try done.
    f_equal; [apply kld_closed_form|apply IH].
  - intros mu logvar Hne Hs Hm Hl.
    destruct (kl_divergence_total mu logvar Hne Hs) as (dims & avg & E).
    exists dims, avg. rewrite E, kl_sum_zeros by done.
    unfold Rdiv. by rewrite Rmult_0_l.
  - intros logvar bound. exists (2 * INR (length logvar) * Rabs bound + 1).
    intros mu row x Hs Hrow Hx Hfar.
    assert (mu <> []) as Hne by (intros ->; by apply elem_of_nil in Hrow).
    destruct (kl_divergence_total mu logvar Hne Hs) as (dims & avg & E).
    eexists _, dims, avg. split; [exact E|].
    pose proof (kl_sum_lower mu logvar row x Hs Hrow Hx) as Hlow.
    rewrite (Forall2_length _ _ _ Hs).
    assert (0 < INR (length logvar)) as HB.
    { apply lt_0_INR. rewrite <- (Forall2_length _ _ _ Hs).
      destruct mu; [done|simpl; lia]. }
    apply Rle_trans with (Rabs bound); [apply Rle_abs|].
    apply Rmult_le_reg_r with (INR (length logvar)); [done|].
    unfold Rdiv. rewrite Rmult_assoc, Rinv_l by lra. rewrite Rmult_1_r.
    pose proof (Rabs_pos bound) as Hb.
    assert (0 <= INR (length logvar) * Rabs bound) as Hprod by nra.
    assert (Rabs x <= x ^ 2) as Hsq.
    { rewrite <- (pow2_abs x). pose proof (Rabs_pos x). nra. }
    nra.
Qed.

Lemma kl_divergence_closed_form_witness :
  exists dims avg,
    kl_divergence (Some (Lat2 [[0; 0]; [0; 0]])) (Some (Lat2 [[0; 0]; [0; 0]]))
    = Ok ([num 0], dims, avg).
Proof.
  apply (proj1 (proj2 kl_divergence_closed_form)).
  - done.
  - repeat constructor.
  - repeat constructor.
  - repeat constructor.
Defined.

(** C10. A batch of size zero fails the assertion of [kl_divergence]
    (nothing, hence no [nan], is returned); for a batch that is not empty
    and well-shaped latent parameters it returns, with a total that is a
    number. *)
Theorem kl_divergence_batch_assert :
  (forall (mu : latent) (logvar : option latent),
     size0 mu = 0%nat ->
     kl_divergence (Some mu) logvar = Raise AssertionError) /\
  (forall (mu logvar : latent) (m l : tensor2),
     size0 mu <> 0%nat ->
     view2 mu = Ok m -> view2 logvar = Ok l -> shape2_eq m l ->
     exists total dims avg,
       kl_divergence (Some mu) (Some logvar) = Ok ([num total], dims, avg)).
Proof.
  split.
  - intros mu logvar E. unfold kl_divergence. cbn [bind]. by rewrite E.
  - intros mu logvar m l Hne Hm Hl Hs.
    destruct (kl_divergence_views mu logvar m l Hne Hm Hl Hs) as (dims & avg & E).
    eauto.
Qed.

Lemma kl_divergence_batch_assert_witness :
  kl_divergence (Some (Lat2 [])) (Some (Lat2 [])) = Raise AssertionError /\
  exists total dims avg,
    kl_divergence (Some (Lat4 [[[[1]]; [[2]]]])) (Some (Lat2 [[0; -1]]))
    = Ok ([num total], dims, avg).
Proof.
  split.
  - apply (proj1 kl_divergence_batch_assert). reflexivity.
  - apply (proj2 kl_divergence_batch_assert _ _ [[1; 2]] [[0; -1]]).
    + simpl. lia.
    + reflexivity.
    + reflexivity.
    + repeat constructor.
Defined.

End KlFacts.

(** ** load_data *)

Module LoadDataFacts.
Import Py Np TorchData Fixtures NpFacts PyFacts.

Section shuffled.

(** [random.shuffle] rearranges its list. *)
Variable shuffle : list string -> list string.
Hypothesis shuffle_perm : forall l, shuffle l ≡ₚ l.

Lemma load_data_split listing a pattern :
  task_filter_map (arg_few_shot a) !! strip_sim (arg_task_name a) = Some pattern ->
  exists train test,
    load_data shuffle listing a = Ok (train, test) /\
    (file_list train, file_list test)
    = split_files (arg_few_shot a) (arg_train_split a)
        (shuffle (List.filter (Re.search pattern) listing)).
Proof.
  intros Hp. unfold load_data, map_get. rewrite Hp. cbn [bind].
  unfold filter_files.
  destruct (split_files _ _ _) as [tr te] eqn:E.
  eexists _, _. split; [reflexivity|]. reflexivity.
Qed.

(** C7. With a few-shot count [k > 0], the train list is the first
    [min(k, len(matched))] files of the shuffled matched list and the
    validation list the next ten, or as many as are left. *)
Theorem few_shot_sizing listing a pattern (k : Z) :
  arg_few_shot a = Some k -> (0 < k)%Z ->
  task_filter_map (arg_few_shot a) !! strip_sim (arg_task_name a) = Some pattern ->
  let matched := shuffle (List.filter (Re.search pattern) listing) in
  exists train test,
    load_data shuffle listing a = Ok (train, test) /\
    file_list train = take (Z.to_nat k `min` length matched) matched /\
    length (file_list train) = Z.to_nat k `min` length matched /\
    file_list test = take 10 (drop (Z.to_nat k) matched).
Proof.
  intros Hk Hpos Hp matched.
  destruct (load_data_split listing a pattern Hp) as (train & test & E & Hsplit).
  exists train, test. split; [exact E|].
  rewrite Hk in Hsplit. unfold split_files, truthy in Hsplit.
  destruct (k =? 0)%Z eqn:E0; [lia|]. cbn [negb fmap option_fmap option_map] in Hsplit.
  injection Hsplit as -> ->. fold matched.
  rewrite slice_prefix_nonneg by lia.
  rewrite (slice_window_nonneg matched k 10) by lia.
  split; [done|]. split; [|done].
  rewrite length_take. lia.
Qed.

(** C8. For a directory listing without repetition, the train and
    validation lists are disjoint, and together with the files a few-shot
    split leaves out they are a rearrangement of the files of the listing
    that match the task's pattern; nothing is left out without
    few-shot. *)
Theorem split_partition listing a pattern :
  NoDup listing ->
  task_filter_map (arg_few_shot a) !! strip_sim (arg_task_name a) = Some pattern ->
  exists train test rest,
    load_data shuffle listing a = Ok (train, test) /\
    file_list train ## file_list test /\
    file_list train ++ file_list test ++ rest
      ≡ₚ List.filter (Re.search pattern) listing /\
    (truthy (arg_few_shot a) = false -> rest = []).
Proof using shuffle_perm.
  intros Hnd Hp.
  destruct (load_data_split listing a pattern Hp) as (train & test & E & Hsplit).
  set (matched := shuffle (List.filter (Re.search pattern) listing)) in *.
  assert (exists rest, file_list train ++ file_list test ++ rest = matched /\
                       (truthy (arg_few_shot a) = false -> rest = []))
    as (rest & Hcat & Hrest).
  { unfold split_files in Hsplit. destruct (truthy (arg_few_shot a)) eqn:Ht.
    - destruct (arg_few_shot a) as [k|]; [|done].
      cbn [fmap option_fmap option_map] in Hsplit.
      destruct (slice_from matched k (k + 10)) as [n Hn].
      rewrite Hn, slice_prefix in Hsplit. injection Hsplit as -> ->.
      exists (drop n (drop (Z.to_nat (slice_bound (Z.of_nat (length matched)) k))
                        matched)).
      split; [|done]. by rewrite !take_drop.
    - rewrite slice_prefix, slice_suffix in Hsplit. injection Hsplit as -> ->.
      exists []. split; [|done]. by rewrite app_nil_r, take_drop. }
  exists train, test, rest. split; [exact E|].
  assert (NoDup matched) as Hnd'.
  { unfold matched. rewrite shuffle_perm.
    apply NoDup_ListNoDup, List.NoDup_filter. by apply NoDup_ListNoDup. }
  split; [|split; [|exact Hrest]].
  - rewrite <- Hcat in Hnd'. rewrite app_assoc in Hnd'.
    apply NoDup_app in Hnd' as [Hnd' _]. apply NoDup_app in Hnd' as (_ & Hd & _).
    intros x Hx. by apply Hd.
  - rewrite Hcat. apply shuffle_perm.
Qed.

End shuffled.

Lemma few_shot_sizing_witness :
  let matched :=
    reverse (List.filter (Re.search (skill_pattern "forward_" "1")) box_listing) in
  exists train test,
    load_data reverse box_listing few_shot_args = Ok (train, test) /\
    file_list train = take (Z.to_nat 2 `min` length matched) matched /\
    length (file_list train) = Z.to_nat 2 `min` length matched /\
    file_list test = take 10 (drop (Z.to_nat 2) matched).
Proof.
  apply (few_shot_sizing reverse box_listing few_shot_args
           (skill_pattern "forward_" "1") 2).
  - reflexivity.
  - lia.
  - reflexivity.
Defined.

Lemma split_partition_witness :
  exists train test rest,
    load_data reverse box_listing few_shot_args = Ok (train, test) /\
    file_list train ## file_list test /\
    file_list train ++ file_list test ++ rest
      ≡ₚ List.filter (Re.search (skill_pattern "forward_" "1")) box_listing /\
    (truthy (arg_few_shot few_shot_args) = false -> rest = []).
Proof.
  apply (split_partition reverse).
  - intros l. apply reverse_Permutation.
  - refine (bool_decide_unpack _ _). vm_compute. exact I.
  - reflexivity.
Defined.

End LoadDataFacts.

(** ** The normalisation loop of __getitem__ *)

Module NormalizeChunkFacts.
Import Py Np TorchData Fixtures NpFacts PyFacts NormalizerFacts.
Local Open Scope Q_scope.

Lemma validate_bounds_zip bounds js :
  length js = length bounds ->
  validate_bounds (ConfigMinMaxNormalization.__init__ bounds) js
  = Ok (in_bounds bounds js).
Proof.
  intros HL.
  unfold validate_bounds, ConfigMinMaxNormalization.__init__, in_bounds; simpl.
  rewrite !broadcast_same_length by (rewrite ?length_fmap; auto). simpl.
  by destruct (forallb _ _).
Qed.

Lemma clamp_zip bounds js :
  length js = length bounds ->
  clamp (ConfigMinMaxNormalization.__init__ bounds) js = Ok (clamp_row bounds js).
Proof.
  intros HL. unfold clamp, ConfigMinMaxNormalization.__init__, clamp_row; simpl.
  rewrite !broadcast_same_length by (rewrite ?length_fmap; auto). simpl.
  rewrite broadcast_same_length.
  2:{ rewrite !length_zip_with, !length_fmap. lia. }
  simpl. rewrite broadcast_same_length.
  2:{ rewrite !length_zip_with, !length_fmap. lia. }
  f_equal. revert bounds HL.
  induction js as [|x js IH]; intros [|[lo hi] bounds] HL; simpl in *; try done.
  f_equal. apply IH. lia.
Qed.

Lemma length_scale_row bounds js :
  length js = length bounds -> length (scale_row bounds js) = length bounds.
Proof. intros H. unfold scale_row. rewrite length_zip_with. lia. Qed.

Lemma length_clamp_row bounds js :
  length js = length bounds -> length (clamp_row bounds js) = length bounds.
Proof. intros H. unfold clamp_row. rewrite length_zip_with. lia. Qed.

Lemma expand_same {A} n (l : list A) : length l = n -> expand n l = Ok l.
Proof. intros H. unfold expand. by rewrite decide_True. Qed.

(** One iteration on a chunk whose rows have one coordinate per bound. *)
Lemma normalize_step_row c bounds chunk i js :
  chunk !! i = Some js -> length js = length bounds ->
  normalize_step c (ConfigMinMaxNormalization.__init__ bounds) chunk i
  = Ok (<[i := stored_row c bounds js]> chunk).
Proof.
  intros Hi HL. unfold normalize_step. rewrite Hi.
  rewrite validate_bounds_zip by done. cbn [bind].
  pose proof (lookup_lt_Some _ _ _ Hi) as Hlt.
  unfold stored_row.
  destruct c; cbn [store_row reread].
  - destruct (in_bounds bounds js).
    + rewrite transform_zip by done. cbn [bind].
      rewrite clamp_zip by done. cbn [bind]. by rewrite list_insert_insert_eq.
    + cbn [bind]. by rewrite clamp_zip.
  - destruct (in_bounds bounds js).
    + rewrite transform_zip by done. cbn [bind]. rewrite Hi.
      fold (scale_row bounds js).
      rewrite expand_same by (rewrite length_scale_row; done).
      cbv beta iota. cbn [bind].
      rewrite !list_lookup_insert_eq by done. cbn [default from_option id].
      rewrite clamp_zip by (by apply length_scale_row). cbn [bind].
      rewrite expand_same.
      2:{ rewrite length_clamp_row by (by apply length_scale_row).
          by rewrite length_scale_row. }
      by rewrite list_insert_insert_eq.
    + cbn [bind]. rewrite Hi. cbn [default from_option id].
      rewrite clamp_zip by done. cbn [bind].
      by rewrite expand_same by (rewrite length_clamp_row; done).
Qed.

Lemma normalize_loop c bounds done todo :
  Forall (fun js => length js = length bounds) todo ->
  for_each (normalize_step c (ConfigMinMaxNormalization.__init__ bounds))
    (seq (length done) (length todo)) (done ++ todo)
  = Ok (done ++ (stored_row c bounds <$> todo)).
Proof.
  intros H. revert done. induction H as [|js todo Hjs _ IH]; intros done.
  - done.
  - cbn [length seq for_each].
    rewrite (normalize_step_row c bounds _ _ js); [|by apply list_lookup_middle|done].
    cbn [bind]. 
    replace (<[length done := stored_row c bounds js]> (done ++ js :: todo))
      with ((done ++ [stored_row c bounds js]) ++ todo).
    2:{ rewrite <- app_assoc. simpl. 
        rewrite insert_app_r_alt by lia. by rewrite Nat.sub_diag. }
    replace (S (length done)) with (length (done ++ [stored_row c bounds js])).
    2:{ rewrite length_app. simpl. lia. }
    rewrite IH. by rewrite <- app_assoc.
Qed.

Theorem normalize_chunk_stored c bounds chunk_data :
  Forall (fun js => length js = length bounds) chunk_data ->
  normalize_chunk c (ConfigMinMaxNormalization.__init__ bounds) chunk_data
  = Ok (stored_row c bounds <$> chunk_data).
Proof. intros H. apply (normalize_loop c bounds [] chunk_data H). Qed.

End NormalizeChunkFacts.

(** ** The chunk built by __getitem__ *)

Module ChunkFacts.
Import Py Np TorchData Fixtures NpFacts PyFacts NormalizerFacts NormalizeChunkFacts.
Local Open Scope Q_scope.

Lemma forallb_Forall {A} (f : A -> bool) l :
  forallb f l = true <-> Forall (fun x => f x = true) l.
Proof.
  induction l as [|x l IH]; simpl.
  - split; [constructor|done].
  - rewrite andb_true_iff, IH, Forall_cons. done.
Qed.

(** *** Dictionaries *)

Lemma dict_get_elem_of {V} (d : list (string * V)) key v :
  dict_get d key = Ok v -> (key, v) ∈ d.
Proof.
  induction d as [|[k w] d IH]; simpl; [done|].
  destruct (String.eqb k key) eqn:E.
  - apply String.eqb_eq in E as ->. intros [= ->]. apply list_elem_of_here.
  - intros H. apply list_elem_of_further. by apply IH.
Qed.

Lemma dict_get_unique {V} (d : list (string * V)) key v :
  NoDup d.*1 -> (key, v) ∈ d -> dict_get d key = Ok v.
Proof.
  induction d as [|[k w] d IH]; simpl; intros Hnd Hin.
  - by apply elem_of_nil in Hin.
  - apply NoDup_cons in Hnd as [Hk Hnd].
    apply elem_of_cons in Hin as [[= -> ->]|Hin].
    + by rewrite String.eqb_refl.
    + destruct (String.eqb k key) eqn:E; [|by apply IH].
      apply String.eqb_eq in E as ->. exfalso. apply Hk.
      apply list_elem_of_fmap. by exists (key, v).
Qed.

Lemma valid_keys_spec demo key :
  key ∈ valid_keys demo <->
  exists st, (key, st) ∈ demo /\ (0 < length (items st))%nat.
Proof.
  unfold valid_keys. rewrite list_elem_of_fmap. split.
  - intros ([k st] & -> & Hin). apply list_elem_of_In, filter_In in Hin as [Hin Hlen].
    exists st. split; [by apply list_elem_of_In|]. simpl in Hlen. by apply Nat.ltb_lt.
  - intros (st & Hin & Hlen). exists (key, st). split; [done|].
    apply list_elem_of_In, filter_In. split; [by apply list_elem_of_In|].
    simpl. by apply Nat.ltb_lt.
Qed.

Lemma index_0 {A} (x : A) l : index (x :: l) 0 = Ok x.
Proof. reflexivity. Qed.

Lemma index_nat {A} (l : list A) (i : nat) x :
  l !! i = Some x -> index l (Z.of_nat i) = Ok x.
Proof.
  intros H. unfold index.
  destruct (Z.of_nat i <? 0)%Z eqn:E; [apply Z.ltb_lt in E; lia|]. rewrite E.
  by rewrite Nat2Z.id, H.
Qed.

(** The episode length of a demonstration whose non-empty streams have
    length [L], when some stream is not empty. *)
Lemma episode_length_fits demo L key st :
  NoDup demo.*1 ->
  Forall (fun kv => length (items kv.2) = 0 \/ length (items kv.2) = L)%nat demo ->
  (key, st) ∈ demo -> (0 < length (items st))%nat ->
  episode_length demo = Ok (Z.of_nat L).
Proof.
  intros Hnd Hlen Hin Hpos. unfold episode_length.
  assert (key ∈ valid_keys demo) as Hv by (apply valid_keys_spec; eauto).
  destruct (valid_keys demo) as [|key0 rest] eqn:E; [by apply elem_of_nil in Hv|].
  rewrite index_0. cbn [bind].
  assert (key0 ∈ valid_keys demo) as H0 by (rewrite E; apply list_elem_of_here).
  apply valid_keys_spec in H0 as (st0 & Hin0 & Hpos0).
  rewrite (dict_get_unique demo key0 st0) by done. cbn [bind].
  rewrite Forall_forall in Hlen. destruct (Hlen _ Hin0) as [H|H]; simpl in H; [lia|].
  by rewrite H.
Qed.

(** *** The sampled window *)

Lemma sample_start_range draw (L : nat) :
  0 <= draw -> draw < 1 ->
  (0 <= sample_start draw (Z.of_nat L))%Z /\
  ((0 < L)%nat -> (sample_start draw (Z.of_nat L) < Z.of_nat L)%Z).
Proof.
  intros H0 H1. unfold sample_start, int. destruct draw as [n d].
  unfold Qle, Qlt in *. simpl in *.
  rewrite Z.mul_1_r in H0. rewrite Z.mul_1_r, Z.mul_1_l in H1.
  rewrite Pos.mul_1_r.
  rewrite Z.quot_div_nonneg by lia. split.
  - apply Z.div_pos; lia.
  - intros HL. apply Z.div_lt_upper_bound; [lia|]. nia.
Qed.

Lemma slice_window {A} (l : list A) (s e : Z) :
  (0 <= s <= e)%Z ->
  slice l (Some s) (Some e) = take (Z.to_nat (e - s)) (drop (Z.to_nat s) l).
Proof.
  intros H. replace e with (s + (e - s))%Z at 1 by lia.
  apply slice_window_nonneg; lia.
Qed.

(** The mask [is_pad] has [m] leading [false] and [true] after. *)
Lemma pad_mask_eq (chunk_size : nat) (n : Z) :
  (0 <= n <= Z.of_nat chunk_size)%Z ->
  pad_mask chunk_size n
  = replicate (Z.to_nat n) false ++ replicate (chunk_size - Z.to_nat n) true.
Proof.
  intros H. unfold pad_mask. rewrite length_replicate.
  unfold slice_bound. destruct (n <? 0)%Z eqn:E; [apply Z.ltb_lt in E; lia|].
  rewrite Z.min_l by lia. rewrite drop_replicate, fmap_app, !fmap_replicate.
  reflexivity.
Qed.

Lemma rows_of_fits its :
  forallb is_row its = true -> rows_of its = Ok (row_of <$> its).
Proof.
  intros H. apply map_m_ok. apply forallb_Forall in H.
  eapply Forall_impl; [exact H|]. by intros [].
Qed.

Lemma normalizer_init_zip nz :
  length (_min nz) = length (_max nz) ->
  nz = ConfigMinMaxNormalization.__init__ (zip (_min nz) (_max nz)).
Proof.
  intros H. destruct nz as [lo hi].
  unfold ConfigMinMaxNormalization.__init__. simpl in *.
  by rewrite fst_zip, snd_zip by lia.
Qed.

(** The normalisation step keeps the number of rows and their width. *)
Lemma normalized_rows (nzo : option ConfigMinMaxNormalization) c
    (rows : list (list Q)) :
  normalizer_fits nzo = true ->
  Forall (fun r => length r = CONFIG_DIM) rows ->
  exists rows',
    match nzo with
    | Some nz => normalize_chunk c nz rows
    | None => Ok rows
    end = Ok rows' /\
    length rows' = length rows /\
    Forall (fun r => length r = CONFIG_DIM) rows'.
Proof.
  intros Hfit Hw. destruct nzo as [nz|]; [|by exists rows].
  simpl in Hfit. apply andb_true_iff in Hfit as [Hlo Hhi].
  apply bool_decide_eq_true in Hlo, Hhi.
  rewrite (normalizer_init_zip nz) by congruence.
  set (bounds := zip (_min nz) (_max nz)).
  assert (length bounds = CONFIG_DIM) as Hb.
  { unfold bounds. rewrite length_zip. lia. }
  rewrite normalize_chunk_stored.
  2:{ eapply Forall_impl; [exact Hw|]. simpl. congruence. }
  eexists. split; [reflexivity|]. split; [by rewrite length_fmap|].
  apply Forall_fmap. eapply Forall_impl; [exact Hw|]. intros r Hr. simpl.
  unfold stored_row. rewrite length_clamp_row; [done|].
  destruct c; [congruence|].
  destruct (in_bounds bounds r); [|congruence].
  rewrite length_scale_row; congruence.
Qed.

Lemma stream_length (demo : demonstration) (L : nat) key st :
  Forall (fun kv => length (items kv.2) = 0 \/ length (items kv.2) = L)%nat demo ->
  dict_get demo key = Ok st -> (0 < length (items st))%nat -> length (items st) = L.
Proof.
  intros Hlens Hget Hpos. apply dict_get_elem_of in Hget.
  rewrite Forall_forall in Hlens.
  destruct (Hlens _ Hget) as [H|H]; simpl in H; [lia|done].
Qed.

Section window.
#[local] Set Default Proof Using "All".

Variables (self : ReverseTrajDataset) (demo : demonstration) (L : nat) (s : Z).

Let chunk : nat := chunk_size self.
Let e : Z := Z.min (Z.of_nat L) (s + Z.of_nat chunk).
Let n : nat := valid_length (Z.of_nat L) s chunk.

Hypothesis demo_keys : NoDup demo.*1.
Hypothesis demo_lengths :
  Forall (fun kv => length (items kv.2) = 0 \/ length (items kv.2) = L)%nat demo.
Hypothesis start_in_episode : (0 <= s < Z.of_nat L)%Z.
Hypothesis chunk_pos : (0 < chunk)%nat.
Hypothesis bounds_fit : normalizer_fits (normalizer self) = true.

Lemma window_size :
  (0 < n <= chunk)%nat /\ (e - s = Z.of_nat n)%Z /\ (s <= e <= Z.of_nat L)%Z.
Proof. unfold n, valid_length, e. lia. Qed.

Lemma padded_fill {A} (zero : A) (xs : list A) :
  length xs = n -> padded chunk n zero (xs ++ drop n (replicate chunk zero)).
Proof.
  intros Hxs. pose proof window_size as (Hn & _). split.
  - rewrite length_app, length_drop, length_replicate. lia.
  - intros i Hi. rewrite lookup_app_r by lia. rewrite lookup_drop.
    apply lookup_replicate_2. lia.
Qed.

Lemma window_slice {A} (its : list A) :
  length its = L ->
  slice its (Some s) (Some e) = take n (drop (Z.to_nat s) its) /\
  length (slice its (Some s) (Some e)) = n.
Proof.
  intros HL. pose proof window_size as (Hn & Hes & Hse).
  rewrite slice_window by lia. fold e.
  replace (Z.to_nat (e - s)) with n by lia. split; [done|].
  rewrite length_take, length_drop. lia.
Qed.

Lemma window_index {A} (its : list A) :
  length its = L -> exists x, index its s = Ok x /\ x ∈ its.
Proof.
  intros HL. destruct (lookup_lt_is_Some_2 its (Z.to_nat s)) as [x Hx]; [lia|].
  exists x. split; [|by eapply list_elem_of_lookup_2].
  rewrite <- (Z2Nat.id s) by lia. by apply index_nat.
Qed.

Lemma set_rows_fits (rows : list (list Q)) :
  length rows = n -> Forall (fun r => length r = CONFIG_DIM) rows ->
  set_rows (replicate chunk (replicate CONFIG_DIM 0)) (e - s) rows
  = Ok (rows ++ drop n (replicate chunk (replicate CONFIG_DIM 0))).
Proof.
  intros Hlen Hw. pose proof window_size as (Hn & Hes & Hse).
  unfold set_rows. rewrite length_replicate.
  replace (Z.to_nat (slice_bound (Z.of_nat chunk) (e - s))) with n.
  2:{ unfold slice_bound. destruct (e - s <? 0)%Z eqn:E; lia. }
  destruct rows as [|r rows]; [simpl in Hlen; lia|].
  assert (np_array (r :: rows) = Ok (Some (length r))) as ->.
  { unfold np_array.
    assert (forallb (fun r' => length r' =? length r)%nat (r :: rows) = true)
      as ->; [|done].
    apply forallb_Forall. eapply Forall_impl; [exact Hw|].
    intros r' Hr'. simpl. apply Nat.eqb_eq. inversion Hw; congruence. }
  cbn [bind].
  rewrite (map_m_ok (expand CONFIG_DIM) (fun r => r)).
  2:{ eapply Forall_impl; [exact Hw|]. intros r' Hr'. by apply expand_same. }
  cbn [bind]. rewrite list_fmap_id.
  by rewrite expand_same.
Qed.

Lemma set_prefix_fits (xs : list Q) :
  length xs = n ->
  set_prefix (replicate chunk 0) (e - s) xs
  = Ok (xs ++ drop n (replicate chunk 0)).
Proof.
  intros Hlen. pose proof window_size as (Hn & Hes & Hse).
  unfold set_prefix. rewrite length_replicate.
  replace (Z.to_nat (slice_bound (Z.of_nat chunk) (e - s))) with n.
  2:{ unfold slice_bound. destruct (e - s <? 0)%Z eqn:E; lia. }
  by rewrite expand_same.
Qed.

Lemma added_grows key acc acc' : grows acc acc' -> added key acc -> added key acc'.
Proof.
  intros [H1 H2]. unfold added.
  destruct (contains "position" key); [apply H2|].
  destruct (contains "gripper" key); [apply H2|].
  destruct (contains "rgb" key); [apply H1|done].
Qed.

Lemma grows_insert_l key fr (im db : gmap string tensor) :
  grows (im, db) (<[key := fr]> im, db).
Proof.
  split; simpl; [|done]. intros k Hk. rewrite lookup_insert_is_Some. 
  destruct (decide (key = k)); auto.
Qed.

Lemma grows_insert_r key fr (im db : gmap string tensor) :
  grows (im, db) (im, <[key := fr]> db).
Proof.
  split; simpl; [done|]. intros k Hk. rewrite lookup_insert_is_Some. 
  destruct (decide (key = k)); auto.
Qed.

Lemma sub_window_fits {A} (f : A -> bool) (its : list A) :
  forallb f its = true -> forallb f (take n (drop (Z.to_nat s) its)) = true.
Proof.
  rewrite !forallb_Forall. intros H. by apply Forall_take, Forall_drop.
Qed.

Lemma collect_step key acc :
  required_fits demo key = true -> chunk_inv chunk n acc ->
  exists acc',
    collect self demo s e acc key = Ok acc' /\
    chunk_inv chunk n acc' /\ grows acc acc' /\ added key acc'.
Proof.
  intros Hfit (Hcam & Hjoint & Hgrip). destruct acc as [im db].
  cbn [fst snd] in *.
  unfold required_fits in Hfit.
  destruct (dict_get demo key) as [st|] eqn:Hget; [|done].
  apply andb_true_iff in Hfit as [Hpos Hfit]. apply Nat.ltb_lt in Hpos.
  pose proof (stream_length demo L key st demo_lengths Hget Hpos) as HL.
  destruct (window_slice (items st) HL) as [Hslice Hlen].
  unfold collect, stream_fits, added in *. rewrite Hget. cbn [bind fst snd].
  destruct (contains "position" key) eqn:Ep;
    [|destruct (contains "gripper" key) eqn:Eg;
      [|destruct (contains "rgb" key) eqn:Er]].
  - (* a position stream *)
    rewrite rows_of_fits by (rewrite Hslice; by apply sub_window_fits).
    cbn [bind].
    destruct (normalized_rows (normalizer self) (kind st)
                (row_of <$> slice (items st) (Some s) (Some e)) bounds_fit)
      as (rows & -> & Hrows & Hwidth).
    { apply Forall_fmap. rewrite Hslice.
      apply forallb_Forall in Hfit.
      apply Forall_take, Forall_drop. eapply Forall_impl; [exact Hfit|].
      intros [] Ht; try done. simpl. by apply bool_decide_eq_true in Ht. }
    cbn [bind]. rewrite length_fmap, Hlen in Hrows.
    fold chunk. rewrite set_rows_fits by done. cbn [bind].
    eexists. split; [reflexivity|].
    split; [|split; [apply grows_insert_r|]].
    + split; [done|]. split; simpl.
      * intros t. rewrite lookup_insert_eq. intros [= <-].
        eexists. split; [reflexivity|]. by apply padded_fill.
      * intros t. rewrite lookup_insert_ne by done. apply Hgrip.
    + simpl. rewrite lookup_insert_eq. eauto.
  - (* a gripper stream *)
    unfold scalars_of. rewrite (map_m_ok _ scalar_of).
    2:{ rewrite Hslice. apply forallb_Forall in Hfit.
        apply Forall_take, Forall_drop. eapply Forall_impl; [exact Hfit|].
        by intros []. }
    cbn [bind]. fold chunk. rewrite set_prefix_fits by (by rewrite length_fmap).
    cbn [bind]. eexists. split; [reflexivity|].
    split; [|split; [apply grows_insert_r|]].
    + split; [done|]. split; simpl.
      * intros t. rewrite lookup_insert_ne by done. apply Hjoint.
      * intros t. rewrite lookup_insert_eq. intros [= <-].
        eexists. split; [reflexivity|]. apply padded_fill. by rewrite length_fmap.
    + simpl. rewrite lookup_insert_eq. eauto.
  - (* a camera or another image stream *)
    destruct (window_index (items st) HL) as (fr & -> & Hfr). cbn [bind].
    eexists. split; [reflexivity|].
    split; [|split; [apply grows_insert_l|]].
    + split; [|done]. simpl. intros cam fr' Hc.
      destruct (decide (key = cam)) as [->|Hne].
      * rewrite lookup_insert_eq. intros [= <-].
        rewrite bool_decide_eq_true_2 in Hfit by done.
        apply forallb_Forall in Hfit. rewrite Forall_forall in Hfit. by apply Hfit.
      * rewrite lookup_insert_ne by done. by apply Hcam.
    + simpl. rewrite lookup_insert_eq. eauto.
  - (* any other stream *)
    destruct (window_index (items st) HL) as (fr & -> & Hfr). cbn [bind].
    apply negb_true_iff, String.eqb_neq in Hfit.
    eexists. split; [reflexivity|].
    split; [|split; [apply grows_insert_r|done]].
    split; [done|]. split; simpl.
    + intros t. rewrite lookup_insert_ne by done. apply Hjoint.
    + intros t. rewrite lookup_insert_ne; [apply Hgrip|].
      intros ->. by vm_compute in Eg.
Qed.

Lemma collect_loop keys acc :
  forallb (required_fits demo) keys = true -> chunk_inv chunk n acc ->
  exists acc',
    for_each (collect self demo s e) keys acc = Ok acc' /\
    chunk_inv chunk n acc' /\ grows acc acc' /\
    (forall key, key ∈ keys -> added key acc').
Proof.
  revert acc. induction keys as [|key keys IH]; intros acc Hfit Hinv.
  - exists acc. split; [done|]. split; [done|]. split; [by split|].
    intros key Hkey. by apply elem_of_nil in Hkey.
  - simpl in Hfit. apply andb_true_iff in Hfit as [Hkey Hfit].
    destruct (collect_step key acc Hkey Hinv) as (acc1 & E1 & Hinv1 & Hg1 & Ha1).
    destruct (IH acc1 Hfit Hinv1) as (acc2 & E2 & Hinv2 & Hg2 & Ha2).
    exists acc2. cbn [for_each]. rewrite E1. cbn [bind].
    split; [done|]. split; [done|]. split.
    + destruct Hg1, Hg2. split; eauto.
    + intros k Hk. apply elem_of_cons in Hk as [->|Hk]; [|by apply Ha2].
      by apply (added_grows _ acc1).
Qed.

End window.

Lemma indicators_shapes add_task_ind path skill_ind env_ind :
  indicators add_task_ind path = Ok (skill_ind, env_ind) ->
  length skill_ind = 2%nat /\ length env_ind = 3%nat.
Proof.
  unfold indicators, skill_from_name. intros H.
  apply bind_inv in H as (c & _ & H).
  destruct add_task_ind, (contains "backward" path), (contains "forward" path),
    (Ascii.eqb c "1"), (Ascii.eqb c "3"), (Ascii.eqb c "5");
    simpl in H; try discriminate H; injection H as <- <-; done.
Qed.

Lemma camera_frames (im : gmap string tensor) (names : list string) :
  (forall cam, cam ∈ names -> exists fr, im !! cam = Some fr /\ is_frame fr = true) ->
  exists frames,
    map_m (map_get im) names = Ok frames /\
    length frames = length names /\
    Forall (fun fr => is_frame fr = true) frames.
Proof.
  induction names as [|cam names IH]; intros H.
  - exists []. by repeat split.
  - destruct (H cam) as (fr & Hfr & Hok); [apply list_elem_of_here|].
    destruct IH as (frames & E & Hlen & Hall).
    { intros c Hc. apply H. by apply list_elem_of_further. }
    exists (fr :: frames). cbn [map_m]. unfold map_get at 1. rewrite Hfr. cbn [bind].
    rewrite E. cbn [bind]. split; [done|]. split; [simpl; lia|by constructor].
Qed.

Lemma stack_frames frames :
  frames <> [] -> Forall (fun fr => is_frame fr = true) frames ->
  exists px, stack_images frames = Ok (T4 (length frames) 3 128 128 px).
Proof.
  intros Hne Hall. destruct frames as [|fr frames]; [done|].
  pose proof Hall as Hall'. apply Forall_cons in Hall' as [Hfr _].
  destruct fr as [| | |h w c px| |]; try done.
  simpl in Hfr. apply bool_decide_eq_true in Hfr as (-> & -> & ->).
  unfold stack_images.
  assert (forallb (same_shape (T3 128 128 3 (fun _ _ _ => 0)))
            (T3 128 128 3 px :: frames) = true) as ->; [|eauto].
  apply forallb_Forall. eapply Forall_impl; [exact Hall|].
  intros [| | |h w c px'| |] Ht; try done.
  simpl in Ht. apply bool_decide_eq_true in Ht as (-> & -> & ->).
  unfold same_shape. by apply bool_decide_eq_true.
Qed.

Lemma existsb_elem_of {A} (f : A -> bool) l :
  existsb f l = true -> exists x, x ∈ l /\ f x = true.
Proof.
  intros H. apply existsb_exists in H as (x & Hx & Hf).
  exists x. split; [by apply list_elem_of_In|done].
Qed.

Lemma check_shapes_ok chunk_size (batch : gmap string tensor)
    images is_pad joint gripper skill_ind env_ind :
  batch !! "images"%string = Some images ->
  batch !! "is_pad"%string = Some is_pad ->
  batch !! "joint_action"%string = Some joint ->
  batch !! "gripper_action"%string = Some gripper ->
  batch !! "skill_ind"%string = Some skill_ind ->
  batch !! "env_ind"%string = Some env_ind ->
  shape images = [4; 3; 128; 128]%nat ->
  shape is_pad = [chunk_size] ->
  shape joint = [chunk_size; 7%nat] ->
  shape gripper = [chunk_size] ->
  shape skill_ind = [2%nat] ->
  shape env_ind = [3%nat] ->
  check_shapes chunk_size batch = Ok tt.
Proof.
  intros E1 E2 E3 E4 E5 E6 S1 S2 S3 S4 S5 S6.
  unfold check_shapes, assert_shape, map_get.
  rewrite E1, E2, E3, E4, E5, E6. cbn [bind].
  by rewrite !bool_decide_eq_true_2 by done.
Qed.

(** The end-to-end example of the specification: 150 timesteps, a chunk of
    100 and a start at 120 give 30 real entries and 70 padded ones. *)
Example pad_mask_150_120 :
  pad_mask 100 (Z.min 150 (120 + 100) - 120)
  = replicate 30 false ++ replicate 70 true.
Proof. reflexivity. Qed.

(** C4. For an episode in the format the dataset expects, of length [L],
    and a draw in [[0, 1)], [__getitem__] returns a batch whose pad mask
    has [min(L, s + chunk_size) - s] leading [false] and [true] after, and
    whose joint-action and gripper-action tensors have length
    [chunk_size] and are zero wherever the mask is [true]. *)
Theorem chunk_padding self fs draw idx path demo (L : nat) skill_ind env_ind :
  index (file_list self) idx = Ok path ->
  fs path = Some demo ->
  episode_fits self demo L = true ->
  (0 < chunk_size self)%nat ->
  0 <= draw -> draw < 1 ->
  indicators (add_task_ind self) path = Ok (skill_ind, env_ind) ->
  let s := sample_start draw (Z.of_nat L) in
  let n := Z.to_nat (Z.min (Z.of_nat L) (s + Z.of_nat (chunk_size self)) - s) in
  episode_length demo = Ok (Z.of_nat L) /\
  exists batch joint gripper,
    ReverseTrajDataset.__getitem__ self fs draw idx = Ok batch /\
    batch !! "is_pad"%string
    = Some (TBool (replicate n false ++ replicate (chunk_size self - n) true)) /\
    batch !! "joint_action"%string = Some (T2 CONFIG_DIM joint) /\
    batch !! "gripper_action"%string = Some (T1 gripper) /\
    length joint = chunk_size self /\
    length gripper = chunk_size self /\
    forall i, (n <= i < chunk_size self)%nat ->
      joint !! i = Some (replicate CONFIG_DIM 0) /\ gripper !! i = Some 0.
Proof.
  intros Hpath Hdemo Hfits Hchunk Hd0 Hd1 Hind s n.
  unfold episode_fits in Hfits.
  repeat (apply andb_true_iff in Hfits as [Hfits ?]).
  rename H into Hnz, H0 into Hgrip, H1 into Hpos, H2 into Hcams, H3 into Hreq.
  rename H4 into Hlens. apply bool_decide_eq_true in Hfits as Hnd.
  apply forallb_Forall in Hlens.
  assert (Forall (fun kv : string * stream =>
            length (items kv.2) = 0 \/ length (items kv.2) = L)%nat demo) as Hlens'.
  { eapply Forall_impl; [exact Hlens|]. intros kv Hkv.
    by apply bool_decide_eq_true in Hkv. }
  apply forallb_Forall in Hcams. rewrite Forall_forall in Hcams.
  assert (forall cam, cam ∈ camera_names -> cam ∈ required_data_keys self) as Hcam.
  { intros cam Hc. specialize (Hcams cam Hc). by apply bool_decide_eq_true in Hcams. }
  pose proof Hreq as Hreq'. apply forallb_Forall in Hreq'.
  rewrite Forall_forall in Hreq'.
  assert (forall key, key ∈ required_data_keys self ->
            exists st, (key, st) ∈ demo /\ (0 < length (items st))%nat /\
                       length (items st) = L) as Hstreams.
  { intros key Hkey. specialize (Hreq' key Hkey). unfold required_fits in Hreq'.
    destruct (dict_get demo key) as [st|] eqn:Hget; [|done].
    apply andb_true_iff in Hreq' as [Hlen _]. apply Nat.ltb_lt in Hlen.
    exists st. split; [by apply dict_get_elem_of|]. split; [done|].
    by apply (stream_length demo L key st Hlens'). }
  destruct (Hstreams "front_rgb"%string) as (st0 & Hin0 & Hpos0 & HL0).
  { apply Hcam. apply list_elem_of_here. }
  assert (0 < L)%nat as HLpos by lia.
  pose proof (episode_length_fits demo L _ st0 Hnd Hlens' Hin0 Hpos0) as Hlen.
  split; [exact Hlen|].
  destruct (sample_start_range draw L Hd0 Hd1) as [Hs0 Hs1]. specialize (Hs1 HLpos).
  fold s in Hs0, Hs1.
  assert (0 <= s < Z.of_nat L)%Z as Hs by lia.
  destruct (collect_loop self demo L s Hnd Hlens' Hs Hchunk Hnz
              (required_data_keys self) (∅, ∅) Hreq)
    as ([im db] & Hloop & (Hinv_cam & Hinv_joint & Hinv_grip) & _ & Hadded).
  { split; [|split]; simpl; intros *; rewrite ?lookup_empty; done. }
  cbn [fst snd] in *.
  (* the four cameras *)
  destruct (camera_frames im camera_names) as (frames & Hframes & Hnframes & Hall).
  { intros cam Hc. pose proof (Hadded cam (Hcam cam Hc)) as Ha.
    assert (is_Some (im !! cam)) as [fr Hfr].
    { unfold camera_names in Hc. 
      repeat (apply elem_of_cons in Hc as [->|Hc]; [exact Ha|]).
      by apply elem_of_nil in Hc. }
    exists fr. split; [done|]. by apply (Hinv_cam cam). }
  destruct (stack_frames frames) as [px Hstack]; [by destruct frames|done|].
  rewrite Hnframes in Hstack.
  (* the two action tensors *)
  apply existsb_elem_of in Hpos as (kp & Hkp & Ekp).
  pose proof (Hadded kp Hkp) as Hjoint. unfold added in Hjoint. rewrite Ekp in Hjoint.
  cbn [snd] in Hjoint. destruct Hjoint as [tj Htj].
  destruct (Hinv_joint tj Htj) as (joint & -> & Hjl & Hjz).
  apply existsb_elem_of in Hgrip as (kg & Hkg & Ekg).
  apply andb_true_iff in Ekg as [Ekg1 Ekg2]. apply negb_true_iff in Ekg1.
  pose proof (Hadded kg Hkg) as Hgr. unfold added in Hgr. rewrite Ekg1, Ekg2 in Hgr.
  cbn [snd] in Hgr. destruct Hgr as [tg Htg].
  destruct (Hinv_grip tg Htg) as (gripper & -> & Hgl & Hgz).
  destruct (indicators_shapes _ _ _ _ Hind) as [Hsk Hev].
  (* the run *)
  eexists _, joint, gripper. split.
  { unfold ReverseTrajDataset.__getitem__.
    rewrite Hpath. cbn [bind]. rewrite Hdemo. cbn [bind].
    assert ((0 <? length (valid_keys demo))%nat = true) as ->.
    { apply Nat.ltb_lt.
      assert ("front_rgb"%string ∈ valid_keys demo) as Hv
        by (apply valid_keys_spec; eauto).
      destruct (valid_keys demo); [by apply elem_of_nil in Hv|simpl; lia]. }
    cbn [assert bind].
    assert (forallb (fun req_key => bool_decide (req_key ∈ valid_keys demo))
              (required_data_keys self) = true) as ->.
    { apply forallb_Forall, Forall_forall. intros key Hkey.
      apply bool_decide_eq_true, valid_keys_spec.
      destruct (Hstreams key Hkey) as (st & ? & ? & _). eauto. }
    cbn [assert bind]. rewrite Hlen. cbn [bind]. fold s.
    rewrite Hloop. cbn [bind]. rewrite Hframes. cbn [bind].
    rewrite Hstack. cbn [bind]. rewrite Hind. cbn [bind].
    rewrite (check_shapes_ok (chunk_size self) _
               (T4 (length camera_names) 3 128 128 px)
               (TBool (pad_mask (chunk_size self)
                         (Z.min (Z.of_nat L) (s + Z.of_nat (chunk_size self)) - s)))
               (T2 CONFIG_DIM joint) (T1 gripper) (T1 skill_ind) (T1 env_ind)).
    - reflexivity.
    - by rewrite !lookup_insert_ne, lookup_insert_eq by done.
    - by rewrite !lookup_insert_ne, lookup_insert_eq by done.
    - by rewrite !lookup_insert_ne by done.
    - by rewrite !lookup_insert_ne by done.
    - by rewrite !lookup_insert_ne, lookup_insert_eq by done.
    - by rewrite lookup_insert_eq.
    - reflexivity.
    - cbn [shape]. f_equal. unfold pad_mask.
      rewrite length_fmap, length_app, length_replicate, length_drop, !length_replicate.
      pose proof (slice_bound_range (Z.of_nat (chunk_size self))
         (Z.min (Z.of_nat L) (s + Z.of_nat (chunk_size self)) - s)). lia.
    - cbn [shape]. by rewrite Hjl.
    - cbn [shape]. by rewrite Hgl.
    - cbn [shape]. by rewrite Hsk.
    - cbn [shape]. by rewrite Hev. }
  split.
  { rewrite lookup_insert_ne, lookup_insert_ne, lookup_insert_eq by done.
    rewrite pad_mask_eq by (unfold n; lia). done. }
  split.
  { by rewrite !lookup_insert_ne by done. }
  split.
  { by rewrite !lookup_insert_ne by done. }
  split; [done|]. split; [done|].
  intros i Hi. split; [apply Hjz|apply Hgz]; exact Hi.
Qed.

Lemma chunk_padding_witness :
  let self := sample_dataset "d/demo_forward_01.pickle" true in
  let s := sample_start (1 # 2) (Z.of_nat 3) in
  let n := Z.to_nat (Z.min (Z.of_nat 3) (s + Z.of_nat (chunk_size self)) - s) in
  episode_length (episode PyList) = Ok (Z.of_nat 3) /\
  exists batch joint gripper,
    ReverseTrajDataset.__getitem__ self (fun _ => Some (episode PyList)) (1 # 2) 0
    = Ok batch /\
    batch !! "is_pad"%string
    = Some (TBool (replicate n false ++ replicate (chunk_size self - n) true)) /\
    batch !! "joint_action"%string = Some (T2 CONFIG_DIM joint) /\
    batch !! "gripper_action"%string = Some (T1 gripper) /\
    length joint = chunk_size self /\
    length gripper = chunk_size self /\
    forall i, (n <= i < chunk_size self)%nat ->
      joint !! i = Some (replicate CONFIG_DIM 0) /\ gripper !! i = Some 0.
Proof.
  apply (chunk_padding (sample_dataset "d/demo_forward_01.pickle" true)
           (fun _ => Some (episode PyList)) (1 # 2) 0
           "d/demo_forward_01.pickle" (episode PyList) 3 [1; 0] [1; 0; 0]).
  - reflexivity.
  - reflexivity.
  - vm_compute. reflexivity.
  - simpl. lia.
  - discriminate.
  - reflexivity.
  - reflexivity.
Defined.

End ChunkFacts.

(** ** ACTPolicy.__call__ *)

Module CallFacts.
Import Py Np Policy PolicyFixtures NpFacts PyFacts KlFacts.
Local Open Scope R_scope.
#[local] Arguments INR : simpl never.

Lemma broadcast_singleton_r {A B C} (f : A -> B -> C) (row : list A) (k : B) :
  broadcast f row [k] = Ok ((fun x => f x k) <$> row).
Proof.
  unfold broadcast. destruct (decide (length row = length [k])) as [E|E].
  - destruct row as [|a [|a' row]]; try done.
  - destruct row as [|a [|a' row]]; try done.
Qed.

Lemma broadcast_m_fmap_r {A B B' C} (h : A -> B' -> result C) (k : B -> B')
    (g : A -> B -> C) x y :
  Forall2 (fun a b => h a (k b) = Ok (g a b)) x y ->
  broadcast_m h x (k <$> y) = Ok (zip_with g x y).
Proof.
  intros H. unfold broadcast_m.
  rewrite broadcast_same_length
    by (rewrite length_fmap; eapply Forall2_length; eauto). cbn [bind].
  induction H as [|a b x y Hab _ IH]; [done|].
  cbn [fmap list_fmap zip_with map_m fst snd]. rewrite Hab. cbn [bind].
  cbn [fmap list_fmap] in IH. by rewrite IH.
Qed.

Lemma masked_zip (all_l1 : tensor3) (is_pad : mask) :
  shape2_eq all_l1 is_pad ->
  broadcast3 (fun l (k : bool) => l * (if k then 1 else 0)) all_l1 (not_pad is_pad)
  = Ok (zip_with (zip_with (fun row p => (fun x => x * keep p) <$> row)) all_l1 is_pad).
Proof.
  intros H. unfold broadcast3, not_pad. apply broadcast_m_fmap_r.
  eapply Forall2_impl; [exact H|]. intros rows ps Hlen.
  unfold broadcast2. apply broadcast_m_fmap_r.
  apply Forall2_same_length_lookup_2; [done|]. intros i row p _ _.
  exact (broadcast_singleton_r (fun l (k : bool) => l * (if k then 1 else 0))
           row (negb p)).
Qed.

Lemma concat_tagged (h : R * bool -> R) (rows : tensor2) (ps : list bool) :
  concat (zip_with (fun row p => (fun x => h (x, p)) <$> row) rows ps)
  = h <$> concat (zip_with tag_row rows ps).
Proof.
  revert ps. induction rows as [|row rows IH]; intros [|p ps]; try done.
  cbn [zip_with concat]. rewrite fmap_app, IH. f_equal.
  unfold tag_row. by rewrite <- list_fmap_compose.
Qed.

Lemma concat_concat_tagged (h : R * bool -> R) (t : tensor3) (pads : mask) :
  concat (concat (zip_with (zip_with (fun row p => (fun x => h (x, p)) <$> row))
                    t pads))
  = h <$> concat (concat (zip_with (zip_with tag_row) t pads)).
Proof.
  revert pads. induction t as [|rows t IH]; intros [|ps pads]; try done.
  cbn [zip_with concat]. rewrite !concat_app, fmap_app, IH. f_equal.
  apply concat_tagged.
Qed.

Lemma sum_weighted es :
  sum ((fun e : R * bool => e.1 * keep e.2) <$> es) = sum (unmasked es).
Proof.
  unfold unmasked. induction es as [|[x p] es IH]; [done|].
  cbn [fmap list_fmap List.filter fst snd]. rewrite sum_cons, IH.
  destruct p; cbn [negb keep fmap list_fmap fst]; [lra|].
  rewrite sum_cons. simpl. lra.
Qed.

Lemma abs_errors_shape (actions a_hat : tensor3) (is_pad : mask) :
  shape3_eq actions a_hat -> shape2_eq actions is_pad ->
  shape2_eq (abs_errors actions a_hat) is_pad.
Proof.
  intros H. revert is_pad. unfold abs_errors.
  induction H as [|x y actions a_hat Hxy _ IH]; intros is_pad Hp.
  - inversion Hp. constructor.
  - inversion Hp as [|? ps ? pads Hlen Hp']; subst. cbn [zip_with].
    constructor; [|by apply IH].
    rewrite length_zip_with. apply Forall2_length in Hxy. lia.
Qed.

Lemma masked_mean_closed (actions a_hat : tensor3) (is_pad : mask) :
  shape3_eq actions a_hat -> shape2_eq actions is_pad ->
  masked_mean (abs_errors actions a_hat) is_pad
  = Ok (l1_over_all (entries actions a_hat is_pad)).
Proof.
  intros Hs Hp. unfold masked_mean.
  rewrite masked_zip by (by apply abs_errors_shape).
  cbn [bind]. f_equal.
  rewrite (concat_concat_tagged (fun e => e.1 * keep e.2)).
  fold (entries actions a_hat is_pad).
  destruct (entries actions a_hat is_pad) as [|e es]; [done|].
  unfold l1_over_all. rewrite <- sum_weighted.
  cbn [fmap list_fmap]. rewrite mean_cons. cbn [length]. by rewrite length_fmap.
Qed.

Lemma l1_loss_closed (actions a_hat : tensor3) :
  shape3_eq actions a_hat -> l1_loss actions a_hat = Ok (abs_errors actions a_hat).
Proof. intros H. by apply broadcast3_zip. Qed.

Section training.

Context {noise qpos : Type}.
Variable model :
  noise -> qpos -> images -> option (tensor3 * mask) ->
  gmap string (option tensor2) ->
  result (tensor3 * tensor2 * (option latent * option latent)).
Variable num_queries : nat.
Variables (self : ACTPolicy) (eps : nat -> noise) (q : qpos).
Variables (image image' : images) (actions : tensor3) (is_pad : mask).
Variable kwargs : gmap string tensor2.

(** The chunk and the mask truncated to the model's queries. *)
Let acts : tensor3 := take num_queries <$> actions.
Let pads : mask := take num_queries <$> is_pad.

(** The first run of the backbone and the shapes of what it returns. *)
Variables (a_hat : tensor3) (is_pad_hat : tensor2) (mu logvar : latent).
Variables (mu2 logvar2 : tensor2).
Hypothesis image_ok : normalize image = Ok image'.
Hypothesis first_run :
  model (eps 0%nat) q image' (Some (acts, pads)) (Some <$> kwargs)
  = Ok (a_hat, is_pad_hat, (Some mu, Some logvar)).
Hypothesis a_hat_shape : shape3_eq acts a_hat.
Hypothesis pad_shape : shape2_eq acts pads.
Hypothesis batch_not_empty : size0 mu <> 0%nat.
Hypothesis mu_view : view2 mu = Ok mu2.
Hypothesis logvar_view : view2 logvar = Ok logvar2.
Hypothesis latent_shape : shape2_eq mu2 logvar2.

(** The second run, which only takes place without few-shot. *)
Variables (skill : tensor2) (a_hat_uninf : tensor3) (is_pad_hat' : tensor2).
Variable latents' : option latent * option latent.
Hypothesis second_run :
  truthy (few_shot self) = false ->
  kwargs !! "skill_ind"%string = Some skill /\
  model (eps 1%nat) q image' (Some (acts, pads))
    (<["skill_ind"%string :=
         Some ((fun row : list R => (fun _ => 0) <$> row) <$> skill)]>
       {["env_ind"%string := kwargs !! "env_ind"%string]})
  = Ok (a_hat_uninf, is_pad_hat', latents') /\
  shape3_eq acts a_hat_uninf.

Lemma call_training :
  ACTPolicy.__call__ model num_queries self eps q image (Some actions)
    (Some is_pad) kwargs
  = Ok (Losses
      {| l1 := l1_over_all (entries acts a_hat pads);
         l1_uninf :=
           if truthy (few_shot self) then num 0
           else fmul (num (ent_scale (ent_weight self)))
                     (l1_over_all (entries acts a_hat_uninf pads));
         kl := num (kl_sum mu2 logvar2 / INR (size0 mu));
         loss :=
           fadd (fadd (l1_over_all (entries acts a_hat pads))
                   (if truthy (few_shot self) then num 0
                    else fmul (num (ent_scale (ent_weight self)))
                              (l1_over_all (entries acts a_hat_uninf pads))))
                (fmul (num (kl_sum mu2 logvar2 / INR (size0 mu)))
                      (num (kl_weight self))) |}).
Proof using All.
  unfold ACTPolicy.__call__. rewrite image_ok. cbn [bind]. fold acts pads.
  rewrite first_run. cbn [bind].
  destruct (kl_divergence_views mu logvar mu2 logvar2) as (dims & avg & ->); try done.
  cbn [bind]. rewrite l1_loss_closed by done. cbn [bind].
  rewrite masked_mean_closed by done. cbn [bind].
  destruct (truthy (few_shot self)) eqn:Efew; cbn [negb bind].
  - reflexivity.
  - destruct second_run as (Hskill & Hrun & Hshape); [done|].
    rewrite Hskill. cbn [bind]. rewrite Hrun. cbn [bind].
    rewrite l1_loss_closed by done. cbn [bind].
    rewrite masked_mean_closed by done. cbn [bind]. reflexivity.
Qed.

(** C1 (as amended). In training mode the returned [l1] is the sum of the
    absolute errors of the elements whose timestep is not padded, divided
    by the number of all elements of the chunk, padded ones included
    ([nan] for a chunk without elements). *)
Theorem masked_l1_over_all_elements :
  exists d,
    ACTPolicy.__call__ model num_queries self eps q image (Some actions)
      (Some is_pad) kwargs
    = Ok (Losses d) /\
    l1 d = match entries acts a_hat pads with
           | [] => nan
           | es => num (sum (unmasked es) / INR (length es))
           end.
Proof using All.
  eexists. split; [apply call_training|]. cbn [l1]. unfold l1_over_all.
  by destruct (entries acts a_hat pads).
Qed.

(** C5. In training mode the returned total is [l1 + l1_uninf + kl *
    kl_weight]; [l1_uninf] is [0] when the few-shot flag is set, and
    otherwise the masked L1 loss of the second run of the backbone, on a
    zeroed skill indicator, times the entropy weight, which is [0.01]
    when none (or [0]) is configured. *)
Theorem loss_decomposition :
  exists d,
    ACTPolicy.__call__ model num_queries self eps q image (Some actions)
      (Some is_pad) kwargs
    = Ok (Losses d) /\
    loss d = fadd (fadd (l1 d) (l1_uninf d)) (fmul (kl d) (num (kl_weight self))) /\
    l1 d = l1_over_all (entries acts a_hat pads) /\
    kl d = num (kl_sum mu2 logvar2 / INR (size0 mu)) /\
    l1_uninf d
    = (if truthy (few_shot self) then num 0
       else fmul (num (ent_scale (ent_weight self)))
                 (l1_over_all (entries acts a_hat_uninf pads))) /\
    ent_scale None = 0.01 /\ ent_scale (Some 0) = 0.01 /\
    (forall w, w <> 0 -> ent_scale (Some w) = w).
Proof using All.
  eexists. split; [apply call_training|]. cbn [loss l1 l1_uninf kl].
  do 5 (split; [done|]). unfold ent_scale. split.
  - by destruct (Req_EM_T 0 0).
  - intros w Hw. by destruct (Req_EM_T w 0).
Qed.

End training.

Lemma Rabs_sub_0 x : 0 <= x -> Rabs (x - 0) = x.
Proof. intros H. rewrite Rminus_0_r. by apply Rabs_pos_eq. Qed.

Lemma masked_l1_over_all_elements_witness :
  exists d,
    ACTPolicy.__call__ stub_model 2 few_shot_policy (fun i => i) tt sample_image
      (Some sample_actions) (Some sample_pad) ∅
    = Ok (Losses d) /\
    l1 d = match entries (take 2 <$> sample_actions) [[[0]; [0]]]
                   (take 2 <$> sample_pad) with
           | [] => nan
           | es => num (sum (unmasked es) / INR (length es))
           end.
Proof.
  apply (masked_l1_over_all_elements stub_model 2 few_shot_policy (fun i => i) tt
           sample_image normalized_sample_image sample_actions sample_pad ∅
           [[[0]; [0]]] [] (Lat2 [[0]]) (Lat2 [[0]]) [[0]] [[0]]
           ltac:(reflexivity) ltac:(reflexivity)
           ltac:(repeat constructor) ltac:(repeat constructor)
           ltac:(simpl; lia) ltac:(reflexivity) ltac:(reflexivity)
           ltac:(repeat constructor)
           [] [] [] (None, None)).
  intros H. discriminate H.
Defined.

Lemma loss_decomposition_witness :
  exists d,
    ACTPolicy.__call__ stub_model 2 multi_task_policy (fun i => i) tt sample_image
      (Some sample_actions) (Some sample_pad) {["skill_ind"%string := [[1; 0]]]}
    = Ok (Losses d) /\
    loss d = fadd (fadd (l1 d) (l1_uninf d))
               (fmul (kl d) (num (kl_weight multi_task_policy))) /\
    l1 d = l1_over_all (entries (take 2 <$> sample_actions) [[[0]; [0]]]
                          (take 2 <$> sample_pad)) /\
    kl d = num (kl_sum [[0]] [[0]] / INR (size0 (Lat2 [[0]]))) /\
    l1_uninf d
    = (if truthy (few_shot multi_task_policy) then num 0
       else fmul (num (ent_scale (ent_weight multi_task_policy)))
                 (l1_over_all (entries (take 2 <$> sample_actions) [[[1]; [1]]]
                                 (take 2 <$> sample_pad)))) /\
    ent_scale None = 0.01 /\ ent_scale (Some 0) = 0.01 /\
    (forall w, w <> 0 -> ent_scale (Some w) = w).
Proof.
  apply (loss_decomposition stub_model 2 multi_task_policy (fun i => i) tt
           sample_image normalized_sample_image sample_actions sample_pad
           {["skill_ind"%string := [[1; 0]]]}
           [[[0]; [0]]] [] (Lat2 [[0]]) (Lat2 [[0]]) [[0]] [[0]]
           ltac:(reflexivity) ltac:(reflexivity)
           ltac:(repeat constructor) ltac:(repeat constructor)
           ltac:(simpl; lia) ltac:(reflexivity) ltac:(reflexivity)
           ltac:(repeat constructor)
           [[1; 0]] [[[1]; [1]]] [] (Some (Lat2 [[0]]), Some (Lat2 [[0]]))).
  intros _. split; [reflexivity|]. split; [reflexivity|]. repeat constructor.
Defined.

(** C1, as stated, fails: with one real and one padded timestep and an
    error of [1] on the real one, [l1] is [1/2], not the mean [1] over the
    unmasked elements. *)
Lemma masked_l1_counterexample :
  exists d,
    ACTPolicy.__call__ stub_model 2 few_shot_policy (fun i => i) tt sample_image
      (Some sample_actions) (Some sample_pad) ∅
    = Ok (Losses d) /\
    l1 d = num (1 / 2) /\
    l1_over_unmasked (entries (take 2 <$> sample_actions) [[[0]; [0]]]
                        (take 2 <$> sample_pad)) = num 1 /\
    l1 d <> l1_over_unmasked (entries (take 2 <$> sample_actions) [[[0]; [0]]]
                                (take 2 <$> sample_pad)).
Proof.
  eexists. split.
  - apply (call_training stub_model 2 few_shot_policy (fun i => i) tt
             sample_image normalized_sample_image sample_actions sample_pad ∅
             [[[0]; [0]]] [] (Lat2 [[0]]) (Lat2 [[0]]) [[0]] [[0]]
             ltac:(reflexivity) ltac:(reflexivity)
             ltac:(repeat constructor) ltac:(repeat constructor)
             ltac:(simpl; lia) ltac:(reflexivity) ltac:(reflexivity)
             ltac:(repeat constructor)
             [] [] [] (None, None)).
    intros H. discriminate H.
  - cbn [l1].
    assert (entries (take 2 <$> sample_actions) [[[0]; [0]]] (take 2 <$> sample_pad)
            = [(Rabs (1 - 0), false); (Rabs (0 - 0), true)]) as -> by reflexivity.
    unfold l1_over_all, l1_over_unmasked, unmasked.
    cbn [List.filter negb snd fst fmap list_fmap length mean].
    rewrite !sum_cons. cbn [sum foldr length].
    rewrite Rabs_sub_0 by lra.
    assert (INR 2 = 2) as -> by (cbv [INR]; lra).
    assert (INR 1 = 1) as -> by reflexivity.
    assert ((1 + 0) / 2 = 1 / 2) as -> by lra.
    assert ((1 + 0) / 1 = 1) as -> by lra.
    split; [done|]. split; [done|]. intros [= H]. lra.
Qed.

End CallFacts.
(** ** The indicators and the normalised rows of a batch *)

Module GetitemFacts.
Import Py Np TorchData Fixtures NpFacts PyFacts NormalizerFacts NormalizeChunkFacts.
Local Open Scope Q_scope.

(** What a returned batch went through. *)
Lemma getitem_inv self fs draw idx batch :
  ReverseTrajDataset.__getitem__ self fs draw idx = Ok batch ->
  exists path demo episode_len image_dict data_batch skill_ind env_ind image_data,
    index (file_list self) idx = Ok path /\
    fs path = Some demo /\
    episode_length demo = Ok episode_len /\
    let start_ts := sample_start draw episode_len in
    let end_ts := Z.min episode_len (start_ts + Z.of_nat (chunk_size self)) in
    for_each (collect self demo start_ts end_ts) (required_data_keys self) (∅, ∅)
    = Ok (image_dict, data_batch) /\
    indicators (add_task_ind self) path = Ok (skill_ind, env_ind) /\
    batch = <["env_ind"%string := T1 env_ind]>
              (<["skill_ind"%string := T1 skill_ind]>
                 (<["is_pad"%string :=
                      TBool (pad_mask (chunk_size self) (end_ts - start_ts))]>
                    (<["images"%string := image_data]> data_batch))) /\
    check_shapes (chunk_size self) batch = Ok tt.
Proof.
  unfold ReverseTrajDataset.__getitem__. intros H.
  apply bind_inv in H as (path & Hpath & H).
  apply bind_inv in H as (demo & Hdemo & H).
  apply bind_inv in H as (? & _ & H).
  apply bind_inv in H as (? & _ & H).
  apply bind_inv in H as (episode_len & Hlen & H).
  apply bind_inv in H as ([image_dict data_batch] & Hloop & H).
  apply bind_inv in H as (cams & _ & H).
  apply bind_inv in H as (image_data & _ & H).
  apply bind_inv in H as ([skill_ind env_ind] & Hind & H).
  apply bind_inv in H as ([] & Hshapes & H).
  injection H as <-.
  exists path, demo, episode_len, image_dict, data_batch, skill_ind, env_ind,
    image_data.
  destruct (fs path); [|done]. injection Hdemo as ->.
  repeat split; auto.
Qed.

(** C3 (as amended). For a name whose last character before [.pickle] is
    none of 1, 3, 5 (a door file, digit 2, among them) both indicators
    are all-zero, whatever [add_task_ind] and the name are; for a last
    character 1, 3 or 5, with indicators enabled and ["backward"] or
    ["forward"] in the name, the skill indicator is the one-hot of the
    name and the environment indicator the one-hot of the digit; and a
    returned batch holds the pair so derived. *)
Theorem indicators_by_design :
  (forall add_task_ind path c,
     last_char (replace ".pickle" "" path) = Ok c ->
     env_digit c = false ->
     indicators add_task_ind path = Ok ([0; 0], [0; 0; 0])) /\
  (forall path c s,
     last_char (replace ".pickle" "" path) = Ok c ->
     env_digit c = true ->
     skill_from_name true path = Some s ->
     indicators true path = Ok (skill_by_name true path, env_by_digit c)) /\
  (forall self fs draw idx batch,
     ReverseTrajDataset.__getitem__ self fs draw idx = Ok batch ->
     exists path skill_ind env_ind,
       index (file_list self) idx = Ok path /\
       indicators (add_task_ind self) path = Ok (skill_ind, env_ind) /\
       batch !! "skill_ind"%string = Some (T1 skill_ind) /\
       batch !! "env_ind"%string = Some (T1 env_ind)).
Proof.
  split; [|split].
  - intros add path c Hc Hd. unfold indicators. rewrite Hc. cbn [bind].
    unfold env_digit in Hd. apply orb_false_elim in Hd as [Hd H5].
    apply orb_false_elim in Hd as [H1 H3]. by rewrite H1, H3, H5.
  - intros path c s Hc Hd Hs. unfold indicators, skill_by_name, env_by_digit.
    rewrite Hc, Hs. cbn [bind]. unfold env_digit in Hd.
    destruct (Ascii.eqb c "1"); [done|]. destruct (Ascii.eqb c "3"); [done|].
    destruct (Ascii.eqb c "5"); [done|]. done.
  - intros self fs draw idx batch H.
    apply getitem_inv in H
      as (path & demo & len & im & db & sk & ev & img & Hp & _ & _ & _ & Hi & -> & _).
    exists path, sk, ev. split; [done|]. split; [done|]. split.
    + rewrite lookup_insert_ne by done. apply lookup_insert_eq.
    + apply lookup_insert_eq.
Qed.

Lemma indicators_by_design_witness :
  indicators false "d/demo_forward_04.pickle" = Ok ([0; 0], [0; 0; 0]) /\
  indicators true "d/demo_backward_13.pickle"
  = Ok (skill_by_name true "d/demo_backward_13.pickle", env_by_digit "3") /\
  exists batch path skill_ind env_ind,
    ReverseTrajDataset.__getitem__ (sample_dataset "d/demo_forward_01.pickle" true)
      (fun _ => Some (episode PyList)) (1 # 2) 0 = Ok batch /\
    index (file_list (sample_dataset "d/demo_forward_01.pickle" true)) 0 = Ok path /\
    indicators (add_task_ind (sample_dataset "d/demo_forward_01.pickle" true)) path
    = Ok (skill_ind, env_ind) /\
    batch !! "skill_ind"%string = Some (T1 skill_ind) /\
    batch !! "env_ind"%string = Some (T1 env_ind).
Proof.
  destruct indicators_by_design as (Hother & Hdigit & Hbatch).
  split; [|split].
  - apply (Hother false "d/demo_forward_04.pickle" "4"%char); reflexivity.
  - apply (Hdigit "d/demo_backward_13.pickle" "3"%char [0; 1]); reflexivity.
  - destruct (ReverseTrajDataset.__getitem__
                (sample_dataset "d/demo_forward_01.pickle" true)
                (fun _ => Some (episode PyList)) (1 # 2) 0) as [batch|err] eqn:E.
    + destruct (Hbatch _ _ _ _ _ E) as (path & sk & ev & H).
      by exists batch, path, sk, ev.
    + vm_compute in E. discriminate E.
Defined.

(** C3, as stated, fails on a door file: with indicators enabled and
    ["forward"] in its name, the skill indicator the name gives is
    [[1; 0]], and the one stored is all-zero. *)
Lemma indicators_door_counterexample :
  indicators true "d/demo_forward_02.pickle" = Ok ([0; 0], [0; 0; 0]) /\
  skill_by_name true "d/demo_forward_02.pickle" = [1; 0] /\
  indicators true "d/demo_forward_02.pickle"
  <> Ok (skill_by_name true "d/demo_forward_02.pickle", env_by_digit "2").
Proof. split; [reflexivity|]. split; [reflexivity|]. discriminate. Qed.

(** With [load_data]'s defaults ([add_task_ind] off, a box task) the local
    [skill_ind] is never bound, and the sample is not produced. *)
Lemma indicators_unbound :
  indicators false "d/demo_forward_01.pickle" = Raise UnboundLocalError /\
  ReverseTrajDataset.__getitem__ (sample_dataset "d/demo_forward_01.pickle" false)
    (fun _ => Some (episode PyList)) (1 # 2) 0 = Raise UnboundLocalError.
Proof. split; [reflexivity|]. vm_compute. reflexivity. Qed.

(** C2, at a failing input. The position stream is a list of arrays, the
    bounds are [(-2, 2)] in every dimension and the timestep [3/2] is
    inside them: the value the specification describes is the clamp of
    its transform, [3/4]; the list keeps the raw [3/2], in the loop and in
    the batch.  (An ndarray stream does hold [3/4].) *)
Theorem list_chunk_keeps_raw_value :
  let nz := ConfigMinMaxNormalization.__init__ sample_bounds in
  let js := replicate 7 (3 # 2) in
  validate_bounds nz js = Ok true /\
  (do t <- transform nz js; clamp nz t) = Ok (replicate 7 (6 # 8)) /\
  normalize_chunk PyList nz [js] = Ok [js] /\
  normalize_chunk NdArray nz [js] = Ok [replicate 7 (6 # 8)] /\
  match ReverseTrajDataset.__getitem__ (sample_dataset "d/demo_forward_01.pickle" true)
          (fun _ => Some (episode PyList)) (1 # 2) 0 with
  | Ok batch => batch !! "joint_action"%string
  | Raise _ => None
  end
  = Some (T2 CONFIG_DIM
            [js; replicate 7 2; replicate 7 0; replicate 7 0]).
Proof.
  cbv zeta. split; [reflexivity|]. split; [reflexivity|].
  split; [reflexivity|]. split; [reflexivity|]. vm_compute. reflexivity.
Qed.

(** The loop on a list stream, in general: every row is replaced by the
    clamp of the raw row, whether or not it is inside the bounds. *)
Lemma list_chunk_clamps_raw bounds chunk_data :
  Forall (fun js => length js = length bounds) chunk_data ->
  normalize_chunk PyList (ConfigMinMaxNormalization.__init__ bounds) chunk_data
  = Ok (clamp_row bounds <$> chunk_data).
Proof. intros H. by rewrite normalize_chunk_stored. Qed.

(** On an ndarray stream the rows inside the bounds are replaced by the
    clamp of their transform. *)
Lemma array_chunk_clamps_transform bounds chunk_data :
  Forall (fun js => length js = length bounds) chunk_data ->
  Forall (fun js => in_bounds bounds js = true) chunk_data ->
  normalize_chunk NdArray (ConfigMinMaxNormalization.__init__ bounds) chunk_data
  = Ok ((fun js => clamp_row bounds (scale_row bounds js)) <$> chunk_data).
Proof.
  intros H Hin. rewrite normalize_chunk_stored by done. f_equal.
  apply Forall_fmap_ext_1. eapply Forall_impl; [exact Hin|].
  intros js Hjs. unfold stored_row. by rewrite Hjs.
Qed.

End GetitemFacts.

(** ** ConfigMinMaxNormalization: ranges, fixed points and the chunk loop *)

Module NormalizerRangeFacts.
Import Py Np TorchData Fixtures NpFacts PyFacts NormalizerFacts NormalizeChunkFacts.
Local Open Scope Q_scope.

(** Case analysis on every comparison under [Qmax] and [Qmin], innermost
    first. *)
Ltac compare_cases :=
  unfold Qmax, Qmin, GenericMinMax.gmax, GenericMinMax.gmin;
  repeat match goal with
         | |- context [Qcompare ?a ?b] =>
             lazymatch a with
             | context [Qcompare] => fail
             | _ => lazymatch b with
                    | context [Qcompare] => fail
                    | _ => destruct (Qcompare_spec a b)
                    end
             end
         end.

(** One coordinate of [clamp]. *)
Lemma clamp_coordinate_idempotent (x lo hi : Q) :
  Qmin (Qmax (Qmin (Qmax x lo) hi) lo) hi = Qmin (Qmax x lo) hi.
Proof. compare_cases; try reflexivity; exfalso; Lqa.lra. Qed.

Lemma clamp_coordinate_range (x lo hi : Q) :
  lo <= hi -> lo <= Qmin (Qmax x lo) hi <= hi.
Proof. intros H. compare_cases; split; Lqa.lra. Qed.

Lemma clamp_coordinate_inside (x lo hi : Q) :
  lo < x -> x < hi -> Qmin (Qmax x lo) hi = x.
Proof. intros H1 H2. compare_cases; try reflexivity; exfalso; Lqa.lra. Qed.

Lemma Qlt_bool_iff (a b : Q) : Qlt_bool a b = true <-> a < b.
Proof.
  unfold Qlt_bool. rewrite negb_true_iff. split.
  - intros H. apply Qnot_le_lt. intros Hle. apply Qle_bool_iff in Hle. congruence.
  - intros H. destruct (Qle_bool b a) eqn:E; [|done].
    apply Qle_bool_iff in E. exfalso. Lqa.lra.
Qed.

Lemma in_bounds_spec bounds js :
  length js = length bounds ->
  in_bounds bounds js = true <->
  Forall2 (fun x b => b.1 < x /\ x < b.2) js bounds.
Proof.
  revert bounds. unfold in_bounds.
  induction js as [|x js IH]; intros [|[lo hi] bounds] HL; simpl in HL; try lia.
  - split; [constructor|done].
  - cbn [fmap list_fmap zip_with forallb fst snd].
    specialize (IH bounds ltac:(lia)). rewrite Forall2_cons. rewrite <- IH.
    rewrite !andb_true_iff, !Qlt_bool_iff. cbn [fst snd]. tauto.
Qed.

Lemma clamp_row_idempotent bounds js :
  length js = length bounds ->
  clamp_row bounds (clamp_row bounds js) = clamp_row bounds js.
Proof.
  unfold clamp_row. revert bounds.
  induction js as [|x js IH]; intros [|[lo hi] bounds] HL; simpl in HL; try done.
  cbn [zip_with]. f_equal; [apply clamp_coordinate_idempotent|apply IH; lia].
Qed.

Lemma clamp_row_inside bounds js :
  length js = length bounds ->
  in_bounds bounds js = true -> clamp_row bounds js = js.
Proof.
  intros HL Hv. apply in_bounds_spec in Hv; [|done]. unfold clamp_row.
  induction Hv as [|x [lo hi] js bounds [Hlo Hhi] _ IH]; [done|].
  cbn [zip_with fst snd] in *. f_equal; [|apply IH; simpl in HL; lia].
  apply clamp_coordinate_inside; Lqa.lra.
Qed.

Lemma clamp_row_range bounds js :
  Forall (fun b => b.1 <= b.2) bounds ->
  length js = length bounds ->
  Forall2 (fun yi b => b.1 <= yi <= b.2) (clamp_row bounds js) bounds.
Proof.
  intros Hb. unfold clamp_row. revert js.
  induction Hb as [|[lo hi] bounds Hlo _ IH]; intros [|x js] HL; simpl in HL;
    try lia; cbn [zip_with]; constructor; [|apply IH; lia].
  cbn [fst snd] in *.
  destruct (clamp_coordinate_range x (1 * lo) (1 * hi)) as [H1 H2]; [Lqa.lra|].
  split; Lqa.lra.
Qed.

Lemma scale_range (b : Q * Q) (x : Q) :
  b.1 < b.2 -> b.1 <= x <= b.2 -> -1 <= scale b x <= 1.
Proof.
  intros Hb [Hlo Hhi]. unfold scale.
  assert (0 < b.2 - b.1) as Hspan by Lqa.lra.
  assert (0 <= 1 * (x - b.1) / (b.2 - b.1)) as H0.
  { apply Qle_shift_div_l; [done|]. Lqa.lra. }
  assert (1 * (x - b.1) / (b.2 - b.1) <= 1) as H1.
  { apply Qle_shift_div_r; [done|]. Lqa.lra. }
  split; Lqa.lra.
Qed.

Lemma scale_endpoints (b : Q * Q) :
  b.1 < b.2 -> scale b b.1 == -1 /\ scale b b.2 == 1.
Proof.
  intros Hb. unfold scale. split; field; intros E; Lqa.lra.
Qed.

Lemma scale_unscale b y : b.1 < b.2 -> scale b (unscale b y) == y.
Proof. intros H. unfold unscale, scale. field. intros E. Lqa.lra. Qed.

(** X1. [clamp] is idempotent: on a vector with one coordinate per bound it
    returns, and clamping its result again returns the same vector.  No
    order between the two bounds is needed. *)
Theorem clamp_idempotent bounds js :
  length js = length bounds ->
  exists y,
    clamp (ConfigMinMaxNormalization.__init__ bounds) js = Ok y /\
    clamp (ConfigMinMaxNormalization.__init__ bounds) y = Ok y.
Proof.
  intros HL. exists (clamp_row bounds js). split; [by apply clamp_zip|].
  rewrite clamp_zip by (by apply length_clamp_row).
  by rewrite clamp_row_idempotent.
Qed.

Lemma clamp_idempotent_witness :
  exists y,
    clamp (ConfigMinMaxNormalization.__init__ [(-2, 2); (0, 3)]) [5; 1] = Ok y /\
    clamp (ConfigMinMaxNormalization.__init__ [(-2, 2); (0, 3)]) y = Ok y.
Proof. apply (clamp_idempotent [(-2, 2); (0, 3)] [5; 1]). reflexivity. Defined.

(** X2. When no lower bound exceeds its upper bound, every coordinate of the
    result of [clamp] lies between its two bounds, whatever the input. *)
Theorem clamp_within_bounds bounds js :
  Forall (fun b => b.1 <= b.2) bounds ->
  length js = length bounds ->
  exists y,
    clamp (ConfigMinMaxNormalization.__init__ bounds) js = Ok y /\
    Forall2 (fun yi b => b.1 <= yi <= b.2) y bounds.
Proof.
  intros Hb HL. exists (clamp_row bounds js). split; [by apply clamp_zip|].
  by apply clamp_row_range.
Qed.

Lemma clamp_within_bounds_witness :
  exists y,
    clamp (ConfigMinMaxNormalization.__init__ [(-2, 2); (0, 3)]) [5; -1] = Ok y /\
    Forall2 (fun yi b => b.1 <= yi <= b.2) y [(-2, 2); (0, 3)].
Proof.
  apply (clamp_within_bounds [(-2, 2); (0, 3)] [5; -1]); [|reflexivity].
  repeat constructor; discriminate.
Defined.

(** X3. A vector that [validate_bounds] accepts is a fixed point of [clamp]. *)
Theorem clamp_fixes_validated bounds js :
  length js = length bounds ->
  validate_bounds (ConfigMinMaxNormalization.__init__ bounds) js = Ok true ->
  clamp (ConfigMinMaxNormalization.__init__ bounds) js = Ok js.
Proof.
  intros HL Hv. rewrite validate_bounds_zip in Hv by done. injection Hv as Hv.
  rewrite clamp_zip by done. by rewrite clamp_row_inside.
Qed.

Lemma clamp_fixes_validated_witness :
  clamp (ConfigMinMaxNormalization.__init__ [(-2, 2); (0, 3)]) [1; 2] = Ok [1; 2].
Proof.
  apply (clamp_fixes_validated [(-2, 2); (0, 3)] [1; 2]); reflexivity.
Defined.

(** X4. For bounds with [min < max], [transform] maps a vector inside the
    closed bounds into [[-1, 1]], and it maps the vector of lower bounds
    to [-1] and the vector of upper bounds to [1] in every coordinate. *)
Theorem transform_range bounds x :
  Forall (fun b => b.1 < b.2) bounds ->
  Forall2 (fun xi b => b.1 <= xi <= b.2) x bounds ->
  (exists y,
     transform (ConfigMinMaxNormalization.__init__ bounds) x = Ok y /\
     Forall (fun yi => -1 <= yi <= 1) y) /\
  (exists lo hi,
     transform (ConfigMinMaxNormalization.__init__ bounds) bounds.*1 = Ok lo /\
     transform (ConfigMinMaxNormalization.__init__ bounds) bounds.*2 = Ok hi /\
     Forall (fun yi => yi == -1) lo /\ Forall (fun yi => yi == 1) hi).
Proof.
  intros Hb Hx. split.
  - eexists. split; [apply transform_zip; by eapply Forall2_length|].
    induction Hx as [|xi b x bounds Hxi _ IH]; cbn [zip_with]; constructor.
    + apply scale_range; [by inversion Hb|done].
    + apply IH. by inversion Hb.
  - eexists _, _.
    split; [apply transform_zip; by rewrite length_fmap|].
    split; [apply transform_zip; by rewrite length_fmap|].
    clear Hx. split.
    + induction Hb as [|b bounds Hlt _ IH]; cbn [fmap list_fmap zip_with];
        constructor; [apply scale_endpoints, Hlt|exact IH].
    + induction Hb as [|b bounds Hlt _ IH]; cbn [fmap list_fmap zip_with];
        constructor; [apply scale_endpoints, Hlt|exact IH].
Qed.

Lemma transform_range_witness :
  exists y,
    transform (ConfigMinMaxNormalization.__init__ [(-2, 2); (0, 3)]) [1; 3] = Ok y /\
    Forall (fun yi => -1 <= yi <= 1) y.
Proof.
  apply (transform_range [(-2, 2); (0, 3)] [1; 3]).
  - repeat constructor.
  - repeat constructor; discriminate.
Defined.

(** X5. The other round trip: for bounds with [min < max] and any [y] with one
    coordinate per bound, [inverse_transform] and then [transform] both
    return, and the result equals [y] coordinate by coordinate. *)
Theorem transform_inverse_transform bounds y :
  Forall (fun b => b.1 < b.2) bounds ->
  length y = length bounds ->
  exists x z,
    inverse_transform (ConfigMinMaxNormalization.__init__ bounds) y = Ok x /\
    transform (ConfigMinMaxNormalization.__init__ bounds) x = Ok z /\
    Forall2 Qeq z y.
Proof.
  intros Hb HL. eexists _, _.
  split; [by apply inverse_transform_zip|].
  split; [apply transform_zip; rewrite length_zip_with; lia|].
  revert y HL. induction Hb as [|b bounds Hlt _ IH]; intros [|yi y] HL;
    simpl in HL; try lia; cbn [zip_with]; constructor.
  - by apply scale_unscale.
  - apply IH. lia.
Qed.

Lemma transform_inverse_transform_witness :
  exists x z,
    inverse_transform (ConfigMinMaxNormalization.__init__ [(-2, 2); (0, 3)])
      [1 # 2; -4] = Ok x /\
    transform (ConfigMinMaxNormalization.__init__ [(-2, 2); (0, 3)]) x = Ok z /\
    Forall2 Qeq z [1 # 2; -4].
Proof.
  apply (transform_inverse_transform [(-2, 2); (0, 3)] [1 # 2; -4]);
    [repeat constructor|reflexivity].
Defined.

(** X6. The loop of [__getitem__] over a chunk, by the kind of the stream.  On
    rows with one coordinate per bound it never raises.  A list stream
    ends with the clamp of each raw row; an ndarray stream ends with the
    clamp of the transform of each row strictly inside the bounds and the
    clamp of every other row. *)
Theorem normalize_chunk_by_container bounds chunk_data :
  Forall (fun js => length js = length bounds) chunk_data ->
  let nz := ConfigMinMaxNormalization.__init__ bounds in
  normalize_chunk PyList nz chunk_data = Ok (clamp_row bounds <$> chunk_data) /\
  normalize_chunk NdArray nz chunk_data
  = Ok ((fun js => if in_bounds bounds js
                   then clamp_row bounds (scale_row bounds js)
                   else clamp_row bounds js) <$> chunk_data).
Proof.
  intros H nz. unfold nz. rewrite !normalize_chunk_stored by done.
  split; [done|]. f_equal. apply list_fmap_ext. intros _ js _.
  unfold stored_row. by destruct (in_bounds bounds js).
Qed.

Lemma normalize_chunk_by_container_witness :
  let chunk_data := [replicate 7 (3 # 2); replicate 7 5] in
  let nz := ConfigMinMaxNormalization.__init__ sample_bounds in
  normalize_chunk PyList nz chunk_data = Ok [replicate 7 (3 # 2); replicate 7 2] /\
  normalize_chunk NdArray nz chunk_data = Ok [replicate 7 (6 # 8); replicate 7 2].
Proof.
  apply (normalize_chunk_by_container sample_bounds
           [replicate 7 (3 # 2); replicate 7 5]).
  repeat constructor.
Defined.

(** X7. A list stream whose rows all pass [validate_bounds] leaves the loop
    as it entered it: the transform is computed and dropped, and the clamp
    of a validated row is the row. *)
Theorem list_chunk_unchanged_when_validated bounds chunk_data :
  Forall (fun js =>
            length js = length bounds /\
            validate_bounds (ConfigMinMaxNormalization.__init__ bounds) js = Ok true)
    chunk_data ->
  normalize_chunk PyList (ConfigMinMaxNormalization.__init__ bounds) chunk_data
  = Ok chunk_data.
Proof.
  intros H. rewrite normalize_chunk_stored.
  2:{ eapply Forall_impl; [exact H|]. by intros js [? _]. }
  f_equal. rewrite <- (list_fmap_id chunk_data) at 2.
  apply Forall_fmap_ext_1. eapply Forall_impl; [exact H|].
  intros js [HL Hv]. unfold stored_row.
  rewrite validate_bounds_zip in Hv by done. injection Hv as Hv.
  by apply clamp_row_inside.
Qed.

Lemma list_chunk_unchanged_when_validated_witness :
  normalize_chunk PyList (ConfigMinMaxNormalization.__init__ sample_bounds)
    [replicate 7 (3 # 2); replicate 7 (-1)]
  = Ok [replicate 7 (3 # 2); replicate 7 (-1)].
Proof.
  apply (list_chunk_unchanged_when_validated sample_bounds
           [replicate 7 (3 # 2); replicate 7 (-1)]).
  repeat constructor.
Defined.

End NormalizerRangeFacts.

(** ** ReverseTrajDataset.__getitem__: what a sample holds, and when none is produced *)

Module SampleFacts.
Import Py Np TorchData Fixtures NpFacts PyFacts NormalizeChunkFacts ChunkFacts.
Local Open Scope Q_scope.

Lemma after_normalizer_run (nzo : option ConfigMinMaxNormalization) c
    (rows : list (list Q)) :
  normalizer_fits nzo = true ->
  Forall (fun r => length r = CONFIG_DIM) rows ->
  match nzo with
  | Some nz => normalize_chunk c nz rows
  | None => Ok rows
  end = Ok (after_normalizer nzo c rows).
Proof.
  intros Hfit Hw. destruct nzo as [nz|]; [|done].
  simpl in Hfit. apply andb_true_iff in Hfit as [Hlo Hhi].
  apply bool_decide_eq_true in Hlo, Hhi.
  rewrite (normalizer_init_zip nz) at 1 by congruence.
  rewrite normalize_chunk_stored; [done|].
  eapply Forall_impl; [exact Hw|]. simpl. intros r Hr.
  rewrite length_zip. lia.
Qed.

Lemma after_normalizer_length nzo c rows :
  length (after_normalizer nzo c rows) = length rows.
Proof. destruct nzo; simpl; [by rewrite length_fmap|done]. Qed.

Lemma last_key_cons f key keys :
  last_key f (key :: keys)
  = match last_key f keys with
    | Some k => Some k
    | None => if f key then Some key else None
    end.
Proof.
  unfold last_key. simpl. destruct (f key); [|by destruct (last _)].
  by rewrite last_cons.
Qed.


Section contents.
#[local] Set Default Proof Using "All".

Variables (self : ReverseTrajDataset) (demo : demonstration) (L : nat) (s : Z).

Let chunk : nat := chunk_size self.
Let e : Z := Z.min (Z.of_nat L) (s + Z.of_nat chunk).
Let n : nat := valid_length (Z.of_nat L) s chunk.

Hypothesis demo_keys : NoDup demo.*1.
Hypothesis demo_lengths :
  Forall (fun kv => length (items kv.2) = 0 \/ length (items kv.2) = L)%nat demo.
Hypothesis start_in_episode : (0 <= s < Z.of_nat L)%Z.
Hypothesis chunk_pos : (0 < chunk)%nat.
Hypothesis bounds_fit : normalizer_fits (normalizer self) = true.

(** One iteration of the loop over the required keys, as an equation. *)
Lemma collect_entry key acc :
  required_fits demo key = true ->
  exists st fr,
    dict_get demo key = Ok st /\ items st !! Z.to_nat s = Some fr /\
    collect self demo s e acc key
    = Ok (if contains "position" key
          then (acc.1, <["joint_action"%string :=
                           T2 CONFIG_DIM (joint_chunk self st s n)]> acc.2)
          else if contains "gripper" key
          then (acc.1, <["gripper_action"%string :=
                           T1 (gripper_chunk self st s n)]> acc.2)
          else if contains "rgb" key then (<[key := fr]> acc.1, acc.2)
          else (acc.1, <[key := fr]> acc.2)).
Proof.
  intros Hfit. destruct acc as [im db]. cbn [fst snd].
  unfold required_fits in Hfit.
  destruct (dict_get demo key) as [st|] eqn:Hget; [|done].
  apply andb_true_iff in Hfit as [Hpos Hfit]. apply Nat.ltb_lt in Hpos.
  pose proof (stream_length demo L key st demo_lengths Hget Hpos) as HL.
  destruct (window_slice self demo L s demo_keys demo_lengths start_in_episode
              chunk_pos bounds_fit (items st) HL) as [Hslice Hlen].
  pose proof (window_size self demo L s demo_keys demo_lengths start_in_episode
                chunk_pos bounds_fit) as (Hn & Hes & Hse).
  fold chunk e n in Hslice, Hlen, Hn, Hes, Hse.
  destruct (lookup_lt_is_Some_2 (items st) (Z.to_nat s)) as [fr Hfr]; [lia|].
  assert (index (items st) s = Ok fr) as Hidx.
  { rewrite <- (Z2Nat.id s) by lia. by apply index_nat. }
  exists st, fr. split; [done|]. split; [done|].
  unfold collect, stream_fits in *. rewrite Hget. cbn [bind].
  destruct (contains "position" key) eqn:Ep;
    [|destruct (contains "gripper" key) eqn:Eg;
      [|destruct (contains "rgb" key) eqn:Er]].
  - rewrite rows_of_fits
      by (rewrite Hslice;
          by apply (sub_window_fits self demo L s demo_keys demo_lengths
                      start_in_episode chunk_pos bounds_fit)).
    cbn [bind].
    assert (Forall (fun r : list Q => length r = CONFIG_DIM)
              (row_of <$> slice (items st) (Some s) (Some e))) as Hw.
    { apply Forall_fmap. rewrite Hslice.
      apply forallb_Forall in Hfit.
      apply Forall_take, Forall_drop. eapply Forall_impl; [exact Hfit|].
      intros [] Ht; try done. simpl. by apply bool_decide_eq_true in Ht. }
    rewrite after_normalizer_run by done. cbn [bind].
    pose proof (set_rows_fits self demo L s demo_keys demo_lengths
                  start_in_episode chunk_pos bounds_fit
                  (after_normalizer (normalizer self) (kind st)
                     (row_of <$> slice (items st) (Some s) (Some e)))) as Hset.
    fold chunk e n in Hset. fold chunk. rewrite Hset; clear Hset.
    + cbn [bind]. unfold joint_chunk. fold chunk.
      by rewrite Hslice, drop_replicate.
    + by rewrite after_normalizer_length, length_fmap.
    + destruct (normalized_rows (normalizer self) (kind st) _ bounds_fit Hw)
        as (rows & E & _ & Hwidth).
      rewrite after_normalizer_run in E by done. by injection E as <-.
  - unfold scalars_of. rewrite (map_m_ok _ scalar_of).
    2:{ rewrite Hslice. apply forallb_Forall in Hfit.
        apply Forall_take, Forall_drop. eapply Forall_impl; [exact Hfit|].
        by intros []. }
    cbn [bind].
    pose proof (set_prefix_fits self demo L s demo_keys demo_lengths
                  start_in_episode chunk_pos bounds_fit
                  (scalar_of <$> slice (items st) (Some s) (Some e))) as Hset.
    fold chunk e n in Hset. fold chunk. rewrite Hset by (by rewrite length_fmap).
    cbn [bind]. unfold gripper_chunk. fold chunk.
    by rewrite Hslice, drop_replicate.
  - rewrite Hidx. done.
  - rewrite Hidx. done.
Qed.

(** The same iteration, as the lookups of its result. *)
Lemma collect_lookup key acc :
  required_fits demo key = true ->
  exists acc1,
    collect self demo s e acc key = Ok acc1 /\
    acc1.2 !! "joint_action"%string
    = (if position_key key then joint_entry self demo s n key
       else acc.2 !! "joint_action"%string) /\
    acc1.2 !! "gripper_action"%string
    = (if gripper_key key then gripper_entry self demo s n key
       else acc.2 !! "gripper_action"%string) /\
    (forall k,
       acc1.1 !! k = if bool_decide (k = key) && image_key k
                     then timestep demo s k else acc.1 !! k) /\
    (forall k,
       k <> "joint_action"%string -> k <> "gripper_action"%string ->
       acc1.2 !! k = if bool_decide (k = key) && other_key k
                     then timestep demo s k else acc.2 !! k).
Proof.
  intros Hkey.
  destruct (collect_entry key acc Hkey) as (st & fr & Hget & Hfr & E).
  pose proof Hkey as Hname. unfold required_fits in Hname. rewrite Hget in Hname.
  apply andb_true_iff in Hname as [_ Hname]. unfold stream_fits in Hname.
  assert (timestep demo s key = Some fr) as Hts
    by (unfold timestep; by rewrite Hget).
  eexists. split; [exact E|]. clear E.
  assert (forall (k : string) (b : bool),
            (bool_decide (k = key) && b = true -> k = key) /\
            (k <> key -> bool_decide (k = key) && b = false)) as Hdec.
  { intros k b. split.
    - intros H. apply andb_true_iff in H as [H _]. by apply bool_decide_eq_true in H.
    - intros H. by rewrite bool_decide_eq_false_2. }
  unfold position_key, gripper_key, image_key, other_key, joint_entry,
    gripper_entry.
  destruct (contains "position" key) eqn:Ep;
    [|destruct (contains "gripper" key) eqn:Eg;
      [|destruct (contains "rgb" key) eqn:Er]];
    cbn [fst snd negb andb].
  - rewrite Hget, lookup_insert_eq, lookup_insert_ne by done.
    split; [done|]. split; [done|]. split.
    + intros k. destruct (decide (k = key)) as [->|Hne].
      * by rewrite Ep, andb_false_r.
      * by rewrite (proj2 (Hdec k _) Hne).
    + intros k Hk1 Hk2. rewrite lookup_insert_ne by done.
      destruct (decide (k = key)) as [->|Hne].
      * by rewrite Ep, andb_false_r.
      * by rewrite (proj2 (Hdec k _) Hne).
  - rewrite Hget, lookup_insert_eq, lookup_insert_ne by done.
    split; [done|]. split; [done|]. split.
    + intros k. destruct (decide (k = key)) as [->|Hne].
      * by rewrite Ep, Eg, andb_false_r.
      * by rewrite (proj2 (Hdec k _) Hne).
    + intros k Hk1 Hk2. rewrite lookup_insert_ne by done.
      destruct (decide (k = key)) as [->|Hne].
      * by rewrite Ep, Eg, andb_false_r.
      * by rewrite (proj2 (Hdec k _) Hne).
  - split; [done|]. split; [done|]. split.
    + intros k. destruct (decide (k = key)) as [->|Hne].
      * by rewrite Ep, Eg, Er, bool_decide_eq_true_2, lookup_insert_eq.
      * by rewrite (proj2 (Hdec k _) Hne), lookup_insert_ne.
    + intros k Hk1 Hk2. destruct (decide (k = key)) as [->|Hne].
      * by rewrite Ep, Eg, Er, andb_false_r.
      * by rewrite (proj2 (Hdec k _) Hne).
  - apply negb_true_iff, String.eqb_neq in Hname.
    assert (key <> "gripper_action"%string) as Hng
      by (intros ->; by vm_compute in Eg).
    rewrite !lookup_insert_ne by done.
    split; [done|]. split; [done|]. split.
    + intros k. destruct (decide (k = key)) as [->|Hne].
      * by rewrite Ep, Eg, Er, andb_false_r.
      * by rewrite (proj2 (Hdec k _) Hne).
    + intros k Hk1 Hk2. destruct (decide (k = key)) as [->|Hne].
      * by rewrite Ep, Eg, Er, bool_decide_eq_true_2, lookup_insert_eq.
      * by rewrite (proj2 (Hdec k _) Hne), lookup_insert_ne.
Qed.

(** The loop over the required keys returns, and its result is known entry
    by entry. *)
Lemma collect_entries keys acc :
  forallb (required_fits demo) keys = true ->
  exists acc',
    for_each (collect self demo s e) keys acc = Ok acc' /\
    acc'.2 !! "joint_action"%string
    = match last_key position_key keys with
      | Some k => joint_entry self demo s n k
      | None => acc.2 !! "joint_action"%string
      end /\
    acc'.2 !! "gripper_action"%string
    = match last_key gripper_key keys with
      | Some k => gripper_entry self demo s n k
      | None => acc.2 !! "gripper_action"%string
      end /\
    (forall k,
       acc'.1 !! k = if bool_decide (k ∈ keys) && image_key k
                     then timestep demo s k else acc.1 !! k) /\
    (forall k,
       k <> "joint_action"%string -> k <> "gripper_action"%string ->
       acc'.2 !! k = if bool_decide (k ∈ keys) && other_key k
                     then timestep demo s k else acc.2 !! k).
Proof.
  revert acc. induction keys as [|key keys IH]; intros acc Hfit.
  - exists acc. by repeat split.
  - simpl in Hfit. apply andb_true_iff in Hfit as [Hkey Hfit].
    destruct (collect_lookup key acc Hkey) as (acc1 & E & Sj & Sg & Sim & Sdb).
    destruct (IH acc1 Hfit) as (acc' & E' & Hj & Hg & Him & Hdb).
    exists acc'. cbn [for_each]. rewrite E. cbn [bind].
    split; [done|]. rewrite !last_key_cons.
    split.
    { rewrite Hj. destruct (last_key position_key keys); [done|].
      rewrite Sj. by destruct (position_key key). }
    split.
    { rewrite Hg. destruct (last_key gripper_key keys); [done|].
      rewrite Sg. by destruct (gripper_key key). }
    split; intros k; [|intros Hk1 Hk2; rewrite Hdb by done].
    + rewrite Him, Sim.
      rewrite (bool_decide_ext (k ∈ key :: keys) (k = key \/ k ∈ keys))
        by apply elem_of_cons.
      rewrite bool_decide_or.
      by destruct (bool_decide (k = key)), (bool_decide (k ∈ keys)), (image_key k).
    + rewrite Sdb by done.
      rewrite (bool_decide_ext (k ∈ key :: keys) (k = key \/ k ∈ keys))
        by apply elem_of_cons.
      rewrite bool_decide_or.
      by destruct (bool_decide (k = key)), (bool_decide (k ∈ keys)), (other_key k).
Qed.

Lemma timestep_fits key :
  required_fits demo key = true -> is_Some (timestep demo s key).
Proof.
  intros Hkey.
  destruct (collect_entry key (∅, ∅) Hkey) as (st & fr & Hget & Hfr & _).
  unfold timestep. rewrite Hget. eauto.
Qed.

End contents.


Lemma map_m_lookup {A B} (f : A -> result B) xs ys (i : nat) x :
  map_m f xs = Ok ys -> xs !! i = Some x ->
  exists y, ys !! i = Some y /\ f x = Ok y.
Proof.
  revert ys i. induction xs as [|a xs IH]; intros ys i H Hi; [done|].
  cbn [map_m] in H. apply bind_inv in H as (b & Hb & H).
  apply bind_inv in H as (bs & Hbs & H). injection H as <-.
  destruct i as [|i]; simpl in *.
  - injection Hi as <-. eauto.
  - by apply IH.
Qed.

Lemma stack_images_pixels frames k c h w px (i : nat) h' w' c' f :
  stack_images frames = Ok (T4 k c h w px) ->
  frames !! i = Some (T3 h' w' c' f) ->
  forall ch y x, px i ch y x = f y x ch / 255.
Proof.
  unfold stack_images. intros H Hi.
  destruct frames as [|[| | |h0 w0 c0 f0| |] frames]; try done.
  destruct (forallb _ _); [|done].
  injection H as _ _ _ _ <-. intros ch y x. by rewrite Hi.
Qed.

(** The run of [__getitem__] on an episode in the expected format: the
    loop's two dictionaries, the stacked images and the batch returned. *)
Lemma getitem_run self fs draw idx path demo (L : nat) :
  index (file_list self) idx = Ok path ->
  fs path = Some demo ->
  episode_fits self demo L = true ->
  (0 < chunk_size self)%nat ->
  0 <= draw -> draw < 1 ->
  let s := sample_start draw (Z.of_nat L) in
  let e := Z.min (Z.of_nat L) (s + Z.of_nat (chunk_size self)) in
  let n := valid_length (Z.of_nat L) s (chunk_size self) in
  exists (im db : gmap string tensor) px,
    (0 <= s < Z.of_nat L)%Z /\
    db !! "joint_action"%string
    = (last_key position_key (required_data_keys self)
         ≫= joint_entry self demo s n) /\
    db !! "gripper_action"%string
    = (last_key gripper_key (required_data_keys self)
         ≫= gripper_entry self demo s n) /\
    (forall k,
       im !! k = if bool_decide (k ∈ required_data_keys self) && image_key k
                 then timestep demo s k else None) /\
    (forall k,
       k <> "joint_action"%string -> k <> "gripper_action"%string ->
       db !! k = if bool_decide (k ∈ required_data_keys self) && other_key k
                 then timestep demo s k else None) /\
    (forall (i : nat) cam,
       camera_names !! i = Some cam ->
       exists f, im !! cam = Some (T3 128 128 3 f) /\
                 forall ch y x, px i ch y x = f y x ch / 255) /\
    (forall key, key ∈ required_data_keys self ->
       required_fits demo key = true /\ is_Some (timestep demo s key)) /\
    ReverseTrajDataset.__getitem__ self fs draw idx
    = (do '(skill_ind, env_ind) <- indicators (add_task_ind self) path;
       Ok (<["env_ind"%string := T1 env_ind]>
             (<["skill_ind"%string := T1 skill_ind]>
                (<["is_pad"%string :=
                     TBool (pad_mask (chunk_size self) (e - s))]>
                   (<["images"%string := T4 4 3 128 128 px]> db))))).
Proof.
  intros Hpath Hdemo Hfits Hchunk Hd0 Hd1 s e n.
  unfold episode_fits in Hfits.
  repeat (apply andb_true_iff in Hfits as [Hfits ?]).
  rename H into Hnz, H0 into Hgrip, H1 into Hpos, H2 into Hcams, H3 into Hreq.
  rename H4 into Hlens. apply bool_decide_eq_true in Hfits as Hnd.
  apply forallb_Forall in Hlens.
  assert (Forall (fun kv : string * stream =>
            length (items kv.2) = 0 \/ length (items kv.2) = L)%nat demo) as Hlens'.
  { eapply Forall_impl; [exact Hlens|]. intros kv Hkv.
    by apply bool_decide_eq_true in Hkv. }
  apply forallb_Forall in Hcams. rewrite Forall_forall in Hcams.
  assert (forall cam, cam ∈ camera_names -> cam ∈ required_data_keys self) as Hcam.
  { intros cam Hc. specialize (Hcams cam Hc). by apply bool_decide_eq_true in Hcams. }
  pose proof Hreq as Hreq'. apply forallb_Forall in Hreq'.
  rewrite Forall_forall in Hreq'.
  assert (forall key, key ∈ required_data_keys self ->
            exists st, (key, st) ∈ demo /\ (0 < length (items st))%nat /\
                       length (items st) = L) as Hstreams.
  { intros key Hkey. specialize (Hreq' key Hkey). unfold required_fits in Hreq'.
    destruct (dict_get demo key) as [st|] eqn:Hget; [|done].
    apply andb_true_iff in Hreq' as [Hlen _]. apply Nat.ltb_lt in Hlen.
    exists st. split; [by apply dict_get_elem_of|]. split; [done|].
    by apply (stream_length demo L key st Hlens'). }
  destruct (Hstreams "front_rgb"%string) as (st0 & Hin0 & Hpos0 & HL0).
  { apply Hcam. apply list_elem_of_here. }
  assert (0 < L)%nat as HLpos by lia.
  pose proof (episode_length_fits demo L _ st0 Hnd Hlens' Hin0 Hpos0) as Hlen.
  destruct (sample_start_range draw L Hd0 Hd1) as [Hs0 Hs1]. specialize (Hs1 HLpos).
  fold s in Hs0, Hs1.
  assert (0 <= s < Z.of_nat L)%Z as Hs by lia.
  destruct (collect_loop self demo L s Hnd Hlens' Hs Hchunk Hnz
              (required_data_keys self) (∅, ∅) Hreq)
    as ([im db] & Hloop & (Hinv_cam & Hinv_joint & Hinv_grip) & _ & Hadded).
  { split; [|split]; simpl; intros *; rewrite ?lookup_empty; done. }
  destruct (collect_entries self demo L s Hnd Hlens' Hs Hchunk Hnz
              (required_data_keys self) (∅, ∅) Hreq)
    as (acc' & Hloop' & Cj & Cg & Cim & Cdb).
  rewrite Hloop in Hloop'. injection Hloop' as <-.
  cbn [fst snd] in *. fold e n in Cj, Cg.
  (* the four cameras *)
  destruct (camera_frames im camera_names) as (frames & Hframes & Hnframes & Hall).
  { intros cam Hc. pose proof (Hadded cam (Hcam cam Hc)) as Ha.
    assert (is_Some (im !! cam)) as [fr Hfr].
    { unfold camera_names in Hc.
      repeat (apply elem_of_cons in Hc as [->|Hc]; [exact Ha|]).
      by apply elem_of_nil in Hc. }
    exists fr. split; [done|]. by apply (Hinv_cam cam). }
  destruct (stack_frames frames) as [px Hstack]; [by destruct frames|done|].
  rewrite Hnframes in Hstack.
  (* the two action tensors *)
  apply existsb_elem_of in Hpos as (kp & Hkp & Ekp).
  pose proof (Hadded kp Hkp) as Hjoint. unfold added in Hjoint. rewrite Ekp in Hjoint.
  cbn [snd] in Hjoint. destruct Hjoint as [tj Htj].
  destruct (Hinv_joint tj Htj) as (joint & -> & Hjl & Hjz).
  apply existsb_elem_of in Hgrip as (kg & Hkg & Ekg).
  apply andb_true_iff in Ekg as [Ekg1 Ekg2]. apply negb_true_iff in Ekg1.
  pose proof (Hadded kg Hkg) as Hgr. unfold added in Hgr. rewrite Ekg1, Ekg2 in Hgr.
  cbn [snd] in Hgr. destruct Hgr as [tg Htg].
  destruct (Hinv_grip tg Htg) as (gripper & -> & Hgl & Hgz).
  exists im, db, px. split; [done|].
  split. { rewrite Cj. by destruct (last_key _ _). }
  split. { rewrite Cg. by destruct (last_key _ _). }
  split. { intros k. by rewrite Cim, lookup_empty. }
  split. { intros k Hk1 Hk2. by rewrite Cdb, lookup_empty. }
  split.
  { intros i cam Hi.
    destruct (map_m_lookup _ _ _ _ _ Hframes Hi) as (fr & Hfr & Hget).
    unfold map_get in Hget. destruct (im !! cam) as [fr'|] eqn:Him; [|done].
    injection Hget as ->. rewrite Forall_forall in Hall.
    pose proof (Hall fr (list_elem_of_lookup_2 _ _ _ Hfr)) as Hok.
    destruct fr as [| | |h w c f| |]; try done.
    simpl in Hok. apply bool_decide_eq_true in Hok as (-> & -> & ->).
    exists f. split; [done|].
    by apply (stack_images_pixels _ _ _ _ _ _ _ _ _ _ _ Hstack Hfr). }
  split.
  { intros key Hkey. split; [by apply Hreq'|].
    apply (timestep_fits self demo L s Hnd Hlens' Hs Hchunk Hnz), Hreq', Hkey. }
  unfold ReverseTrajDataset.__getitem__.
  rewrite Hpath. cbn [bind]. rewrite Hdemo. cbn [bind].
  assert ((0 <? length (valid_keys demo))%nat = true) as ->.
  { apply Nat.ltb_lt.
    assert ("front_rgb"%string ∈ valid_keys demo) as Hv
      by (apply valid_keys_spec; eauto).
    destruct (valid_keys demo); [by apply elem_of_nil in Hv|simpl; lia]. }
  cbn [assert bind].
  assert (forallb (fun req_key => bool_decide (req_key ∈ valid_keys demo))
            (required_data_keys self) = true) as ->.
  { apply forallb_Forall, Forall_forall. intros key Hkey.
    apply bool_decide_eq_true, valid_keys_spec.
    destruct (Hstreams key Hkey) as (st & ? & ? & _). eauto. }
  cbn [assert bind]. rewrite Hlen. cbn [bind]. fold s.
  rewrite Hloop. cbn [bind]. rewrite Hframes. cbn [bind].
  rewrite Hstack. cbn [bind].
  destruct (indicators (add_task_ind self) path) as [[skill_ind env_ind]|] eqn:Hind;
    [|done].
  destruct (indicators_shapes _ _ _ _ Hind) as [Hsk Hev]. cbn [bind].
  rewrite (check_shapes_ok (chunk_size self) _
             (T4 (length camera_names) 3 128 128 px)
             (TBool (pad_mask (chunk_size self) (e - s)))
             (T2 CONFIG_DIM joint) (T1 gripper) (T1 skill_ind) (T1 env_ind)).
  - reflexivity.
  - by rewrite !lookup_insert_ne, lookup_insert_eq by done.
  - by rewrite !lookup_insert_ne, lookup_insert_eq by done.
  - by rewrite !lookup_insert_ne by done.
  - by rewrite !lookup_insert_ne by done.
  - by rewrite !lookup_insert_ne, lookup_insert_eq by done.
  - by rewrite lookup_insert_eq.
  - reflexivity.
  - cbn [shape]. f_equal. unfold pad_mask.
    rewrite length_fmap, length_app, length_replicate, length_drop, !length_replicate.
    pose proof (slice_bound_range (Z.of_nat (chunk_size self)) (e - s)). lia.
  - cbn [shape]. by rewrite Hjl.
  - cbn [shape]. by rewrite Hgl.
  - cbn [shape]. by rewrite Hsk.
  - cbn [shape]. by rewrite Hev.
Qed.



(** X9. Under the same assumptions the image tensor has the four cameras in
    the order of [camera_names]: entry [(i, ch, y, x)] is pixel
    [(y, x, ch)] of the frame that camera [i] has at timestep [s],
    divided by 255. *)
Theorem camera_images_content self fs draw idx path demo (L : nat)
    skill_ind env_ind :
  index (file_list self) idx = Ok path ->
  fs path = Some demo ->
  episode_fits self demo L = true ->
  (0 < chunk_size self)%nat ->
  0 <= draw -> draw < 1 ->
  indicators (add_task_ind self) path = Ok (skill_ind, env_ind) ->
  let s := sample_start draw (Z.of_nat L) in
  exists batch px,
    ReverseTrajDataset.__getitem__ self fs draw idx = Ok batch /\
    batch !! "images"%string = Some (T4 4 3 128 128 px) /\
    forall (i : nat) cam,
      camera_names !! i = Some cam ->
      exists f,
        timestep demo s cam = Some (T3 128 128 3 f) /\
        forall ch y x, px i ch y x = f y x ch / 255.
Proof.
  intros Hpath Hdemo Hfits Hchunk Hd0 Hd1 Hind s.
  destruct (getitem_run self fs draw idx path demo L Hpath Hdemo Hfits Hchunk
              Hd0 Hd1) as (im & db & px & Hs & _ & _ & Cim & _ & Hpx & _ & Hrun).
  fold s in Cim, Hpx, Hrun. rewrite Hind in Hrun. cbn [bind] in Hrun.
  eexists _, px. split; [exact Hrun|].
  split; [by rewrite !lookup_insert_ne, lookup_insert_eq by done|].
  intros i cam Hi. destruct (Hpx i cam Hi) as (f & Hf & Hpix).
  exists f. split; [|done]. rewrite Cim in Hf.
  by destruct (bool_decide _ && image_key cam).
Qed.

Lemma camera_images_content_witness :
  let self := sample_dataset "d/demo_forward_01.pickle" true in
  let s := sample_start (1 # 2) (Z.of_nat 3) in
  exists batch px,
    ReverseTrajDataset.__getitem__ self (fun _ => Some (episode PyList)) (1 # 2) 0
    = Ok batch /\
    batch !! "images"%string = Some (T4 4 3 128 128 px) /\
    forall (i : nat) cam,
      camera_names !! i = Some cam ->
      exists f,
        timestep (episode PyList) s cam = Some (T3 128 128 3 f) /\
        forall ch y x, px i ch y x = f y x ch / 255.
Proof.
  apply (camera_images_content (sample_dataset "d/demo_forward_01.pickle" true)
           (fun _ => Some (episode PyList)) (1 # 2) 0
           "d/demo_forward_01.pickle" (episode PyList) 3 [1; 0] [1; 0; 0]).
  - reflexivity.
  - reflexivity.
  - vm_compute. reflexivity.
  - simpl. lia.
  - discriminate.
  - reflexivity.
  - reflexivity.
Defined.

(** X10. Under the same assumptions a required key with none of ["position"],
    ["gripper"], ["rgb"] in its name, and which is not one of the four
    batch keys written after the loop, is in the batch with the entry its
    stream has at timestep [s], unchanged. *)
Theorem other_streams_verbatim self fs draw idx path demo (L : nat)
    skill_ind env_ind key :
  index (file_list self) idx = Ok path ->
  fs path = Some demo ->
  episode_fits self demo L = true ->
  (0 < chunk_size self)%nat ->
  0 <= draw -> draw < 1 ->
  indicators (add_task_ind self) path = Ok (skill_ind, env_ind) ->
  key ∈ required_data_keys self ->
  other_key key = true ->
  key ∉ ["images"; "is_pad"; "skill_ind"; "env_ind"]%string ->
  let s := sample_start draw (Z.of_nat L) in
  exists batch t,
    ReverseTrajDataset.__getitem__ self fs draw idx = Ok batch /\
    timestep demo s key = Some t /\
    batch !! key = Some t.
Proof.
  intros Hpath Hdemo Hfits Hchunk Hd0 Hd1 Hind Hkey Hother Hnot s.
  destruct (getitem_run self fs draw idx path demo L Hpath Hdemo Hfits Hchunk
              Hd0 Hd1) as (im & db & px & Hs & _ & _ & _ & Cdb & _ & Hreq & Hrun).
  fold s in Cdb, Hreq, Hrun. rewrite Hind in Hrun. cbn [bind] in Hrun.
  destruct (Hreq key Hkey) as [Hfit [t Ht]].
  assert (key <> "joint_action"%string /\ key <> "gripper_action"%string)
    as [Hnj Hng].
  { unfold other_key in Hother.
    apply andb_true_iff in Hother as [Hother Er].
    apply andb_true_iff in Hother as [Ep Eg].
    apply negb_true_iff in Ep, Eg, Er. split; [|intros ->; by vm_compute in Eg].
    unfold required_fits in Hfit. destruct (dict_get demo key); [|done].
    apply andb_true_iff in Hfit as [_ Hfit]. unfold stream_fits in Hfit.
    rewrite Ep, Eg, Er in Hfit. by apply negb_true_iff, String.eqb_neq in Hfit. }
  eexists _, t. split; [exact Hrun|]. split; [done|].
  rewrite !lookup_insert_ne
    by (intros <-; apply Hnot; rewrite !elem_of_cons; auto 10).
  rewrite Cdb by done. rewrite bool_decide_eq_true_2 by done.
  by rewrite Hother.
Qed.

Lemma other_streams_verbatim_witness :
  let self := velocity_dataset "d/demo_forward_01.pickle" in
  exists batch t,
    ReverseTrajDataset.__getitem__ self (fun _ => Some velocity_episode) (1 # 2) 0
    = Ok batch /\
    timestep velocity_episode (sample_start (1 # 2) (Z.of_nat 3))
      "joint_velocities" = Some t /\
    batch !! "joint_velocities"%string = Some t.
Proof.
  apply (other_streams_verbatim (velocity_dataset "d/demo_forward_01.pickle")
           (fun _ => Some velocity_episode) (1 # 2) 0
           "d/demo_forward_01.pickle" velocity_episode 3 [1; 0] [1; 0; 0]
           "joint_velocities").
  - reflexivity.
  - reflexivity.
  - vm_compute. reflexivity.
  - simpl. lia.
  - discriminate.
  - reflexivity.
  - reflexivity.
  - simpl. rewrite !elem_of_cons. auto 10.
  - reflexivity.
  - intros H. repeat (apply elem_of_cons in H as [H|H]; [discriminate H|]).
    by apply elem_of_nil in H.
Defined.

(** X11. [__getitem__] asserts its contract on the file: when no stream of the
    episode has a timestep, or a required key is missing from the episode
    or has an empty stream, it raises [AssertionError], whatever else the
    file holds. *)
Theorem getitem_rejects_missing_stream self fs draw idx path demo :
  index (file_list self) idx = Ok path ->
  fs path = Some demo ->
  valid_keys demo = [] \/
  (exists key, key ∈ required_data_keys self /\
               forall st, (key, st) ∈ demo -> items st = []) ->
  ReverseTrajDataset.__getitem__ self fs draw idx = Raise AssertionError.
Proof.
  intros Hpath Hdemo H. unfold ReverseTrajDataset.__getitem__.
  rewrite Hpath. cbn [bind]. rewrite Hdemo. cbn [bind].
  destruct H as [->|(key & Hkey & Hempty)]; [done|].
  destruct (0 <? length (valid_keys demo))%nat; [|done]. cbn [assert bind].
  destruct (forallb _ (required_data_keys self)) eqn:E; [|done].
  apply forallb_Forall in E. rewrite Forall_forall in E.
  specialize (E key Hkey). apply bool_decide_eq_true in E.
  apply valid_keys_spec in E as (st & Hin & Hlen).
  rewrite (Hempty st Hin) in Hlen. simpl in Hlen. lia.
Qed.

Lemma getitem_rejects_missing_stream_witness :
  ReverseTrajDataset.__getitem__ (velocity_dataset "d/demo_forward_01.pickle")
    (fun _ => Some (episode PyList)) (1 # 2) 0
  = Raise AssertionError.
Proof.
  apply (getitem_rejects_missing_stream
           (velocity_dataset "d/demo_forward_01.pickle")
           (fun _ => Some (episode PyList)) (1 # 2) 0
           "d/demo_forward_01.pickle" (episode PyList)).
  - reflexivity.
  - reflexivity.
  - right. exists "joint_velocities"%string. split.
    + simpl. rewrite !elem_of_cons. auto 10.
    + intros st H. unfold episode in H.
      repeat (apply elem_of_cons in H as [H|H]; [discriminate H|]).
      by apply elem_of_nil in H.
Defined.

(** X12. The local [skill_ind] is bound only inside [if self.add_task_ind] (by
    a name with ["backward"] or ["forward"]) or in the final [else] of the
    digit test.  For a name that ends in 1, 3 or 5 before [.pickle], with
    [add_task_ind] off ([load_data]'s default) or neither word in the
    name, [__getitem__] never returns a sample; on an episode in the
    expected format it raises [UnboundLocalError]. *)
Theorem getitem_unbound_skill self fs draw idx path c :
  index (file_list self) idx = Ok path ->
  last_char (replace ".pickle" "" path) = Ok c ->
  env_digit c = true ->
  add_task_ind self = false \/
  (contains "backward" path = false /\ contains "forward" path = false) ->
  (forall batch, ReverseTrajDataset.__getitem__ self fs draw idx <> Ok batch) /\
  (forall demo (L : nat),
     fs path = Some demo -> episode_fits self demo L = true ->
     (0 < chunk_size self)%nat -> 0 <= draw -> draw < 1 ->
     ReverseTrajDataset.__getitem__ self fs draw idx = Raise UnboundLocalError).
Proof.
  intros Hpath Hc Hdigit Hskill.
  assert (indicators (add_task_ind self) path = Raise UnboundLocalError) as Hind.
  { unfold indicators. rewrite Hc. cbn [bind].
    assert (skill_from_name (add_task_ind self) path = None) as ->.
    { unfold skill_from_name. destruct Hskill as [->|[-> ->]]; [done|].
      by destruct (add_task_ind self). }
    unfold env_digit in Hdigit.
    by destruct (Ascii.eqb c "1"), (Ascii.eqb c "3"), (Ascii.eqb c "5"). }
  split.
  - intros batch H.
    apply GetitemFacts.getitem_inv in H
      as (path' & ? & ? & ? & ? & sk & ev & ? & Hpath' & _ & _ & _ & Hind' & _).
    rewrite Hpath in Hpath'. injection Hpath' as <-. congruence.
  - intros demo L Hdemo Hfits Hchunk Hd0 Hd1.
    destruct (getitem_run self fs draw idx path demo L Hpath Hdemo Hfits Hchunk
                Hd0 Hd1) as (im & db & px & _ & _ & _ & _ & _ & _ & _ & Hrun).
    by rewrite Hrun, Hind.
Qed.

Lemma getitem_unbound_skill_witness :
  let self := sample_dataset "d/demo_forward_01.pickle" false in
  (forall batch,
     ReverseTrajDataset.__getitem__ self (fun _ => Some (episode PyList)) (1 # 2) 0
     <> Ok batch) /\
  (forall demo (L : nat),
     Some (episode PyList) = Some demo -> episode_fits self demo L = true ->
     (0 < chunk_size self)%nat -> 0 <= 1 # 2 -> 1 # 2 < 1 ->
     ReverseTrajDataset.__getitem__ self (fun _ => Some (episode PyList)) (1 # 2) 0
     = Raise UnboundLocalError).
Proof.
  apply (getitem_unbound_skill (sample_dataset "d/demo_forward_01.pickle" false)
           (fun _ => Some (episode PyList)) (1 # 2) 0
           "d/demo_forward_01.pickle" "1"%char).
  - reflexivity.
  - reflexivity.
  - reflexivity.
  - left. reflexivity.
Defined.

(** X13. [__len__] bounds the indices [__getitem__] accepts: an index below
    [-len] or from [len] on raises [IndexError] before any file is opened. *)
Theorem getitem_index_range self fs draw idx :
  (idx < - Z.of_nat (__len__ self) \/ Z.of_nat (__len__ self) <= idx)%Z ->
  ReverseTrajDataset.__getitem__ self fs draw idx = Raise IndexError.
Proof.
  intros H. unfold ReverseTrajDataset.__getitem__, __len__ in *.
  assert (index (file_list self) idx = Raise IndexError) as ->; [|done].
  unfold index. cbv zeta. destruct (idx <? 0)%Z eqn:E.
  - apply Z.ltb_lt in E.
    assert ((idx + Z.of_nat (length (file_list self)) <? 0)%Z = true) as ->; [|done].
    apply Z.ltb_lt. lia.
  - rewrite E. apply Z.ltb_ge in E. by rewrite lookup_ge_None_2 by lia.
Qed.

Lemma getitem_index_range_witness :
  ReverseTrajDataset.__getitem__ (sample_dataset "d/demo_forward_01.pickle" true)
    (fun _ => Some (episode PyList)) (1 # 2) 1
  = Raise IndexError.
Proof.
  apply (getitem_index_range (sample_dataset "d/demo_forward_01.pickle" true)
           (fun _ => Some (episode PyList)) (1 # 2) 1).
  right. vm_compute. discriminate.
Defined.

End SampleFacts.

(** ** load_data: task names, the searched path and the split *)

Module LoadDataSelectionFacts.
Import Py Np TorchData Fixtures NpFacts PyFacts LoadDataFacts.

(** *** The registry of tasks *)

Lemma task_filter_map_keys few_shot name :
  is_Some (task_filter_map few_shot !! name) <-> name ∈ task_names.
Proof.
  unfold task_filter_map, base_filter_map, task_names.
  cbn [list_to_map foldr fst snd curry uncurry].
  destruct (truthy few_shot);
    rewrite !lookup_insert_is_Some', !elem_of_cons, elem_of_nil;
    pose proof (lookup_empty_is_Some (M:=gmap string) (A:=Re.regex) name) as He;
    (split; intros Hk;
     repeat (destruct Hk as [Hk|Hk]; [subst; auto 20|]);
     [by apply He in Hk|done]).
Qed.

(** X14. [load_data] accepts exactly the sixteen task names of its registry,
    after the removal of ["sim_"]: on one of them it returns the two
    datasets, on any other name the lookup raises [KeyError]. *)
Theorem load_data_task_names shuffle listing a :
  (strip_sim (arg_task_name a) ∈ task_names ->
   exists train test, load_data shuffle listing a = Ok (train, test)) /\
  (strip_sim (arg_task_name a) ∉ task_names ->
   load_data shuffle listing a = Raise KeyError).
Proof.
  split; intros H.
  - apply (task_filter_map_keys (arg_few_shot a)) in H as [pattern Hp].
    destruct (load_data_split shuffle listing a pattern Hp)
      as (train & test & E & _). eauto.
  - unfold load_data, map_get.
    destruct (task_filter_map (arg_few_shot a) !! strip_sim (arg_task_name a))
      as [pattern|] eqn:Hp; [|done].
    exfalso. apply H. apply (task_filter_map_keys (arg_few_shot a)). eauto.
Qed.

Lemma load_data_task_names_witness :
  (exists train test, load_data reverse box_listing few_shot_args = Ok (train, test)) /\
  load_data reverse box_listing (with_task_name few_shot_args "sim_drawer_open")
  = Raise KeyError.
Proof.
  split.
  - apply (proj1 (load_data_task_names reverse box_listing few_shot_args)).
    apply list_elem_of_here.
  - apply (proj2 (load_data_task_names reverse box_listing
                    (with_task_name few_shot_args "sim_drawer_open"))).
    intros H. repeat (apply elem_of_cons in H as [H|H]; [discriminate H|]).
    by apply elem_of_nil in H.
Defined.

(** *** The ["sim_"] prefix *)

Lemma replace_scan_absent (old new s : string) :
  contains old s = false -> replace_scan old new s 0 = s.
Proof.
  induction s as [|c s IH]; [done|]. intros H.
  cbn [contains] in H. apply orb_false_iff in H as [Hp Hc].
  cbn [replace_scan]. rewrite Hp. f_equal. by apply IH.
Qed.

Lemma prefix_app (p t : string) : String.prefix p (p +:+ t) = true.
Proof.
  induction p as [|c p IH]; [by destruct t|].
  change (String c p +:+ t) with (String c (p +:+ t)).
  cbn [String.prefix]. destruct (ascii_dec c c); [exact IH|done].
Qed.

Lemma replace_scan_skip (old new u t : string) :
  replace_scan old new (u +:+ t) (String.length u) = replace_scan old new t 0.
Proof. induction u as [|c u IH]; [done|]. exact IH. Qed.

Lemma replace_scan_occurrence c (old new t : string) :
  replace_scan (String c old) new (String c old +:+ t) 0
  = new +:+ replace_scan (String c old) new t 0.
Proof.
  change (String c old +:+ t) with (String c (old +:+ t)).
  cbn [replace_scan].
  change (String c (old +:+ t)) with (String c old +:+ t).
  rewrite prefix_app. f_equal.
  replace (String.length (String c old) - 1)%nat with (String.length old)
    by (simpl; lia).
  apply replace_scan_skip.
Qed.

Lemma contains_app (p t : string) : contains p (p +:+ t) = true.
Proof.
  destruct p as [|c p]; [by destruct t|].
  change (String c p +:+ t) with (String c (p +:+ t)). cbn [contains].
  change (String c (p +:+ t)) with (String c p +:+ t). by rewrite prefix_app.
Qed.

Lemma strip_sim_prefix (t : string) :
  contains "sim_" t = false -> strip_sim ("sim_" +:+ t) = t /\ strip_sim t = t.
Proof.
  intros H. unfold strip_sim. rewrite H, contains_app. split; [|done].
  unfold replace. rewrite replace_scan_occurrence.
  by rewrite replace_scan_absent.
Qed.

(** X15. A task name may carry the prefix ["sim_"]: [load_data] removes it
    before the lookup, so both spellings give the same datasets, whose
    [task_name] is the name without prefix. *)
Theorem sim_prefix_ignored shuffle listing a (t : string) :
  contains "sim_" t = false ->
  load_data shuffle listing (with_task_name a ("sim_" +:+ t))
  = load_data shuffle listing (with_task_name a t) /\
  forall train test,
    load_data shuffle listing (with_task_name a ("sim_" +:+ t)) = Ok (train, test) ->
    task_name train = t /\ task_name test = t.
Proof.
  intros H. destruct (strip_sim_prefix t H) as [E1 E2].
  unfold load_data. cbn [with_task_name arg_task_name arg_few_shot
    arg_train_split arg_required_data_keys arg_chunk_size arg_norm_bound
    arg_add_task_ind]. rewrite E1, E2. split; [done|].
  intros train test Hrun.
  apply bind_inv in Hrun as (pattern & _ & Hrun).
  destruct (split_files _ _ _) as [tr te]. by injection Hrun as <- <-.
Qed.

Lemma sim_prefix_ignored_witness :
  load_data reverse box_listing (with_task_name box_args ("sim_" +:+ "box_open"))
  = load_data reverse box_listing (with_task_name box_args "box_open").
Proof.
  apply (sim_prefix_ignored reverse box_listing box_args "box_open").
  reflexivity.
Defined.

(** *** The pattern is searched in the whole path *)

Lemma matches_at_nullable r s : Re.nullable r = true -> Re.matches_at r s = true.
Proof. intros H. destruct s; cbn [Re.matches_at]; by rewrite H. Qed.

Lemma matches_at_app r (s t : string) :
  Re.matches_at r s = true -> Re.matches_at r (s +:+ t) = true.
Proof.
  revert r. induction s as [|c s IH]; intros r H.
  - cbn [Re.matches_at] in H. rewrite orb_false_r in H.
    by apply matches_at_nullable.
  - change (String c s +:+ t) with (String c (s +:+ t)).
    cbn [Re.matches_at] in *. apply orb_true_iff in H as [H|H].
    + by rewrite H.
    + rewrite (IH _ H). apply orb_true_r.
Qed.

Lemma search_app_r r (s t : string) :
  Re.search r s = true -> Re.search r (s +:+ t) = true.
Proof.
  induction s as [|c s IH]; intros H.
  - cbn [Re.search] in H. rewrite orb_false_r in H.
    apply (matches_at_app r "" t) in H. change ("" +:+ t) with t in *.
    destruct t; cbn [Re.search]; by rewrite H.
  - change (String c s +:+ t) with (String c (s +:+ t)).
    cbn [Re.search] in *. apply orb_true_iff in H as [H|H].
    + apply (matches_at_app r (String c s) t) in H.
      change (String c s +:+ t) with (String c (s +:+ t)) in H. by rewrite H.
    + rewrite (IH H). apply orb_true_r.
Qed.

Lemma search_app_l r (p s : string) :
  Re.search r s = true -> Re.search r (p +:+ s) = true.
Proof.
  intros H. induction p as [|c p IH]; [done|].
  change (String c p +:+ s) with (String c (p +:+ s)).
  cbn [Re.search]. rewrite IH. apply orb_true_r.
Qed.

(** X16. [task_filter_key.search(file)] looks at the whole path that [glob]
    returns, directory included.  So a file whose name matches is kept
    under any directory, and under a directory whose own name matches
    every file is kept, whatever its name. *)
Theorem search_whole_path pattern (dir : string) (names : list string) :
  Re.search pattern dir = true \/
  Forall (fun f => Re.search pattern f = true) names ->
  filter_files (Some pattern) ((fun f => dir +:+ f) <$> names)
  = (fun f => dir +:+ f) <$> names.
Proof.
  intros H. unfold filter_files.
  assert (Forall (fun f => Re.search pattern (dir +:+ f) = true) names) as Hall.
  { destruct H as [H|H].
    - apply Forall_forall. intros f _. by apply search_app_r.
    - eapply Forall_impl; [exact H|]. intros f Hf. by apply search_app_l. }
  clear H. induction Hall as [|f names Hf _ IH]; [done|].
  cbn [fmap list_fmap List.filter]. rewrite Hf. f_equal. exact IH.
Qed.

Lemma search_whole_path_witness :
  filter_files (Some (skill_pattern "forward_" "1"))
    ((fun f => forward_directory +:+ f) <$> ["demo_backward_02.pickle"%string])
  = (fun f => forward_directory +:+ f) <$> ["demo_backward_02.pickle"%string].
Proof.
  apply (search_whole_path (skill_pattern "forward_" "1") forward_directory
           ["demo_backward_02.pickle"%string]).
  left. reflexivity.
Defined.

(** *** The split without few-shot *)

Lemma int_floor (x : Q) :
  (0 <= x)%Q -> (inject_Z (int x) <= x)%Q /\ (x < inject_Z (int x + 1))%Q.
Proof.
  destruct x as [n d]. unfold Qle, Qlt, int, inject_Z. simpl.
  rewrite !Z.mul_1_r. intros Hn.
  rewrite Z.quot_div_nonneg by lia.
  pose proof (Z.mul_div_le n (Z.pos d) ltac:(lia)).
  pose proof (Z.mul_succ_div_gt n (Z.pos d) ltac:(lia)).
  split; lia.
Qed.

Section split.

Variable shuffle : list string -> list string.

(** X17. Without few-shot and with [train_split] in [[0, 1]], the train list
    is the first [k] files of the shuffled matched list and the validation
    list all the others, where [k] is [len * train_split] rounded down. *)
Theorem train_split_sizing listing a pattern :
  truthy (arg_few_shot a) = false ->
  (0 <= arg_train_split a)%Q -> (arg_train_split a <= 1)%Q ->
  task_filter_map (arg_few_shot a) !! strip_sim (arg_task_name a) = Some pattern ->
  let matched := shuffle (List.filter (Re.search pattern) listing) in
  let x := (inject_Z (Z.of_nat (length matched)) * arg_train_split a)%Q in
  exists (k : nat) train test,
    load_data shuffle listing a = Ok (train, test) /\
    file_list train = take k matched /\
    file_list test = drop k matched /\
    (k <= length matched)%nat /\
    (inject_Z (Z.of_nat k) <= x)%Q /\ (x < inject_Z (Z.of_nat k + 1))%Q.
Proof.
  intros Hfew H0 H1 Hp matched x.
  destruct (load_data_split shuffle listing a pattern Hp)
    as (train & test & E & Hsplit).
  fold matched in Hsplit. unfold split_files in Hsplit. rewrite Hfew in Hsplit.
  cbv zeta in Hsplit. fold x in Hsplit.
  assert (0 <= inject_Z (Z.of_nat (length matched)))%Q as HL
    by (unfold Qle, inject_Z; simpl; lia).
  assert (0 <= x)%Q as Hx by (unfold x; Lqa.nra).
  assert (x <= inject_Z (Z.of_nat (length matched)))%Q as Hx1
    by (unfold x; Lqa.nra).
  destruct (int_floor x Hx) as [Hlo Hhi].
  assert (0 <= int x <= Z.of_nat (length matched))%Z as Hk.
  { split.
    - assert (0 < inject_Z (int x + 1))%Q as Hlt
        by (eapply Qle_lt_trans; eauto).
      unfold Qlt, inject_Z in Hlt. simpl in Hlt. lia.
    - assert (inject_Z (int x) <= inject_Z (Z.of_nat (length matched)))%Q as Hle
        by (eapply Qle_trans; eauto).
      unfold Qle, inject_Z in Hle. simpl in Hle. lia. }
  exists (Z.to_nat (int x)), train, test. split; [exact E|].
  rewrite slice_prefix_nonneg, slice_suffix in Hsplit by lia.
  injection Hsplit as -> ->. rewrite Z2Nat.id by lia.
  split; [f_equal; lia|]. split.
  { f_equal. unfold slice_bound.
    destruct (int x <? 0)%Z eqn:E0; [apply Z.ltb_lt in E0; lia|]. lia. }
  split; [lia|]. done.
Qed.

End split.

Lemma train_split_sizing_witness :
  let matched := reverse (List.filter (Re.search (env_pattern "1")) box_listing) in
  let x := (inject_Z (Z.of_nat (length matched)) * (0.8))%Q in
  exists (k : nat) train test,
    load_data reverse box_listing box_args = Ok (train, test) /\
    file_list train = take k matched /\
    file_list test = drop k matched /\
    (k <= length matched)%nat /\
    (inject_Z (Z.of_nat k) <= x)%Q /\ (x < inject_Z (Z.of_nat k + 1))%Q.
Proof.
  apply (train_split_sizing reverse box_listing box_args (env_pattern "1")).
  - reflexivity.
  - discriminate.
  - discriminate.
  - reflexivity.
Defined.

End LoadDataSelectionFacts.

(** ** The patterns of task_filter_map *)

Module ReFacts.
Import Re.

Lemma append_cons c (s t : string) : String c s +:+ t = String c (s +:+ t).
Proof. reflexivity. Qed.

Lemma append_nil_l (s : string) : "" +:+ s = s.
Proof. reflexivity. Qed.

Lemma append_nil_r (s : string) : s +:+ "" = s.
Proof. induction s as [|c s IH]; [done|]. by rewrite append_cons, IH. Qed.

Lemma append_assoc (s t u : string) : (s +:+ t) +:+ u = s +:+ (t +:+ u).
Proof. induction s as [|c s IH]; [done|]. by rewrite !append_cons, IH. Qed.

Lemma append_nil_inv (s t : string) : s +:+ t = "" -> s = "" /\ t = "".
Proof. by destruct s. Qed.

Lemma nullable_spec r : nullable r = true <-> lang r "".
Proof.
  induction r as [| | | | |r1 IH1 r2 IH2|r1 IH1 r2 IH2|r IH]; cbn [nullable].
  - split; [done|]. inversion 1.
  - split; [constructor|done].
  - split; [done|]. inversion 1.
  - split; [done|]. inversion 1.
  - split; [done|]. inversion 1.
  - rewrite andb_true_iff, IH1, IH2. split.
    + intros [H1 H2]. apply (lang_seq _ _ "" "" H1 H2).
    + inversion 1 as [| | | |? ? s1 s2 H1 H2 E1 E2| | | |]; subst.
      apply append_nil_inv in E2 as [-> ->]. done.
  - rewrite orb_true_iff, IH1, IH2. split.
    + intros [H|H]; [by apply lang_alt_l|by apply lang_alt_r].
    + inversion 1; subst; auto.
  - split; [constructor|done].
Qed.

Lemma lang_star_cons_inv r c s :
  lang (Star r) (String c s) ->
  exists s1 s2, s = s1 +:+ s2 /\ lang r (String c s1) /\ lang (Star r) s2.
Proof.
  intros H. remember (Star r) as sr eqn:Er. remember (String c s) as cs eqn:Es.
  revert s Es. induction H as [| | | | | | | |r' s1 s2 H1 _ H2 IH2]; try done.
  injection Er as ->. intros s Es. destruct s1 as [|c1 s1].
  - apply IH2; done.
  - rewrite append_cons in Es. injection Es as -> <-. eauto.
Qed.

Lemma deriv_spec r c s : lang (deriv c r) s <-> lang r (String c s).
Proof.
  revert s. induction r as [| |c'| |rs|r1 IH1 r2 IH2|r1 IH1 r2 IH2|r IH];
    intros s; cbn [deriv].
  - split; inversion 1.
  - split; inversion 1.
  - destruct (Ascii.eqb c c') eqn:E.
    + apply Ascii.eqb_eq in E as ->. split.
      * inversion 1. constructor.
      * inversion 1. constructor.
    + apply Ascii.eqb_neq in E. split; inversion 1; congruence.
  - destruct (Ascii.eqb c newline) eqn:E.
    + split; inversion 1; congruence.
    + split; inversion 1; subst; by constructor.
  - destruct (existsb (in_range c) rs) eqn:E.
    + split; inversion 1; subst; by constructor.
    + split; inversion 1; congruence.
  - assert (lang (Seq (deriv c r1) r2) s \/ (nullable r1 = true /\ lang (deriv c r2) s)
            <-> lang (Seq r1 r2) (String c s)) as Hseq.
    { split.
      - intros [H|[Hn H]].
        + inversion H as [| | | |? ? s1 s2 H1 H2| | | |]; subst.
          apply IH1 in H1. apply (lang_seq _ _ (String c s1) s2 H1 H2).
        + apply IH2 in H. apply nullable_spec in Hn.
          apply (lang_seq _ _ "" (String c s) Hn H).
      - inversion 1 as [| | | |? ? s1 s2 H1 H2 E1 E2| | | |]; subst.
        destruct s1 as [|c1 s1].
        + rewrite append_nil_l in E2. subst s2. right. split; [by apply nullable_spec|by apply IH2].
        + rewrite append_cons in E2. injection E2 as -> <-. left.
          apply lang_seq; [by apply IH1|done]. }
    rewrite <- Hseq. destruct (nullable r1).
    + split.
      * inversion 1; subst; auto.
      * intros [H|[_ H]]; [by apply lang_alt_l|by apply lang_alt_r].
    + split; [auto|]. by intros [H|[? _]].
  - split.
    + inversion 1; subst; [apply lang_alt_l|apply lang_alt_r]; by
        first [apply IH1|apply IH2].
    + inversion 1; subst; [apply lang_alt_l|apply lang_alt_r]; by
        first [apply IH1|apply IH2].
  - split.
    + inversion 1 as [| | | |? ? s1 s2 H1 H2| | | |]; subst.
      apply IH in H1. apply (lang_star_cons _ (String c s1) s2 H1 H2).
    + intros H. apply lang_star_cons_inv in H as (s1 & s2 & -> & H1 & H2).
      apply lang_seq; [by apply IH|done].
Qed.

(** [matches_at] and [search] against the language. *)
Lemma matches_at_spec r s :
  matches_at r s = true <-> exists a b, s = a +:+ b /\ lang r a.
Proof.
  revert r. induction s as [|c s IH]; intros r; cbn [matches_at].
  - rewrite orb_false_r, nullable_spec. split.
    + intros H. by exists ""%string, ""%string.
    + intros (a & b & E & H). symmetry in E.
      apply append_nil_inv in E as [-> _]. done.
  - rewrite orb_true_iff, nullable_spec, IH. split.
    + intros [H|(a & b & -> & H)].
      * by exists ""%string, (String c s).
      * exists (String c a), b. split; [done|]. by apply deriv_spec.
    + intros ([|c' a] & b & E & H); [by left|].
      rewrite append_cons in E. injection E as <- ->. right. exists a, b.
      split; [done|]. by apply deriv_spec.
Qed.

Lemma search_spec r s :
  search r s = true <-> exists p a b, s = p +:+ (a +:+ b) /\ lang r a.
Proof.
  induction s as [|c s IH]; cbn [search].
  - rewrite orb_false_r, matches_at_spec. split.
    + intros (a & b & E & H). by exists ""%string, a, b.
    + intros (p & a & b & E & H). symmetry in E.
      apply append_nil_inv in E as [-> E]. eauto.
  - rewrite orb_true_iff, matches_at_spec, IH. split.
    + intros [(a & b & E & H)|(p & a & b & -> & H)].
      * by exists ""%string, a, b.
      * by exists (String c p), a, b.
    + intros ([|c' p] & a & b & E & H); [left; by exists a, b|].
      rewrite append_cons in E. injection E as <- ->. right. eauto.
Qed.

Lemma search_mono r r' s :
  (forall a, lang r a -> lang r' a) -> search r s = true -> search r' s = true.
Proof.
  intros Hsub. rewrite !search_spec. intros (p & a & b & E & H).
  exists p, a, b. auto.
Qed.

Lemma lang_seq_mono r1 r1' r2 r2' :
  (forall x, lang r1 x -> lang r1' x) -> (forall x, lang r2 x -> lang r2' x) ->
  forall a, lang (Seq r1 r2) a -> lang (Seq r1' r2') a.
Proof.
  intros H1 H2 a. inversion 1; subst. apply lang_seq; auto.
Qed.

Lemma lang_lit_one c : forall a, lang (Lit c) a -> lang (one c) a.
Proof.
  intros a. inversion 1; subst. unfold one. constructor. unfold in_range.
  cbn [existsb fst snd]. by rewrite Nat.leb_refl.
Qed.

Lemma lang_one_lit c : forall a, lang (one c) a -> lang (Lit c) a.
Proof.
  intros a. unfold one. inversion 1 as [| | |c' rs Hc| | | | |]; subst.
  cbn [existsb fst snd] in Hc. unfold in_range in Hc. cbn [fst snd] in Hc.
  rewrite orb_false_r in Hc. apply andb_true_iff in Hc as [H1 H2].
  apply Nat.leb_le in H1, H2.
  assert (nat_of_ascii c' = nat_of_ascii c) as E by lia.
  apply (f_equal ascii_of_nat) in E. rewrite !ascii_nat_embedding in E.
  subst. constructor.
Qed.

Lemma lang_str (s a : string) : lang (str s) a <-> a = s.
Proof.
  revert a. induction s as [|c s IH]; intros a; cbn [str].
  - split; [by inversion 1|intros ->; constructor].
  - split.
    + inversion 1 as [| | | |? ? a1 a2 H1 H2| | | |]; subst.
      inversion H1; subst. apply IH in H2 as ->. done.
    + intros ->. apply (lang_seq _ _ (String c "") s); [constructor|by apply IH].
Qed.

(** A literal word at the start of a pattern can lose a prefix of its
    own: the match then starts later in the path. *)
Lemma search_str_suffix (p q : string) r r' s :
  (forall a, lang r a -> lang r' a) ->
  search (Seq (str (p +:+ q)) r) s = true -> search (Seq (str q) r') s = true.
Proof.
  intros Hsub. rewrite !search_spec. intros (pre & a & b & -> & H).
  inversion H as [| | | |? ? a1 a2 H1 H2| | | |]; subst.
  apply lang_str in H1 as ->.
  exists (pre +:+ p), (q +:+ a2), b. split.
  - by rewrite !append_assoc.
  - apply lang_seq; [by apply lang_str|auto].
Qed.

(** A pattern that starts with a literal word can lose it when what
    replaces the word may match nothing: the match then starts later in
    the path. *)
Lemma search_seq_weaken r1 r1' r2 s :
  nullable r1' = true ->
  search (Seq r1 r2) s = true -> search (Seq r1' r2) s = true.
Proof.
  intros Hn. rewrite !search_spec. intros (p & a & b & -> & H).
  inversion H as [| | | |? ? a1 a2 H1 H2| | | |]; subst.
  exists (p +:+ a1), a2, b. split.
  - by rewrite !append_assoc.
  - apply nullable_spec in Hn. apply (lang_seq _ _ "" a2 Hn H2).
Qed.

End ReFacts.

Module RegistryFacts.
Import Py Re TorchData Fixtures ReFacts.

Lemma env_pattern_class env :
  forall a, lang (env_pattern env) a -> lang (env_class_pattern env) a.
Proof.
  unfold env_pattern, env_class_pattern, seqs. cbn [foldr].
  apply lang_seq_mono; [done|]. apply lang_seq_mono; [done|].
  apply lang_seq_mono; [apply lang_lit_one|done].
Qed.

(** X18. The tasks of one environment are nested: every path that the pattern
    of a skill task ([box_open], [box_close], ...) selects is selected by
    the pattern of its environment ([box], ...), with or without
    few-shot. *)
Theorem skill_files_are_environment_files few_shot skill env r_skill r_env file :
  (skill, env) ∈ task_families ->
  task_filter_map few_shot !! skill = Some r_skill ->
  task_filter_map few_shot !! env = Some r_env ->
  search r_skill file = true -> search r_env file = true.
Proof.
  intros Hin Hs He. unfold task_families in Hin.
  unfold task_filter_map in Hs, He.
  repeat (apply elem_of_cons in Hin as [[= -> ->]|Hin];
    [destruct (truthy few_shot);
     rewrite !lookup_insert_ne in Hs by done;
     rewrite !lookup_insert_ne in He by done;
     vm_compute in Hs; vm_compute in He;
     injection Hs as <-; injection He as <-;
     apply (search_seq_weaken _ (Star word)); reflexivity|]).
  by apply elem_of_nil in Hin.
Qed.

Lemma skill_files_are_environment_files_witness :
  search (env_pattern "1") "d/demo_forward_01.pickle" = true.
Proof.
  apply (skill_files_are_environment_files None "box_open" "box"
           (skill_pattern "forward_" "1") (env_pattern "1")).
  - apply list_elem_of_here.
  - reflexivity.
  - reflexivity.
  - reflexivity.
Defined.

(** X19. Without few-shot, a multi-task name selects every path that the
    environments it lists select: [bo_bc_tc] every box file,
    [bo_bc_go_gc_tc] every box and grill file, [go_gc_to_tc_bc] and
    [go_gc_to_tc_bo] every grill and toilet-seat file. *)
Theorem environment_files_are_multi_task_files few_shot env multi r_env r_multi
    file :
  truthy few_shot = false ->
  (env, multi) ∈ multi_task_members ->
  task_filter_map few_shot !! env = Some r_env ->
  task_filter_map few_shot !! multi = Some r_multi ->
  search r_env file = true -> search r_multi file = true.
Proof.
  intros Hfew Hin He Hm. unfold multi_task_members in Hin.
  unfold task_filter_map in He, Hm. rewrite Hfew in He, Hm.
  repeat (apply elem_of_cons in Hin as [[= -> ->]|Hin];
    [vm_compute in He; vm_compute in Hm;
     injection He as <-; injection Hm as <-;
     apply search_mono; intros a Ha;
     first [ apply lang_alt_l; exact (env_pattern_class _ a Ha)
           | apply lang_alt_r, lang_alt_l; exact (env_pattern_class _ a Ha) ]|]).
  by apply elem_of_nil in Hin.
Qed.

Lemma environment_files_are_multi_task_files_witness :
  search (Alt (env_class_pattern "1") (demo_pattern "demo_backward_" "3"))
    "d/demo_backward_01.pickle" = true.
Proof.
  apply (environment_files_are_multi_task_files None "box" "bo_bc_tc"
           (env_pattern "1")
           (Alt (env_class_pattern "1") (demo_pattern "demo_backward_" "3"))).
  - reflexivity.
  - apply list_elem_of_here.
  - reflexivity.
  - reflexivity.
  - reflexivity.
Defined.

(** X20. With few-shot, a multi-task name stands for the demonstrations of one
    skill only: every path it selects is selected by that skill's task
    ([bo_bc_tc] and [bo_bc_go_gc_tc] give toilet-seat-up files,
    [go_gc_to_tc_bc] box-open files, [go_gc_to_tc_bo] box-close files). *)
Theorem few_shot_files_are_target_skill_files few_shot multi skill r_multi r_skill
    file :
  truthy few_shot = true ->
  (multi, skill) ∈ few_shot_targets ->
  task_filter_map few_shot !! multi = Some r_multi ->
  task_filter_map few_shot !! skill = Some r_skill ->
  search r_multi file = true -> search r_skill file = true.
Proof.
  intros Hfew Hin Hm Hs. unfold few_shot_targets in Hin.
  unfold task_filter_map in Hm, Hs. rewrite Hfew in Hm, Hs.
  repeat (apply elem_of_cons in Hin as [[= -> ->]|Hin];
    [vm_compute in Hm; vm_compute in Hs;
     injection Hm as <-; injection Hs as <-;
     first [ apply (search_str_suffix "demo_" "forward_")
           | apply (search_str_suffix "demo_" "backward_") ];
     apply lang_seq_mono; [done|];
     apply lang_seq_mono; [apply lang_one_lit|done]|]).
  by apply elem_of_nil in Hin.
Qed.

Lemma few_shot_files_are_target_skill_files_witness :
  search (skill_pattern "forward_" "3") "d/demo_forward_03.pickle" = true.
Proof.
  apply (few_shot_files_are_target_skill_files (Some 5%Z) "bo_bc_tc"
           "toilet_seat_up" (demo_pattern "demo_forward_" "3")
           (skill_pattern "forward_" "3")).
  - reflexivity.
  - apply list_elem_of_here.
  - reflexivity.
  - reflexivity.
  - reflexivity.
Defined.

End RegistryFacts.

(** ** kl_divergence: its three outputs, its sign and the 4-D view *)

Module KlOutputFacts.
Import Py Np Policy NpFacts KlFacts.
Local Open Scope R_scope.
#[local] Arguments INR : simpl never.

Lemma sum_fmap_plus {A} (f g : A -> R) l :
  sum ((fun x => f x + g x) <$> l) = sum (f <$> l) + sum (g <$> l).
Proof.
  induction l as [|x l IH]; cbn [fmap list_fmap]; [unfold sum; simpl; lra|].
  rewrite !sum_cons, IH. lra.
Qed.

Lemma sum_fmap_scale {A} (f : A -> R) (c : R) l :
  sum ((fun x => f x * c) <$> l) = sum (f <$> l) * c.
Proof.
  induction l as [|x l IH]; cbn [fmap list_fmap]; [unfold sum; simpl; lra|].
  rewrite !sum_cons, IH. lra.
Qed.

Lemma sum_fmap_zero {A} (l : list A) : sum ((fun _ => 0) <$> l) = 0.
Proof.
  induction l as [|x l IH]; cbn [fmap list_fmap]; [done|].
  rewrite sum_cons, IH. lra.
Qed.

Lemma sum_nth_seq (r : list R) :
  sum ((fun j => nth j r 0) <$> seq 0 (length r)) = sum r.
Proof.
  induction r as [|x r IH]; [done|].
  cbn [length seq fmap list_fmap nth]. rewrite !sum_cons, <- IH.
  by rewrite <- fmap_S_seq, <- list_fmap_compose.
Qed.

(** Summing a matrix by columns or by rows. *)
Lemma sum_columns (K : tensor2) (D : nat) :
  Forall (fun r => length r = D) K ->
  sum ((fun j => sum ((fun row => nth j row 0) <$> K)) <$> seq 0 D)
  = sum (sum <$> K).
Proof.
  induction 1 as [|r K Hr _ IH]; cbn [fmap list_fmap].
  - apply sum_fmap_zero.
  - rewrite sum_cons, <- IH.
    rewrite <- (sum_nth_seq r), Hr, <- sum_fmap_plus.
    f_equal.
Qed.

Lemma foldr_fadd_num (l : list R) : foldr fadd (num 0) (num <$> l) = num (sum l).
Proof.
  induction l as [|x l IH]; [done|].
  cbn [fmap list_fmap foldr]. rewrite IH. by rewrite sum_cons.
Qed.

Lemma mean_nonempty (l : list R) :
  l <> [] -> mean l = num (sum l / INR (length l)).
Proof. by destruct l. Qed.

Lemma kld_zero_iff m l : kld m l = 0 <-> m = 0 /\ l = 0.
Proof.
  unfold kld. split.
  - intros H. pose proof (pow2_ge_0 m) as Hm. pose proof (exp_ineq1_le l) as Hl.
    assert (m ^ 2 = 0) as Hm0 by lra. assert (exp l = 1 + l) as Hl0 by lra.
    split.
    + assert (m * m = 0) as Hmm by lra.
      apply Rmult_integral in Hmm. by destruct Hmm.
    + destruct (Req_dec l 0) as [|Hne]; [done|].
      pose proof (exp_ineq1 l Hne). lra.
  - intros [-> ->]. rewrite exp_0. lra.
Qed.

(** What [kl_divergence] returns on 2-D tensors of one shape, before any
    arithmetic. *)
Lemma kl_divergence_klds (mu logvar : tensor2) :
  mu <> [] -> shape2_eq mu logvar ->
  let klds := zip_with (zip_with kld) mu logvar in
  kl_divergence (Some (Lat2 mu)) (Some (Lat2 logvar))
  = Ok ([mean (sum <$> klds)], mean <$> columns klds, [fmean (mean <$> klds)]).
Proof.
  intros Hne Hs klds. unfold kl_divergence. cbn [bind size0].
  destruct (length mu =? 0)%nat eqn:E0;
    [apply Nat.eqb_eq in E0; by destruct mu|].
  cbn [negb assert bind view2]. by rewrite (broadcast2_zip kld _ _ Hs).
Qed.

Lemma klds_rect (mu logvar : tensor2) (D : nat) :
  Forall (fun r => length r = D) mu -> Forall (fun r => length r = D) logvar ->
  length mu = length logvar ->
  shape2_eq mu logvar /\
  Forall (fun r => length r = D) (zip_with (zip_with kld) mu logvar) /\
  length (zip_with (zip_with kld) mu logvar) = length mu.
Proof.
  intros Hm. revert logvar. induction Hm as [|r mu Hr _ IH];
    intros [|s logvar] Hl HL; simpl in HL; try lia.
  - by repeat split; try constructor.
  - apply Forall_cons in Hl as [Hs Hl].
    destruct (IH logvar Hl ltac:(lia)) as (H1 & H2 & H3).
    split; [constructor; [congruence|done]|]. cbn [zip_with]. split.
    + constructor; [|done]. rewrite length_zip_with. lia.
    + simpl. lia.
Qed.

(** X21. The three outputs of [kl_divergence] agree: on latent parameters with
    [B > 0] rows of [D > 0] columns, the dimension-wise divergences are
    [D] numbers that add up to the total, and the mean divergence is the
    total divided by [D]. *)
Theorem kl_divergence_outputs (mu logvar : tensor2) (D : nat) :
  mu <> [] -> (0 < D)%nat ->
  Forall (fun r => length r = D) mu -> Forall (fun r => length r = D) logvar ->
  length mu = length logvar ->
  exists total dims,
    kl_divergence (Some (Lat2 mu)) (Some (Lat2 logvar))
    = Ok ([num total], num <$> dims, [num (total / INR D)]) /\
    length dims = D /\ sum dims = total.
Proof.
  intros Hne HD Hm Hl HL.
  destruct (klds_rect mu logvar D Hm Hl HL) as (Hs & Hrect & HB).
  rewrite (kl_divergence_klds mu logvar Hne Hs). cbv zeta.
  set (K := zip_with (zip_with kld) mu logvar) in *.
  assert (K <> []) as HK by (intros E; rewrite E in HB; by destruct mu).
  assert (0 < INR (length K)) as HBpos.
  { apply lt_0_INR. destruct K; [done|simpl; lia]. }
  assert (0 < INR D) as HDpos by (by apply lt_0_INR).
  exists (sum (sum <$> K) / INR (length K)),
    ((fun j => sum ((fun row => nth j row 0) <$> K) / INR (length K))
       <$> seq 0 D).
  split; [|split].
  - f_equal. f_equal; [f_equal|].
    + f_equal. rewrite mean_nonempty by (by destruct K).
      by rewrite length_fmap.
    + destruct K as [|r K']; [done|]. unfold columns.
      apply Forall_cons in Hrect as Hr. destruct Hr as [Hr _]. rewrite Hr.
      rewrite <- !list_fmap_compose. apply list_fmap_ext. intros _ j _.
      cbn [compose]. rewrite mean_nonempty by done. by rewrite length_fmap.
    + f_equal. unfold fmean. destruct (mean <$> K) as [|x xs] eqn:E;
        [by destruct K|]. rewrite <- E. clear x xs E.
      assert (mean <$> K = num <$> ((fun r => sum r * / INR D) <$> K)) as ->.
      { rewrite <- list_fmap_compose. apply Forall_fmap_ext_1.
        eapply Forall_impl; [exact Hrect|]. intros r Hr. cbn [compose].
        rewrite mean_nonempty by (destruct r; [simpl in Hr; lia|done]).
        by rewrite Hr. }
      rewrite foldr_fadd_num, sum_fmap_scale, !length_fmap. cbn [fmul].
      f_equal. unfold Rdiv. ring.
  - by rewrite length_fmap, length_seq.
  - unfold Rdiv. rewrite sum_fmap_scale. f_equal. by apply sum_columns.
Qed.

Lemma kl_divergence_outputs_witness :
  exists total dims,
    kl_divergence (Some (Lat2 [[1; 0]; [0; 2]])) (Some (Lat2 [[0; 0]; [0; 1]]))
    = Ok ([num total], num <$> dims, [num (total / INR 2)]) /\
    length dims = 2%nat /\ sum dims = total.
Proof.
  apply (kl_divergence_outputs [[1; 0]; [0; 2]] [[0; 0]; [0; 1]] 2).
  - done.
  - lia.
  - repeat constructor.
  - repeat constructor.
  - reflexivity.
Defined.

Lemma sum_row_zero (r s : list R) :
  length r = length s -> sum (zip_with kld r s) = 0 ->
  Forall (fun x => x = 0) r /\ Forall (fun x => x = 0) s.
Proof.
  revert s. induction r as [|a r IH]; intros [|b s] HL H; simpl in HL; try lia.
  - by split.
  - cbn [zip_with] in H. rewrite sum_cons in H.
    pose proof (kld_nonneg a b). pose proof (sum_row_nonneg r s).
    assert (kld a b = 0) as Hab by lra.
    apply kld_zero_iff in Hab as [-> ->].
    destruct (IH s ltac:(lia) ltac:(lra)). by split; constructor.
Qed.

Lemma kl_sum_nonneg (mu logvar : tensor2) : 0 <= kl_sum mu logvar.
Proof.
  unfold kl_sum. apply sum_nonneg. apply Forall_fmap, Forall_forall.
  intros l Hl. apply elem_of_lookup_zip_with in Hl as (i & a & b & -> & _ & _).
  apply sum_row_nonneg.
Qed.

Lemma kl_sum_zero (mu logvar : tensor2) :
  shape2_eq mu logvar -> kl_sum mu logvar = 0 ->
  Forall (Forall (fun x => x = 0)) mu /\ Forall (Forall (fun x => x = 0)) logvar.
Proof.
  induction 1 as [|r s mu logvar Hr _ IH]; intros H; [by split|].
  unfold kl_sum in H. cbn [zip_with fmap list_fmap] in H. rewrite sum_cons in H.
  pose proof (sum_row_nonneg r s). pose proof (kl_sum_nonneg mu logvar) as Hrest.
  unfold kl_sum in Hrest.
  destruct (sum_row_zero r s Hr ltac:(lra)).
  destruct (IH ltac:(unfold kl_sum; lra)). by split; constructor.
Qed.

(** X22. The total divergence is never negative, and it is [0] exactly when
    every [mu] and every [logvar] is [0]: the posterior is then the
    standard normal prior in every latent dimension. *)
Theorem kl_divergence_zero_iff (mu logvar : tensor2) :
  mu <> [] -> shape2_eq mu logvar ->
  exists total dims avg,
    kl_divergence (Some (Lat2 mu)) (Some (Lat2 logvar))
    = Ok ([num total], dims, avg) /\
    0 <= total /\
    (total = 0 <->
     Forall (Forall (fun x => x = 0)) mu /\
     Forall (Forall (fun x => x = 0)) logvar).
Proof.
  intros Hne Hs.
  destruct (kl_divergence_total mu logvar Hne Hs) as (dims & avg & E).
  eexists _, dims, avg. split; [exact E|].
  assert (0 < INR (length mu)) as HB.
  { apply lt_0_INR. destruct mu; [done|simpl; lia]. }
  pose proof (kl_sum_nonneg mu logvar) as Hk. split.
  - apply Rmult_le_pos; [done|]. left. by apply Rinv_0_lt_compat.
  - split.
    + intros H0. apply kl_sum_zero; [done|].
      apply (Rmult_eq_compat_r (INR (length mu))) in H0.
      unfold Rdiv in H0. rewrite Rmult_assoc, Rinv_l in H0 by lra. lra.
    + intros [Hm Hl]. rewrite kl_sum_zeros by done. unfold Rdiv. lra.
Qed.

Lemma kl_divergence_zero_iff_witness :
  exists total dims avg,
    kl_divergence (Some (Lat2 [[1; 0]; [0; 2]])) (Some (Lat2 [[0; 0]; [0; 1]]))
    = Ok ([num total], dims, avg) /\
    0 <= total /\
    (total = 0 <->
     Forall (Forall (fun x => x = 0)) [[1; 0]; [0; 2]] /\
     Forall (Forall (fun x => x = 0)) [[0; 0]; [0; 1]]).
Proof.
  apply (kl_divergence_zero_iff [[1; 0]; [0; 2]] [[0; 0]; [0; 1]]).
  - done.
  - repeat constructor.
Defined.



End KlOutputFacts.

(** ** The masked loss, a missing keyword, and CNNMLPPolicy *)

Module MaskFacts.
Import Py Np Policy PolicyFixtures NpFacts PyFacts KlFacts CallFacts.
Local Open Scope R_scope.
#[local] Arguments INR : simpl never.

Lemma unmasked_app es es' : unmasked (es ++ es') = unmasked es ++ unmasked es'.
Proof. unfold unmasked. by rewrite List.filter_app, fmap_app. Qed.

Lemma unmasked_tag_row row (p : bool) :
  unmasked (tag_row row p) = if p then [] else row.
Proof.
  unfold unmasked, tag_row. induction row as [|x row IH]; [by destruct p|].
  cbn [fmap list_fmap List.filter snd]. destruct p; cbn [negb]; [exact IH|].
  cbn [fmap list_fmap fst]. f_equal. exact IH.
Qed.

Lemma same_unmasked_concat (ls ls' : list (list (R * bool))) :
  Forall2 same_unmasked ls ls' -> same_unmasked (concat ls) (concat ls').
Proof.
  induction 1 as [|l l' ls ls' [Hl Hu] _ [IHl IHu]]; [by split|].
  cbn [concat]. split.
  - rewrite !length_app. congruence.
  - rewrite !unmasked_app. congruence.
Qed.

Lemma Forall2_concat {A B} (P : A -> B -> Prop) ls ls' :
  Forall2 (Forall2 P) ls ls' -> Forall2 P (concat ls) (concat ls').
Proof.
  induction 1 as [|l l' ls ls' Hl _ IH]; [constructor|].
  cbn [concat]. by apply Forall2_app.
Qed.

Lemma l1_over_all_same es es' :
  same_unmasked es es' -> l1_over_all es = l1_over_all es'.
Proof.
  intros [Hl Hu]. unfold l1_over_all.
  destruct es, es'; try done. by rewrite Hl, Hu.
Qed.

(** One batch element: rows of targets, two rows of predictions, flags. *)
Lemma same_unmasked_rows (acts hat hat' : tensor2) (pads : list bool) :
  shape2_eq acts hat -> shape2_eq acts hat' -> length acts = length pads ->
  Forall3 (fun row row' (p : bool) => p = false -> row = row') hat hat' pads ->
  Forall2 same_unmasked
    (zip_with tag_row (zip_with (zip_with (fun a b => Rabs (a - b))) acts hat) pads)
    (zip_with tag_row (zip_with (zip_with (fun a b => Rabs (a - b))) acts hat') pads).
Proof.
  intros Hs. revert hat' pads.
  induction Hs as [|a h acts hat Hah _ IH]; intros hat' pads Hs' HL H3.
  - inversion Hs'. constructor.
  - inversion Hs' as [|? h' ? hat'' Hah' Hs'']; subst.
    inversion H3 as [|? ? p ? ? pads' Hp H3']; subst.
    cbn [zip_with]. constructor; [|apply IH; [done|simpl in HL; lia|done]].
    split.
    + unfold tag_row. rewrite !length_fmap, !length_zip_with. lia.
    + rewrite !unmasked_tag_row. destruct p; [done|]. by rewrite Hp.
Qed.

(** X24. Padded timesteps do not reach the loss: two predictions that agree on
    every timestep that is not padded give the same masked L1 loss,
    whatever they hold at the padded ones. *)
Theorem masked_l1_ignores_padded (actions a_hat a_hat' : tensor3) (is_pad : mask) :
  shape3_eq actions a_hat -> shape3_eq actions a_hat' ->
  shape2_eq actions is_pad ->
  Forall3 (fun hat hat' pads =>
             Forall3 (fun row row' (p : bool) => p = false -> row = row')
               hat hat' pads) a_hat a_hat' is_pad ->
  (do all_l1 <- l1_loss actions a_hat; masked_mean all_l1 is_pad)
  = (do all_l1 <- l1_loss actions a_hat'; masked_mean all_l1 is_pad).
Proof.
  intros Hs Hs' Hp H3.
  rewrite !l1_loss_closed by done. cbn [bind].
  rewrite !masked_mean_closed by done. f_equal.
  apply l1_over_all_same. unfold entries.
  apply same_unmasked_concat, Forall2_concat.
  revert a_hat' is_pad Hs' Hp H3. unfold abs_errors.
  induction Hs as [|a h actions a_hat Hah _ IH]; intros a_hat' is_pad Hs' Hp H3.
  - inversion Hs'. constructor.
  - inversion Hs' as [|? h' ? hat'' Hah' Hs'']; subst.
    inversion H3 as [|? ? pads ? ? is_pad' Hpads H3']; subst.
    inversion Hp as [|? ? ? ? HL Hp']; subst.
    cbn [zip_with]. constructor; [|by apply IH].
    by apply same_unmasked_rows.
Qed.

Lemma masked_l1_ignores_padded_witness :
  (do all_l1 <- l1_loss [[[1]; [0]]] [[[3]; [7]]]; masked_mean all_l1 [[false; true]])
  = (do all_l1 <- l1_loss [[[1]; [0]]] [[[3]; [-2]]];
     masked_mean all_l1 [[false; true]]).
Proof.
  apply (masked_l1_ignores_padded [[[1]; [0]]] [[[3]; [7]]] [[[3]; [-2]]]
           [[false; true]]).
  - repeat constructor.
  - repeat constructor.
  - repeat constructor.
  - repeat constructor; done.
Defined.

Section missing_skill.

Context {noise qpos : Type}.
Variable model :
  noise -> qpos -> images -> option (tensor3 * mask) ->
  gmap string (option tensor2) ->
  result (tensor3 * tensor2 * (option latent * option latent)).
Variable num_queries : nat.
Variables (self : ACTPolicy) (eps : nat -> noise) (q : qpos).
Variables (image image' : images) (actions : tensor3) (is_pad : mask).
Variable kwargs : gmap string tensor2.

Let acts : tensor3 := take num_queries <$> actions.
Let pads : mask := take num_queries <$> is_pad.

Variables (a_hat : tensor3) (is_pad_hat : tensor2) (mu logvar : latent).
Variables (mu2 logvar2 : tensor2).
Hypothesis image_ok : normalize image = Ok image'.
Hypothesis first_run :
  model (eps 0%nat) q image' (Some (acts, pads)) (Some <$> kwargs)
  = Ok (a_hat, is_pad_hat, (Some mu, Some logvar)).
Hypothesis a_hat_shape : shape3_eq acts a_hat.
Hypothesis pad_shape : shape2_eq acts pads.
Hypothesis batch_not_empty : size0 mu <> 0%nat.
Hypothesis mu_view : view2 mu = Ok mu2.
Hypothesis logvar_view : view2 logvar = Ok logvar2.
Hypothesis latent_shape : shape2_eq mu2 logvar2.
Hypothesis multi_task : truthy (few_shot self) = false.
Hypothesis no_skill : kwargs !! "skill_ind"%string = None.

(** X25. Without few-shot the second run of the backbone needs the shape of
    the keyword [skill_ind]: a training call that does not pass it raises
    [AttributeError], after the first run and its losses went through. *)
Theorem call_without_skill_ind :
  ACTPolicy.__call__ model num_queries self eps q image (Some actions)
    (Some is_pad) kwargs
  = Raise AttributeError.
Proof using All.
  unfold ACTPolicy.__call__. rewrite image_ok. cbn [bind]. fold acts pads.
  rewrite first_run. cbn [bind].
  destruct (kl_divergence_views mu logvar mu2 logvar2) as (dims & avg & ->); try done.
  cbn [bind]. rewrite l1_loss_closed by done. cbn [bind].
  rewrite masked_mean_closed by done. cbn [bind].
  rewrite multi_task. cbn [negb]. by rewrite no_skill.
Qed.

End missing_skill.

Lemma call_without_skill_ind_witness :
  ACTPolicy.__call__ stub_model 2 multi_task_policy (fun i => i) tt sample_image
    (Some sample_actions) (Some sample_pad) ∅
  = Raise AttributeError.
Proof.
  apply (call_without_skill_ind stub_model 2 multi_task_policy (fun i => i) tt
           sample_image normalized_sample_image sample_actions sample_pad ∅
           [[[0]; [0]]] [] (Lat2 [[0]]) (Lat2 [[0]]) [[0]] [[0]]).
  - reflexivity.
  - reflexivity.
  - repeat constructor.
  - repeat constructor.
  - simpl. lia.
  - reflexivity.
  - reflexivity.
  - repeat constructor.
  - reflexivity.
  - reflexivity.
Defined.

End MaskFacts.

Module CnnMlpFacts.
Import Py Np Policy PolicyFixtures NpFacts PyFacts KlFacts KlOutputFacts.
Local Open Scope R_scope.
#[local] Arguments INR : simpl never.

Lemma sum_app l1 l2 : sum (l1 ++ l2) = sum l1 + sum l2.
Proof.
  induction l1 as [|x l1 IH]; [simpl; unfold sum; simpl; lra|].
  cbn [app]. rewrite !sum_cons, IH. lra.
Qed.

Lemma squares_nonneg (r s : list R) :
  0 <= sum (zip_with (fun a b => (a - b) ^ 2) r s).
Proof.
  apply sum_nonneg, Forall_forall. intros x Hx.
  apply elem_of_lookup_zip_with in Hx as (i & a & b & -> & _ & _).
  apply pow2_ge_0.
Qed.

Lemma squares_zero (r s : list R) :
  length r = length s ->
  sum (zip_with (fun a b => (a - b) ^ 2) r s) = 0 -> s = r.
Proof.
  revert s. induction r as [|a r IH]; intros [|b s] HL H; simpl in HL; try lia;
    [done|].
  cbn [zip_with] in H. rewrite sum_cons in H.
  pose proof (pow2_ge_0 (a - b)). pose proof (squares_nonneg r s).
  assert ((a - b) * (a - b) = 0) as Hab by lra.
  apply Rmult_integral in Hab.
  f_equal; [destruct Hab; lra|]. apply IH; [lia|lra].
Qed.

Lemma all_squares_nonneg (x y : tensor2) :
  0 <= sum (concat (zip_with (zip_with (fun a b => (a - b) ^ 2)) x y)).
Proof.
  revert y. induction x as [|r x IH]; intros [|s y]; cbn [zip_with concat];
    try (unfold sum; simpl; lra).
  rewrite sum_app. pose proof (squares_nonneg r s). specialize (IH y). lra.
Qed.

Lemma all_squares_zero (x y : tensor2) :
  shape2_eq x y ->
  sum (concat (zip_with (zip_with (fun a b => (a - b) ^ 2)) x y)) = 0 -> y = x.
Proof.
  induction 1 as [|r s x y Hr _ IH]; intros H; [done|].
  cbn [zip_with concat] in H. rewrite sum_app in H.
  pose proof (squares_nonneg r s). pose proof (all_squares_nonneg x y).
  f_equal; [apply squares_zero; [done|lra]|apply IH; lra].
Qed.

Lemma all_squares_same (x : tensor2) :
  sum (concat (zip_with (zip_with (fun a b => (a - b) ^ 2)) x x)) = 0.
Proof.
  induction x as [|r x IH]; [done|]. cbn [zip_with concat].
  rewrite sum_app, IH.
  assert (sum (zip_with (fun a b => (a - b) ^ 2) r r) = 0) as ->; [|lra].
  clear. induction r as [|a r IH]; [done|].
  cbn [zip_with]. rewrite sum_cons, IH. lra.
Qed.

Lemma length_squares (x y : tensor2) :
  shape2_eq x y ->
  length (concat (zip_with (zip_with (fun a b => (a - b) ^ 2)) x y))
  = length (concat x).
Proof.
  induction 1 as [|r s x y Hr _ IH]; [done|].
  cbn [zip_with concat]. rewrite !length_app, IH, length_zip_with. lia.
Qed.

Section training.

Context {noise qpos : Type}.
Variable model : noise -> qpos -> images -> option tensor2 -> result tensor2.
Variables (eps : noise) (q : qpos) (image image' : images).
Variables (actions : tensor3) (is_pad : option mask).
Variables (first a_hat : tensor2).
Hypothesis image_ok : normalize image = Ok image'.
Hypothesis first_ok : first_step actions = Ok first.
Hypothesis run : model eps q image' (Some first) = Ok a_hat.
Hypothesis a_hat_shape : shape2_eq first a_hat.
Hypothesis not_empty : concat first <> [].

(** X26. In training mode [CNNMLPPolicy] looks at the first timestep of every
    chunk only and ignores [is_pad]: its [loss] is its [mse], the mean
    squared error between that timestep and the prediction, which is
    never negative and is [0] exactly when the prediction equals the
    target. *)
Theorem cnnmlp_loss_is_mse :
  exists x,
    CNNMLPPolicy.__call__ model eps q image (Some actions) is_pad
    = Ok (CNNMLPPolicy.MseLosses
            {| CNNMLPPolicy.mse := num x; CNNMLPPolicy.loss := num x |}) /\
    x = sum (concat (zip_with (zip_with (fun a b => (a - b) ^ 2)) first a_hat))
        / INR (length (concat first)) /\
    0 <= x /\ (x = 0 <-> a_hat = first).
Proof using All.
  set (squares := zip_with (zip_with (fun a b => (a - b) ^ 2)) first a_hat).
  assert (length (concat squares) = length (concat first)) as HN
    by (by apply length_squares).
  assert (0 < INR (length (concat first))) as Hpos.
  { apply lt_0_INR. destruct (concat first); [done|simpl; lia]. }
  exists (sum (concat squares) / INR (length (concat first))).
  split; [|split; [done|split]].
  - unfold CNNMLPPolicy.__call__. rewrite image_ok. cbn [bind].
    rewrite first_ok. cbn [bind]. rewrite run. cbn [bind].
    unfold mse_loss. rewrite (broadcast2_zip _ _ _ a_hat_shape). cbn [bind].
    fold squares. rewrite mean_nonempty.
    + by rewrite HN.
    + intros E. rewrite E in HN. simpl in HN. by destruct (concat first).
  - apply Rmult_le_pos; [apply all_squares_nonneg|].
    left. by apply Rinv_0_lt_compat.
  - split.
    + intros H0. apply all_squares_zero; [done|].
      apply (Rmult_eq_compat_r (INR (length (concat first)))) in H0.
      unfold Rdiv in H0. rewrite Rmult_assoc, Rinv_l in H0 by lra.
      fold squares. lra.
    + intros ->. unfold squares. rewrite all_squares_same. unfold Rdiv. lra.
Qed.

End training.

Lemma cnnmlp_loss_is_mse_witness :
  exists x,
    CNNMLPPolicy.__call__ zero_model 0%nat tt sample_image (Some sample_actions)
      None
    = Ok (CNNMLPPolicy.MseLosses
            {| CNNMLPPolicy.mse := num x; CNNMLPPolicy.loss := num x |}) /\
    x = sum (concat (zip_with (zip_with (fun a b => (a - b) ^ 2)) [[1]] [[0]]))
        / INR (length (concat [[1]])) /\
    0 <= x /\ (x = 0 <-> [[0]] = [[1]]).
Proof.
  apply (cnnmlp_loss_is_mse zero_model 0%nat tt sample_image
           normalized_sample_image sample_actions None [[1]] [[0]]).
  - reflexivity.
  - reflexivity.
  - reflexivity.
  - repeat constructor.
  - done.
Defined.

End CnnMlpFacts.

(** ** The sampled window of __getitem__ *)

Module WindowFacts.
Import Py Np TorchData Fixtures NpFacts PyFacts ChunkFacts SampleFacts.
Local Open Scope Q_scope.

(** X27. The sampled window is never empty: for a draw in [[0, 1)] the start
    lies inside the episode, so the first entry of [is_pad] is [false];
    and when at least [chunk_size] timesteps are left from the start on,
    nothing is padded. *)
Theorem sample_has_real_timestep self fs draw idx path demo (L : nat)
    skill_ind env_ind :
  index (file_list self) idx = Ok path ->
  fs path = Some demo ->
  episode_fits self demo L = true ->
  (0 < chunk_size self)%nat ->
  0 <= draw -> draw < 1 ->
  indicators (add_task_ind self) path = Ok (skill_ind, env_ind) ->
  let s := sample_start draw (Z.of_nat L) in
  exists batch is_pad,
    ReverseTrajDataset.__getitem__ self fs draw idx = Ok batch /\
    batch !! "is_pad"%string = Some (TBool is_pad) /\
    (0 <= s < Z.of_nat L)%Z /\
    is_pad !! 0%nat = Some false /\
    ((s + Z.of_nat (chunk_size self) <= Z.of_nat L)%Z ->
     is_pad = replicate (chunk_size self) false).
Proof.
  intros Hpath Hdemo Hfits Hchunk Hd0 Hd1 Hind s.
  destruct (getitem_run self fs draw idx path demo L Hpath Hdemo Hfits Hchunk
              Hd0 Hd1) as (im & db & px & Hs & _ & _ & _ & _ & _ & _ & Hrun).
  fold s in Hs, Hrun. rewrite Hind in Hrun. cbn [bind] in Hrun.
  eexists _, _. split; [exact Hrun|].
  split; [by rewrite lookup_insert_ne, lookup_insert_ne, lookup_insert_eq|].
  split; [done|].
  rewrite pad_mask_eq by lia. split.
  - rewrite lookup_app_l by (rewrite length_replicate; lia).
    apply lookup_replicate_2. lia.
  - intros Hroom. rewrite Z.min_r by lia.
    replace (Z.to_nat (s + Z.of_nat (chunk_size self) - s))
      with (chunk_size self) by lia.
    by rewrite Nat.sub_diag, app_nil_r.
Qed.

Lemma sample_has_real_timestep_witness :
  let self := sample_dataset "d/demo_forward_01.pickle" true in
  let s := sample_start (1 # 2) (Z.of_nat 3) in
  exists batch is_pad,
    ReverseTrajDataset.__getitem__ self (fun _ => Some (episode PyList)) (1 # 2) 0
    = Ok batch /\
    batch !! "is_pad"%string = Some (TBool is_pad) /\
    (0 <= s < Z.of_nat 3)%Z /\
    is_pad !! 0%nat = Some false /\
    ((s + Z.of_nat (chunk_size self) <= Z.of_nat 3)%Z ->
     is_pad = replicate (chunk_size self) false).
Proof.
  apply (sample_has_real_timestep (sample_dataset "d/demo_forward_01.pickle" true)
           (fun _ => Some (episode PyList)) (1 # 2) 0
           "d/demo_forward_01.pickle" (episode PyList) 3 [1; 0] [1; 0; 0]).
  - reflexivity.
  - reflexivity.
  - vm_compute. reflexivity.
  - simpl. lia.
  - discriminate.
  - reflexivity.
  - reflexivity.
Defined.

End WindowFacts.
